(** * Zero-of-functions solver: the six iterative root finders

    A shallow embedding of the numerical methods of [ZOF_CLI.py] (which
    print every step) and [app.py] (which collect the steps in a list),
    with the properties of the specification stated over them.

    Numbers are Python floats, that is IEEE 754 binary64: Rocq's primitive
    floats with the same operations, comparisons that are false on NaN, and
    a division that raises [ZeroDivisionError] on a zero divisor.  An
    evaluator is a Python callable on floats that returns a float (NaN
    included) or raises; it is deterministic.  The text of a printed line
    is not modelled: a line is the tuple of values it is formatted from. *)

From Stdlib Require Import PrimFloat SpecFloat FloatOps FloatAxioms.

From Stdlib Require Import ZArith List String Bool Lia.

Import ListNotations.

Set Implicit Arguments.

(** ** Python values, exceptions and output *)

(** The exception classes the programs meet; an evaluator may raise any
    other subclass of [Exception]. *)
Inductive exn_class : Type :=
| ValueError
| ZeroDivisionError
| UnboundLocalError
| OtherException (name : string).

Record exn : Type := Exn { exn_kind : exn_class; exn_msg : string }.

Inductive result (A : Type) : Type :=
| Ok (a : A)
| Raise (e : exn).

Arguments Raise {A} e.

(** [f = lambdify(x, expr, 'numpy')]: deterministic, may raise. *)
Definition evaluator : Type := float -> result float.

(** The last column of a step: the values interpolated in the f-string. *)
Inductive extra : Type :=
| Interval (a b : float)
| Points (x0 x1 : float)
| Derivative (dfxi : float)
| GUsed
| Delta (delta : float).

(** One step [(k, x_k, f(x_k), error, extra)]. *)
Record IterationRecord : Type := mkRecord {
  index : Z;
  estimate : float;
  function_value : float;
  error_metric : float;
  context : extra
}.

(** A line of standard output. *)
Inductive line : Type :=
| HeaderLine
| RuleLine
| Row (r : IterationRecord).

(** ** Statements: output so far in, output and outcome out *)

Definition M (A : Type) : Type := list line -> list line * result A.

Definition ret {A} (a : A) : M A := fun out => (out, Ok a).

Definition raise {A} (e : exn) : M A := fun out => (out, Raise e).

Definition bind {A B} (m : M A) (k : A -> M B) : M B :=
  fun out =>
    match m out with
    | (out', Ok a) => k a out'
    | (out', Raise e) => (out', Raise e)
    end.

Notation "x <- c1 ;; c2" := (bind c1 (fun x => c2))
  (at level 61, c1 at next level, right associativity).

Notation "c1 ;; c2" := (bind c1 (fun _ => c2))
  (at level 61, right associativity).

Definition print (l : line) : M unit := fun out => (out ++ [l], Ok tt).

Definition call (f : evaluator) (x : float) : M float := fun out => (out, f x).

(** [try: m except Exception: handler]; every [exn] is an [Exception]. *)
Definition try_except {A} (m : M A) (handler : M A) : M A :=
  fun out =>
    match m out with
    | (out', Ok a) => (out', Ok a)
    | (out', Raise _) => handler out'
    end.

(** Reading a local variable that may not have been assigned; the message
    is reduced to the name of the variable. *)
Definition local {A} (name : string) (v : option A) : M A :=
  match v with
  | Some a => ret a
  | None => raise (Exn UnboundLocalError name)
  end.

Local Open Scope float_scope.

(** [x / y] on Python floats. *)
Definition truediv (x y : float) : M float :=
  if y =? 0 then raise (Exn ZeroDivisionError "float division by zero")
  else ret (x / y).

(** ** [for k in range(lo, hi)] with [return] inside the body *)

Inductive flow (S R : Type) : Type :=
| Next (s : S)
| Return (r : R).

Arguments Next {S R} s.

Arguments Return {S R} r.

Fixpoint for_loop {S R} (n : nat) (k : Z) (body : Z -> S -> M (flow S R))
    (s : S) : M (flow S R) :=
  match n with
  | O => ret (Next s)
  | Datatypes.S n' =>
      fl <- body k s ;;
      match fl with
      | Next s' => for_loop n' (Z.succ k) body s'
      | Return r => ret (Return r)
      end
  end.

Definition for_range {S R} (lo hi : Z) (body : Z -> S -> M (flow S R))
    (s : S) : M (flow S R) :=
  for_loop (Z.to_nat (hi - lo)) lo body s.

(** ** Loop variables *)

(** Bisection and Regula Falsi: [a], [b], [fa], [fb], and [c], [fc] which
    are assigned in the loop body. *)
Record bracket : Type := mkBracket {
  br_a : float; br_b : float; br_fa : float; br_fb : float;
  br_c : option float; br_fc : option float
}.

(** Secant: the window [x0], [x1], [f0], [f1], and [x2], [fx2] which are
    assigned in the loop body. *)
Record window : Type := mkWindow {
  w_x0 : float; w_x1 : float; w_f0 : float; w_f1 : float;
  w_x2 : option float; w_fx2 : option float
}.

(** ** ZOF_CLI.py *)

Module CLI.

Definition print_iter_header : M unit :=
  print HeaderLine ;; print RuleLine.

Definition returned : Type := (float * float * Z)%type.

Definition bisection_body (f : evaluator) (tol : float) (k : Z) (s : bracket)
    : M (flow bracket returned) :=
  let '(mkBracket a b fa fb _ _) := s in
  let c := (a + b) / 2 in
  fc <- call f c ;;
  let err := abs (b - a) / 2 in
  print (Row (mkRecord k c fc err (Interval a b))) ;;
  if (abs fc =? 0) || (err <? tol) then ret (Return (c, fc, k))
  else if fa * fc <? 0 then ret (Next (mkBracket a c fa fc (Some c) (Some fc)))
  else ret (Next (mkBracket c b fc fb (Some c) (Some fc))).

Definition bisection (f : evaluator) (a b tol : float) (maxit : Z) : M returned :=
  fa <- call f a ;;
  fb <- call f b ;;
  if is_nan fa || is_nan fb then
    raise (Exn ValueError "Function returned NaN on interval endpoints.")
  else if 0 <? fa * fb then
    raise (Exn ValueError "f(a) and f(b) must have opposite signs for bisection.")
  else
    print_iter_header ;;
    fl <- for_range 1 (maxit + 1) (bisection_body f tol)
            (mkBracket a b fa fb (Some a) None) ;;
    match fl with
    | Return r => ret r
    | Next s =>
        c <- local "c" (br_c s) ;;
        fc <- local "fc" (br_fc s) ;;
        ret (c, fc, maxit)
    end.

Definition regula_falsi_body (f : evaluator) (tol : float) (k : Z) (s : bracket)
    : M (flow bracket returned) :=
  let '(mkBracket a b fa fb _ _) := s in
  c <- truediv (a * fb - b * fa) (fb - fa) ;;
  fc <- call f c ;;
  let err := abs fc in
  print (Row (mkRecord k c fc err (Interval a b))) ;;
  if abs fc <? tol then ret (Return (c, fc, k))
  else if fa * fc <? 0 then ret (Next (mkBracket a c fa fc (Some c) (Some fc)))
  else ret (Next (mkBracket c b fc fb (Some c) (Some fc))).

Definition regula_falsi (f : evaluator) (a b tol : float) (maxit : Z) : M returned :=
  fa <- call f a ;;
  fb <- call f b ;;
  if 0 <? fa * fb then
    raise (Exn ValueError "f(a) and f(b) must have opposite signs for Regula Falsi.")
  else
    print_iter_header ;;
    fl <- for_range 1 (maxit + 1) (regula_falsi_body f tol)
            (mkBracket a b fa fb (Some a) None) ;;
    match fl with
    | Return r => ret r
    | Next s =>
        c <- local "c" (br_c s) ;;
        fc <- local "fc" (br_fc s) ;;
        ret (c, fc, maxit)
    end.

Definition secant_body (f : evaluator) (tol : float) (k : Z) (s : window)
    : M (flow window returned) :=
  let '(mkWindow x0 x1 f0 f1 _ _) := s in
  if f1 - f0 =? 0 then
    raise (Exn ZeroDivisionError "Division by zero in Secant method.")
  else
    q <- truediv (f1 * (x1 - x0)) (f1 - f0) ;;
    let x2 := x1 - q in
    let err := abs (x2 - x1) in
    fx2 <- call f x2 ;;
    print (Row (mkRecord k x2 fx2 err (Points x0 x1))) ;;
    if (err <? tol) || (abs fx2 <? tol) then ret (Return (x2, fx2, k))
    else ret (Next (mkWindow x1 x2 f1 fx2 (Some x2) (Some fx2))).

Definition secant (f : evaluator) (x0 x1 tol : float) (maxit : Z) : M returned :=
  print_iter_header ;;
  f0 <- call f x0 ;;
  f1 <- call f x1 ;;
  fl <- for_range 1 (maxit + 1) (secant_body f tol)
          (mkWindow x0 x1 f0 f1 None None) ;;
  match fl with
  | Return r => ret r
  | Next s =>
      x2 <- local "x2" (w_x2 s) ;;
      fx2 <- local "fx2" (w_fx2 s) ;;
      ret (x2, fx2, maxit)
  end.

Definition newton_raphson_body (f df : evaluator) (tol : float) (k : Z)
    (xi : float) : M (flow float returned) :=
  fxi <- call f xi ;;
  dfxi <- call df xi ;;
  if dfxi =? 0 then
    raise (Exn ZeroDivisionError "Zero derivative encountered in Newton-Raphson.")
  else
    q <- truediv fxi dfxi ;;
    let x_next := xi - q in
    let err := abs (x_next - xi) in
    shown <- call f x_next ;;
    print (Row (mkRecord k x_next shown err (Derivative dfxi))) ;;
    small <- (if err <? tol then ret true
              else (v <- call f x_next ;; ret (abs v <? tol))) ;;
    if (small : bool) then (v <- call f x_next ;; ret (Return (x_next, v, k)))
    else ret (Next x_next).

Definition newton_raphson (f df : evaluator) (x0 tol : float) (maxit : Z)
    : M returned :=
  print_iter_header ;;
  fl <- for_range 1 (maxit + 1) (newton_raphson_body f df tol) x0 ;;
  match fl with
  | Return r => ret r
  | Next xi => v <- call f xi ;; ret (xi, v, maxit)
  end.

Definition fixed_point_body (g : evaluator) (tol : float) (k : Z) (xi : float)
    : M (flow float returned) :=
  x_next <- call g xi ;;
  let err := abs (x_next - xi) in
  gx <- try_except (call g x_next) (ret nan) ;;
  print (Row (mkRecord k x_next gx err GUsed)) ;;
  if err <? tol then ret (Return (x_next, gx, k))
  else ret (Next x_next).

Definition fixed_point (g : evaluator) (x0 tol : float) (maxit : Z) : M returned :=
  print_iter_header ;;
  fl <- for_range 1 (maxit + 1) (fixed_point_body g tol) x0 ;;
  match fl with
  | Return r => ret r
  | Next xi => v <- call g xi ;; ret (xi, v, maxit)
  end.

Definition modified_secant_body (f : evaluator) (x0 delta tol : float) (k : Z)
    (xi : float) : M (flow float returned) :=
  let perturb := if negb (x0 =? 0) then x0 * delta else delta in
  f_pert <- call f (xi + perturb) ;;
  f_xi <- call f xi ;;
  let denom := f_pert - f_xi in
  if denom =? 0 then
    raise (Exn ZeroDivisionError "Denominator zero in Modified Secant.")
  else
    f_xi' <- call f xi ;;
    q <- truediv (f_xi' * perturb) denom ;;
    let x_next := xi - q in
    let err := abs (x_next - xi) in
    shown <- call f x_next ;;
    print (Row (mkRecord k x_next shown err (Delta delta))) ;;
    small <- (if err <? tol then ret true
              else (v <- call f x_next ;; ret (abs v <? tol))) ;;
    if (small : bool) then (v <- call f x_next ;; ret (Return (x_next, v, k)))
    else ret (Next x_next).

Definition modified_secant (f : evaluator) (x0 delta tol : float) (maxit : Z)
    : M returned :=
  print_iter_header ;;
  fl <- for_range 1 (maxit + 1) (modified_secant_body f x0 delta tol) x0 ;;
  match fl with
  | Return r => ret r
  | Next xi => v <- call f xi ;; ret (xi, v, maxit)
  end.

End CLI.

(** ** app.py *)

Module Web.

Definition returned : Type := (list IterationRecord * float * float * Z)%type.

(** The loop variables together with the list [iters]. *)
Definition with_iters (S : Type) : Type := (list IterationRecord * S)%type.

Definition bisection_list_body (f : evaluator) (tol : float) (k : Z)
    (st : with_iters bracket) : M (flow (with_iters bracket) returned) :=
  let '(iters, mkBracket a b fa fb _ _) := st in
  let c := (a + b) / 2 in
  fc <- call f c ;;
  let err := abs (b - a) / 2 in
  let iters := iters ++ [mkRecord k c fc err (Interval a b)] in
  if (abs fc =? 0) || (err <? tol) then ret (Return (iters, c, fc, k))
  else if fa * fc <? 0 then
    ret (Next (iters, mkBracket a c fa fc (Some c) (Some fc)))
  else ret (Next (iters, mkBracket c b fc fb (Some c) (Some fc))).

Definition bisection_list (f : evaluator) (a b tol : float) (maxit : Z)
    : M returned :=
  fa <- call f a ;;
  fb <- call f b ;;
  if 0 <? fa * fb then
    raise (Exn ValueError "f(a) and f(b) must have opposite signs for bisection.")
  else
    fl <- for_range 1 (maxit + 1) (bisection_list_body f tol)
            ([], mkBracket a b fa fb None None) ;;
    match fl with
    | Return r => ret r
    | Next (iters, s) =>
        c <- local "c" (br_c s) ;;
        fc <- local "fc" (br_fc s) ;;
        ret (iters, c, fc, maxit)
    end.

Definition regula_falsi_list_body (f : evaluator) (tol : float) (k : Z)
    (st : with_iters bracket) : M (flow (with_iters bracket) returned) :=
  let '(iters, mkBracket a b fa fb _ _) := st in
  c <- truediv (a * fb - b * fa) (fb - fa) ;;
  fc <- call f c ;;
  let err := abs fc in
  let iters := iters ++ [mkRecord k c fc err (Interval a b)] in
  if abs fc <? tol then ret (Return (iters, c, fc, k))
  else if fa * fc <? 0 then
    ret (Next (iters, mkBracket a c fa fc (Some c) (Some fc)))
  else ret (Next (iters, mkBracket c b fc fb (Some c) (Some fc))).

Definition regula_falsi_list (f : evaluator) (a b tol : float) (maxit : Z)
    : M returned :=
  fa <- call f a ;;
  fb <- call f b ;;
  if 0 <? fa * fb then
    raise (Exn ValueError "f(a) and f(b) must have opposite signs for Regula Falsi.")
  else
    fl <- for_range 1 (maxit + 1) (regula_falsi_list_body f tol)
            ([], mkBracket a b fa fb None None) ;;
    match fl with
    | Return r => ret r
    | Next (iters, s) =>
        c <- local "c" (br_c s) ;;
        fc <- local "fc" (br_fc s) ;;
        ret (iters, c, fc, maxit)
    end.

Definition secant_list_body (f : evaluator) (tol : float) (k : Z)
    (st : with_iters window) : M (flow (with_iters window) returned) :=
  let '(iters, mkWindow x0 x1 f0 f1 _ _) := st in
  if f1 - f0 =? 0 then
    raise (Exn ZeroDivisionError "Division by zero in Secant method.")
  else
    q <- truediv (f1 * (x1 - x0)) (f1 - f0) ;;
    let x2 := x1 - q in
    let err := abs (x2 - x1) in
    fx2 <- call f x2 ;;
    let iters := iters ++ [mkRecord k x2 fx2 err (Points x0 x1)] in
    if (err <? tol) || (abs fx2 <? tol) then ret (Return (iters, x2, fx2, k))
    else ret (Next (iters, mkWindow x1 x2 f1 fx2 (Some x2) (Some fx2))).

Definition secant_list (f : evaluator) (x0 x1 tol : float) (maxit : Z)
    : M returned :=
  f0 <- call f x0 ;;
  f1 <- call f x1 ;;
  fl <- for_range 1 (maxit + 1) (secant_list_body f tol)
          ([], mkWindow x0 x1 f0 f1 None None) ;;
  match fl with
  | Return r => ret r
  | Next (iters, s) =>
      x2 <- local "x2" (w_x2 s) ;;
      fx2 <- local "fx2" (w_fx2 s) ;;
      ret (iters, x2, fx2, maxit)
  end.

Definition newton_list_body (f df : evaluator) (tol : float) (k : Z)
    (st : with_iters float) : M (flow (with_iters float) returned) :=
  let '(iters, xi) := st in
  fxi <- call f xi ;;
  dfxi <- call df xi ;;
  if dfxi =? 0 then
    raise (Exn ZeroDivisionError "Zero derivative in Newton.")
  else
    q <- truediv fxi dfxi ;;
    let x_next := xi - q in
    let err := abs (x_next - xi) in
    shown <- call f x_next ;;
    let iters := iters ++ [mkRecord k x_next shown err (Derivative dfxi)] in
    small <- (if err <? tol then ret true
              else (v <- call f x_next ;; ret (abs v <? tol))) ;;
    if (small : bool) then
      (v <- call f x_next ;; ret (Return (iters, x_next, v, k)))
    else ret (Next (iters, x_next)).

Definition newton_list (f df : evaluator) (x0 tol : float) (maxit : Z)
    : M returned :=
  fl <- for_range 1 (maxit + 1) (newton_list_body f df tol) ([], x0) ;;
  match fl with
  | Return r => ret r
  | Next (iters, xi) => v <- call f xi ;; ret (iters, xi, v, maxit)
  end.

Definition fixed_point_list_body (g : evaluator) (tol : float) (k : Z)
    (st : with_iters float) : M (flow (with_iters float) returned) :=
  let '(iters, xi) := st in
  x_next <- call g xi ;;
  let err := abs (x_next - xi) in
  shown <- call g x_next ;;
  let iters := iters ++ [mkRecord k x_next shown err GUsed] in
  if err <? tol then
    (v <- call g x_next ;; ret (Return (iters, x_next, v, k)))
  else ret (Next (iters, x_next)).

Definition fixed_point_list (g : evaluator) (x0 tol : float) (maxit : Z)
    : M returned :=
  fl <- for_range 1 (maxit + 1) (fixed_point_list_body g tol) ([], x0) ;;
  match fl with
  | Return r => ret r
  | Next (iters, xi) => v <- call g xi ;; ret (iters, xi, v, maxit)
  end.

Definition modified_secant_list_body (f : evaluator) (x0 delta tol : float)
    (k : Z) (st : with_iters float) : M (flow (with_iters float) returned) :=
  let '(iters, xi) := st in
  let perturb := if negb (x0 =? 0) then x0 * delta else delta in
  f_pert <- call f (xi + perturb) ;;
  f_xi <- call f xi ;;
  let denom := f_pert - f_xi in
  if denom =? 0 then
    raise (Exn ZeroDivisionError "Denominator zero in Modified Secant.")
  else
    f_xi' <- call f xi ;;
    q <- truediv (f_xi' * perturb) denom ;;
    let x_next := xi - q in
    let err := abs (x_next - xi) in
    shown <- call f x_next ;;
    let iters := iters ++ [mkRecord k x_next shown err (Delta delta)] in
    small <- (if err <? tol then ret true
              else (v <- call f x_next ;; ret (abs v <? tol))) ;;
    if (small : bool) then
      (v <- call f x_next ;; ret (Return (iters, x_next, v, k)))
    else ret (Next (iters, x_next)).

Definition modified_secant_list (f : evaluator) (x0 delta tol : float)
    (maxit : Z) : M returned :=
  fl <- for_range 1 (maxit + 1) (modified_secant_list_body f x0 delta tol)
          ([], x0) ;;
  match fl with
  | Return r => ret r
  | Next (iters, xi) => v <- call f xi ;; ret (iters, xi, v, maxit)
  end.

End Web.

(** ** The six methods as [main] and [index] dispatch them *)

Inductive method : Type :=
| Bisection (f : evaluator) (a b : float)
| RegulaFalsi (f : evaluator) (a b : float)
| Secant (f : evaluator) (x0 x1 : float)
| NewtonRaphson (f df : evaluator) (x0 : float)
| FixedPoint (g : evaluator) (x0 : float)
| ModifiedSecant (f : evaluator) (x0 delta : float).

(** [root, froot, iterations = ...] in [main], with what was printed. *)
Definition run_cli (m : method) (tol : float) (maxit : Z)
    : list line * result CLI.returned :=
  match m with
  | Bisection f a b => CLI.bisection f a b tol maxit []
  | RegulaFalsi f a b => CLI.regula_falsi f a b tol maxit []
  | Secant f x0 x1 => CLI.secant f x0 x1 tol maxit []
  | NewtonRaphson f df x0 => CLI.newton_raphson f df x0 tol maxit []
  | FixedPoint g x0 => CLI.fixed_point g x0 tol maxit []
  | ModifiedSecant f x0 delta => CLI.modified_secant f x0 delta tol maxit []
  end.

(** [iters, root, froot, its = ...] in [index]. *)
Definition run_web (m : method) (tol : float) (maxit : Z)
    : list line * result Web.returned :=
    match m with
    | Bisection f a b => Web.bisection_list f a b tol maxit []
    | RegulaFalsi f a b => Web.regula_falsi_list f a b tol maxit []
    | Secant f x0 x1 => Web.secant_list f x0 x1 tol maxit []
    | NewtonRaphson f df x0 => Web.newton_list f df x0 tol maxit []
    | FixedPoint g x0 => Web.fixed_point_list g x0 tol maxit []
    | ModifiedSecant f x0 delta => Web.modified_secant_list f x0 delta tol maxit []
    end.

(** The records among the printed lines. *)
Fixpoint rows (out : list line) : list IterationRecord :=
  match out with
  | [] => []
  | Row r :: out' => r :: rows out'
  | _ :: out' => rows out'
  end.

(** ** The result of a run, whichever front end made it *)

Record RunResult : Type := mkResult {
  root_estimate : float;
  function_value_at_root : float;
  iterations_used : Z;
  trace : list IterationRecord
}.

Inductive frontend : Type :=
| CommandLine
| WebApp.

(** A run seen from outside: what was printed and either the exception or
    the returned values, the steps being the printed rows ([ZOF_CLI.py]) or
    the returned list ([app.py]). *)
Definition run (v : frontend) (m : method) (tol : float) (maxit : Z)
    : list line * result RunResult :=
  match v with
  | CommandLine =>
      match run_cli m tol maxit with
      | (out, Ok (x, fx, its)) => (out, Ok (mkResult x fx its (rows out)))
      | (out, Raise e) => (out, Raise e)
      end
  | WebApp =>
      match run_web m tol maxit with
      | (out, Ok (iters, x, fx, its)) => (out, Ok (mkResult x fx its iters))
      | (out, Raise e) => (out, Raise e)
      end
  end.

(** The convergence test of each method, on the values of a step. *)
Definition converged (m : method) (tol : float) (r : IterationRecord) : bool :=
  match m with
  | Bisection _ _ _ =>
      (abs (function_value r) =? 0) || (error_metric r <? tol)
  | RegulaFalsi _ _ _ => abs (function_value r) <? tol
  | Secant _ _ _ | NewtonRaphson _ _ _ | ModifiedSecant _ _ _ =>
      (error_metric r <? tol) || (abs (function_value r) <? tol)
  | FixedPoint _ _ => error_metric r <? tol
  end.

(** [k, k+1, ..., k+n-1]. *)
Fixpoint zrange (k : Z) (n : nat) : list Z :=
  match n with
  | O => []
  | Datatypes.S n' => k :: zrange (Z.succ k) n'
  end.

(** ** A method as prologue, loop body and epilogue

    Every one of the twelve functions has the same shape: statements before
    the loop, [for k in range(1, maxit+1)], and the [return] after it. *)

Record scheme (Res : Type) : Type := mkScheme {
  St : Type;
  prologue : M St;
  body : Z -> St -> M (flow St Res);
  epilogue : St -> M Res;
  steps : list line -> St -> list IterationRecord;
  last_estimate : St -> option float;
  finish : list line -> Res -> RunResult
}.

Definition run_scheme {Res} (sc : scheme Res) (maxit : Z)
    : list line * result RunResult :=
  match
    (s0 <- prologue sc ;;
     fl <- for_range 1 (maxit + 1) (body sc) s0 ;;
     match fl with
     | Return r => ret r
     | Next s => epilogue sc s
     end) []
  with
  | (out, Ok x) => (out, Ok (finish sc out x))
  | (out, Raise e) => (out, Raise e)
  end.

(** How the loop of a run ended. *)
Inductive loop_end : Type :=
| FellThrough (last : option float)
| EarlyReturn.

Definition loop_outcome {Res} (sc : scheme Res) (maxit : Z)
    : list line * result loop_end :=
  match prologue sc [] with
  | (out0, Raise e) => (out0, Raise e)
  | (out0, Ok s0) =>
      match for_range 1 (maxit + 1) (body sc) s0 out0 with
      | (out, Ok (Next s)) => (out, Ok (FellThrough (last_estimate sc s)))
      | (out, Ok (Return _)) => (out, Ok EarlyReturn)
      | (out, Raise e) => (out, Raise e)
      end
  end.

Definition cli_finish (out : list line) (r : CLI.returned) : RunResult :=
  let '(x, fx, its) := r in mkResult x fx its (rows out).

Definition web_finish (_ : list line) (r : Web.returned) : RunResult :=
  let '(iters, x, fx, its) := r in mkResult x fx its iters.

Definition bracket_epilogue (maxit : Z) (s : bracket) : M CLI.returned :=
  c <- local "c" (br_c s) ;;
  fc <- local "fc" (br_fc s) ;;
  ret (c, fc, maxit).

Definition window_epilogue (maxit : Z) (s : window) : M CLI.returned :=
  x2 <- local "x2" (w_x2 s) ;;
  fx2 <- local "fx2" (w_fx2 s) ;;
  ret (x2, fx2, maxit).

Definition point_epilogue (f : evaluator) (maxit : Z) (xi : float) : M CLI.returned :=
  v <- call f xi ;; ret (xi, v, maxit).

Definition with_list {S} (e : S -> M CLI.returned) (st : Web.with_iters S)
    : M Web.returned :=
  let '(iters, s) := st in
  r <- e s ;;
  let '(x, fx, its) := r in ret (iters, x, fx, its).

Definition cli_scheme (m : method) (tol : float) (maxit : Z)
    : scheme CLI.returned :=
  match m with
  | Bisection f a b =>
      mkScheme
        (fa <- call f a ;;
         fb <- call f b ;;
         if is_nan fa || is_nan fb then
           raise (Exn ValueError "Function returned NaN on interval endpoints.")
         else if 0 <? fa * fb then
           raise (Exn ValueError "f(a) and f(b) must have opposite signs for bisection.")
         else CLI.print_iter_header ;; ret (mkBracket a b fa fb (Some a) None))
        (CLI.bisection_body f tol) (bracket_epilogue maxit)
        (fun out _ => rows out) br_c cli_finish
  | RegulaFalsi f a b =>
      mkScheme
        (fa <- call f a ;;
         fb <- call f b ;;
         if 0 <? fa * fb then
           raise (Exn ValueError "f(a) and f(b) must have opposite signs for Regula Falsi.")
         else CLI.print_iter_header ;; ret (mkBracket a b fa fb (Some a) None))
        (CLI.regula_falsi_body f tol) (bracket_epilogue maxit)
        (fun out _ => rows out) br_c cli_finish
  | Secant f x0 x1 =>
      mkScheme
        (CLI.print_iter_header ;;
         f0 <- call f x0 ;;
         f1 <- call f x1 ;;
         ret (mkWindow x0 x1 f0 f1 None None))
        (CLI.secant_body f tol) (window_epilogue maxit)
        (fun out _ => rows out) w_x2 cli_finish
  | NewtonRaphson f df x0 =>
      mkScheme (CLI.print_iter_header ;; ret x0)
        (CLI.newton_raphson_body f df tol) (point_epilogue f maxit)
        (fun out _ => rows out) Some cli_finish
  | FixedPoint g x0 =>
      mkScheme (CLI.print_iter_header ;; ret x0)
        (CLI.fixed_point_body g tol) (point_epilogue g maxit)
        (fun out _ => rows out) Some cli_finish
  | ModifiedSecant f x0 delta =>
      mkScheme (CLI.print_iter_header ;; ret x0)
        (CLI.modified_secant_body f x0 delta tol) (point_epilogue f maxit)
        (fun out _ => rows out) Some cli_finish
  end.

Definition web_scheme (m : method) (tol : float) (maxit : Z)
    : scheme Web.returned :=
  match m with
  | Bisection f a b =>
      mkScheme
        (fa <- call f a ;;
         fb <- call f b ;;
         if 0 <? fa * fb then
           raise (Exn ValueError "f(a) and f(b) must have opposite signs for bisection.")
         else ret ([], mkBracket a b fa fb None None))
        (Web.bisection_list_body f tol) (with_list (bracket_epilogue maxit))
        (fun _ st => fst st) (fun st => br_c (snd st)) web_finish
  | RegulaFalsi f a b =>
      mkScheme
        (fa <- call f a ;;
         fb <- call f b ;;
         if 0 <? fa * fb then
           raise (Exn ValueError "f(a) and f(b) must have opposite signs for Regula Falsi.")
         else ret ([], mkBracket a b fa fb None None))
        (Web.regula_falsi_list_body f tol) (with_list (bracket_epilogue maxit))
        (fun _ st => fst st) (fun st => br_c (snd st)) web_finish
  | Secant f x0 x1 =>
      mkScheme
        (f0 <- call f x0 ;;
         f1 <- call f x1 ;;
         ret ([], mkWindow x0 x1 f0 f1 None None))
        (Web.secant_list_body f tol) (with_list (window_epilogue maxit))
        (fun _ st => fst st) (fun st => w_x2 (snd st)) web_finish
  | NewtonRaphson f df x0 =>
      mkScheme (ret ([], x0))
        (Web.newton_list_body f df tol) (with_list (point_epilogue f maxit))
        (fun _ st => fst st) (fun st => Some (snd st)) web_finish
  | FixedPoint g x0 =>
      mkScheme (ret ([], x0))
        (Web.fixed_point_list_body g tol) (with_list (point_epilogue g maxit))
        (fun _ st => fst st) (fun st => Some (snd st)) web_finish
  | ModifiedSecant f x0 delta =>
      mkScheme (ret ([], x0))
        (Web.modified_secant_list_body f x0 delta tol)
        (with_list (point_epilogue f maxit))
        (fun _ st => fst st) (fun st => Some (snd st)) web_finish
  end.

(** What a method returns in each front end. *)
Definition returned_of (v : frontend) : Type :=
  match v with
  | CommandLine => CLI.returned
  | WebApp => Web.returned
  end.

Definition scheme_of (v : frontend)
    : method -> float -> Z -> scheme (returned_of v) :=
  match v return method -> float -> Z -> scheme (returned_of v) with
  | CommandLine => cli_scheme
  | WebApp => web_scheme
  end.

(** ** What every method keeps, pass after pass *)

Record scheme_ok {Res} (sc : scheme Res) (conv : IterationRecord -> bool)
    (maxit : Z) : Prop := mkSchemeOk {
  prologue_ok :
    forall out s0,
      prologue sc [] = (out, Ok s0) -> steps sc out s0 = [];
  body_ok :
    forall k s out out' fl,
      body sc k s out = (out', Ok fl) ->
      exists r,
        index r = k /\
        match fl with
        | Next s' =>
            steps sc out' s' = (steps sc out s ++ [r])%list /\
            last_estimate sc s' = Some (estimate r) /\
            conv r = false
        | Return x =>
            trace (finish sc out' x) = (steps sc out s ++ [r])%list /\
            root_estimate (finish sc out' x) = estimate r /\
            iterations_used (finish sc out' x) = k /\
            conv r = true
        end;
  epilogue_ok :
    forall s out out' x,
      epilogue sc s out = (out', Ok x) ->
      trace (finish sc out' x) = steps sc out s /\
      last_estimate sc s = Some (root_estimate (finish sc out' x)) /\
      iterations_used (finish sc out' x) = maxit
}.

(** The steps made before pass [k]: numbered from 1, the last of them not
    converged and its estimate held by the loop variables. *)
Definition steps_inv {Res} (sc : scheme Res) (conv : IterationRecord -> bool)
    (k : Z) (out : list line) (s : St sc) : Prop :=
  (1 <= k)%Z /\
  map index (steps sc out s) = zrange 1 (Z.to_nat (k - 1)) /\
  (k = 1%Z \/
   exists init r,
     (steps sc out s = init ++ [r])%list /\
     last_estimate sc s = Some (estimate r) /\ conv r = false).

(** The steps of a run that returns from pass [k]. *)
Definition steps_post {Res} (sc : scheme Res) (conv : IterationRecord -> bool)
    (k : Z) (out : list line) (x : Res) : Prop :=
  (1 <= k)%Z /\
  map index (trace (finish sc out x)) = zrange 1 (Z.to_nat k) /\
  exists init r,
    (trace (finish sc out x) = init ++ [r])%list /\
    index r = k /\
    root_estimate (finish sc out x) = estimate r /\
    iterations_used (finish sc out x) = k /\
    conv r = true.

(** What a run that returns has done: its steps are numbered from 1 to
    [iterations_used], and unless no pass was made the last step carries
    the returned estimate; a last step that did not converge is step
    [maxit]. *)
Definition run_post (conv : IterationRecord -> bool) (maxit : Z)
    (res : RunResult) : Prop :=
  map index (trace res) = zrange 1 (Z.to_nat (iterations_used res)) /\
  ((maxit < 1)%Z /\ trace res = [] /\ iterations_used res = maxit \/
   exists init r,
     (trace res = init ++ [r])%list /\
     estimate r = root_estimate res /\
     index r = iterations_used res /\
     (1 <= iterations_used res <= maxit)%Z /\
     (conv r = false -> iterations_used res = maxit)).

(** ** Sample evaluators *)

(** [f(x) = x]. *)
Definition f_identity : evaluator := fun x => Ok x.

(** [f(x) = x*x - 2]. *)
Definition f_square_minus_two : evaluator := fun x => Ok (x * x - 2).

(** [f(x) = 2*x]. *)
Definition f_double : evaluator := fun x => Ok (2 * x).

(** [f(x) = sqrt(x)], NaN left of zero. *)
Definition f_sqrt : evaluator := fun x => Ok (sqrt x).

(** [f(x) = 1e308*x], which overflows to infinity from [x = 2] on; the
    constant is the binary64 number that [1e308] denotes. *)
Definition f_scaled : evaluator := fun x => Ok (0x1.1ccf385ebc8ap+1023 * x).

(** [g(x) = 1/x - 1], which raises at [x = 0]. *)
Definition g_reciprocal_minus_one : evaluator :=
  fun x =>
    if x =? 0 then Raise (Exn ZeroDivisionError "float division by zero")
    else Ok (1 / x - 1).

(** ** The errors the methods raise *)

(** The error of the secant method on a zero denominator. *)
Definition secant_error : exn :=
  Exn ZeroDivisionError "Division by zero in Secant method.".

(** The error of the modified secant method on a zero denominator. *)
Definition modified_secant_error : exn :=
  Exn ZeroDivisionError "Denominator zero in Modified Secant.".

(** The error of Newton-Raphson on a zero derivative, in each front end. *)
Definition zero_derivative_error (v : frontend) : exn :=
  match v with
  | CommandLine =>
      Exn ZeroDivisionError "Zero derivative encountered in Newton-Raphson."
  | WebApp => Exn ZeroDivisionError "Zero derivative in Newton."
  end.

(** ** Bracket and steps *)

(** [f(a)*f(b) <= 0] on the loop variables. *)
Definition sign_change (s : bracket) : bool := br_fa s * br_fb s <=? 0.

(** The perturbation of the modified secant method, from the seed. *)
Definition perturbation (x0 delta : float) : float :=
  if x0 =? 0 then delta else x0 * delta.

(** One step from [xi] with perturbation [p]: both values of [f] are there,
    the denominator is not zero, and
    [x_next = xi - f(xi)*p / (f(xi+p) - f(xi))]. *)
Definition secant_step_from (f : evaluator) (p xi x_next : float) : Prop :=
  exists fp fx,
    f (xi + p) = Ok fp /\ f xi = Ok fx /\ (fp - fx =? 0) = false /\
    x_next = xi - fx * p / (fp - fx).

(** Every element of [l] is one [step] from the element before it, the
    first from [prev]. *)
Fixpoint chained (step : float -> float -> Prop) (prev : float)
    (l : list float) : Prop :=
  match l with
  | [] => True
  | x :: l' => step prev x /\ chained step x l'
  end.

(** The loop variable [xi] is the last estimate recorded, or the seed, and
    the estimates are chained by the step with the perturbation of the
    seed. *)
Definition modified_secant_inv (v : frontend) (f : evaluator)
    (x0 delta tol : float) (maxit : Z) (k : Z) (out : list line)
    (s : St (scheme_of v (ModifiedSecant f x0 delta) tol maxit)) : Prop :=
  let sc := scheme_of v (ModifiedSecant f x0 delta) tol maxit in
  chained (secant_step_from f (perturbation x0 delta)) x0
    (map estimate (steps sc out s)) /\
  last_estimate sc s = Some (last (map estimate (steps sc out s)) x0).

(** What a run of the modified secant method that returns has recorded. *)
Definition modified_secant_post (v : frontend) (f : evaluator)
    (x0 delta tol : float) (maxit : Z) (k : Z) (out : list line)
    (r : returned_of v) : Prop :=
  let sc := scheme_of v (ModifiedSecant f x0 delta) tol maxit in
  chained (secant_step_from f (perturbation x0 delta)) x0
    (map estimate (trace (finish sc out r))) /\
  (v = CommandLine -> trace (finish sc out r) = rows out).

(** The least exponent of binary64. *)
Definition emin64 : Z := SpecFloat.emin prec emax.

(** Infinity, on the specification of floats. *)
Definition SFis_infinity (x : spec_float) : bool :=
  match x with
  | S754_infinity _ => true
  | _ => false
  end.

(** ** The two front ends side by side *)

(** Same returned values, or failures of the same kind. *)
Definition outcomes_agree (c w : list line * result RunResult) : Prop :=
  match snd c, snd w with
  | Ok r1, Ok r2 => r1 = r2
  | Raise e1, Raise e2 => exn_kind e1 = exn_kind e2
  | _, _ => False
  end.

(** The inputs on which the two versions of a method are the same
    algorithm: [bisection_list] lacks the NaN test of [bisection], and
    [fixed_point_list] the guard of [fixed_point]. *)
Definition comparable (m : method) : Prop :=
  match m with
  | Bisection f a b =>
      forall fa fb, f a = Ok fa -> f b = Ok fb -> is_nan fa || is_nan fb = false
  | FixedPoint g _ => forall x e, g x <> Raise e
  | _ => True
  end.

(** The bracket variables of the two versions: the same, but for [c], which
    only [ZOF_CLI.py] assigns before the loop. *)
Definition bracket_sim (s1 s2 : bracket) : Prop :=
  br_a s1 = br_a s2 /\ br_b s1 = br_b s2 /\
  br_fa s1 = br_fa s2 /\ br_fb s1 = br_fb s2 /\
  br_fc s1 = br_fc s2 /\
  (br_fc s1 = None /\ br_c s2 = None \/ br_fc s1 <> None /\ br_c s1 = br_c s2).

Definition state_sim (m : method) (tol : float) (maxit : Z)
    : list line -> St (cli_scheme m tol maxit) -> St (web_scheme m tol maxit) ->
      Prop :=
  match m as m0
    return list line -> St (cli_scheme m0 tol maxit) ->
           St (web_scheme m0 tol maxit) -> Prop
  with
  | Bisection _ _ _ | RegulaFalsi _ _ _ =>
      fun out s1 st2 => rows out = fst st2 /\ bracket_sim s1 (snd st2)
  | Secant _ _ _ => fun out s1 st2 => rows out = fst st2 /\ s1 = snd st2
  | NewtonRaphson _ _ _ | FixedPoint _ _ | ModifiedSecant _ _ _ =>
      fun out s1 st2 => rows out = fst st2 /\ s1 = snd st2
  end.

Definition result_sim (out : list line) (r1 : CLI.returned) (r2 : Web.returned)
    : Prop :=
  cli_finish out r1 = web_finish [] r2.

(** Outcomes of two passes, or of two loops, in step: the variables stay
    related by [RS] and [app.py] prints nothing. *)
Definition in_step {S1 S2} (RS : list line -> S1 -> S2 -> Prop)
    (x1 : list line * result (flow S1 CLI.returned))
    (x2 : list line * result (flow S2 Web.returned)) : Prop :=
  match x1, x2 with
  | (o1, Ok (Next s1)), (o2, Ok (Next s2)) => o2 = [] /\ RS o1 s1 s2
  | (o1, Ok (Return r1)), (o2, Ok (Return r2)) => result_sim o1 r1 r2
  | (_, Raise e1), (_, Raise e2) => exn_kind e1 = exn_kind e2
  | _, _ => False
  end.

(** ** Notions used in the further properties *)

(** The evaluator whose value a method records with each estimate: [f], or
    [g] for the fixed-point iteration. *)
Definition recorded_evaluator (m : method) : evaluator :=
  match m with
  | Bisection f _ _ | RegulaFalsi f _ _ | Secant f _ _
  | NewtonRaphson f _ _ | ModifiedSecant f _ _ => f
  | FixedPoint g _ => g
  end.

(** The step does not meet the convergence test. *)
Definition not_converged (m : method) (tol : float) (r : IterationRecord)
    : Prop :=
  converged m tol r = false.

(** [fx] is what a method records or returns as the value at [x]: the value
    of the evaluator there, or, in the fixed-point iteration of
    [ZOF_CLI.py] only, NaN where the evaluator raises. *)
Definition value_recorded (v : frontend) (m : method) (x fx : float) : Prop :=
  recorded_evaluator m x = Ok fx \/
  (v = CommandLine /\ (exists g x0, m = FixedPoint g x0) /\
   fx = nan /\ exists e, recorded_evaluator m x = Raise e).

Definition step_value_recorded (v : frontend) (m : method)
    (r : IterationRecord) : Prop :=
  value_recorded v m (estimate r) (function_value r).

Definition answer_value_recorded (v : frontend) (m : method)
    (res : RunResult) : Prop :=
  value_recorded v m (root_estimate res) (function_value_at_root res).

(** Between two passes: the values recorded so far are right, and so is
    the answer that the [return] after the loop would give. *)
Definition values_inv (v : frontend) (m : method) (tol : float) (maxit : Z)
    (out : list line) (s : St (scheme_of v m tol maxit)) : Prop :=
  let sc := scheme_of v m tol maxit in
  Forall (step_value_recorded v m) (steps sc out s) /\
  forall o o' x,
    epilogue sc s o = (o', Ok x) -> answer_value_recorded v m (finish sc o' x).

Definition values_post (v : frontend) (m : method) (tol : float) (maxit : Z)
    (out : list line) (x : returned_of v) : Prop :=
  let sc := scheme_of v m tol maxit in
  Forall (step_value_recorded v m) (trace (finish sc out x)) /\
  answer_value_recorded v m (finish sc out x).

(** The seed that a method without bracket or window iterates from. *)
Definition seed (m : method) : option float :=
  match m with
  | NewtonRaphson _ _ x0 | FixedPoint _ x0 | ModifiedSecant _ x0 _ => Some x0
  | Bisection _ _ _ | RegulaFalsi _ _ _ | Secant _ _ _ => None
  end.

(** ** The recurrence of each method *)

(** The variables a pass works from: the bracket with the cached values at
    its endpoints, the window with the cached values at its points, or the
    current point. *)
Inductive vars : Type :=
| BracketVars (a b fa fb : float)
| WindowVars (x0 x1 f0 f1 : float)
| PointVars (xi : float).

Definition cli_vars (m : method) (tol : float) (maxit : Z)
    : St (cli_scheme m tol maxit) -> vars :=
  match m as m0 return St (cli_scheme m0 tol maxit) -> vars with
  | Bisection _ _ _ | RegulaFalsi _ _ _ =>
      fun s => BracketVars (br_a s) (br_b s) (br_fa s) (br_fb s)
  | Secant _ _ _ => fun s => WindowVars (w_x0 s) (w_x1 s) (w_f0 s) (w_f1 s)
  | NewtonRaphson _ _ _ | FixedPoint _ _ | ModifiedSecant _ _ _ =>
      fun xi => PointVars xi
  end.

Definition web_vars (m : method) (tol : float) (maxit : Z)
    : St (web_scheme m tol maxit) -> vars :=
  match m as m0 return St (web_scheme m0 tol maxit) -> vars with
  | Bisection _ _ _ | RegulaFalsi _ _ _ =>
      fun st =>
        let s := snd st in BracketVars (br_a s) (br_b s) (br_fa s) (br_fb s)
  | Secant _ _ _ =>
      fun st =>
        let s := snd st in WindowVars (w_x0 s) (w_x1 s) (w_f0 s) (w_f1 s)
  | NewtonRaphson _ _ _ | FixedPoint _ _ | ModifiedSecant _ _ _ =>
      fun st => PointVars (snd st)
  end.

Definition vars_of (v : frontend) (m : method) (tol : float) (maxit : Z)
    : St (scheme_of v m tol maxit) -> vars :=
  match v return St (scheme_of v m tol maxit) -> vars with
  | CommandLine => cli_vars m tol maxit
  | WebApp => web_vars m tol maxit
  end.

(** The variables at the first pass: the inputs, with the values of [f]
    that the statements before the loop cached. *)
Definition starts (m : method) (w : vars) : Prop :=
  match m with
  | Bisection f a b | RegulaFalsi f a b =>
      exists fa fb, f a = Ok fa /\ f b = Ok fb /\ w = BracketVars a b fa fb
  | Secant f x0 x1 =>
      exists f0 f1, f x0 = Ok f0 /\ f x1 = Ok f1 /\ w = WindowVars x0 x1 f0 f1
  | NewtonRaphson _ _ x0 | FixedPoint _ x0 | ModifiedSecant _ x0 _ =>
      w = PointVars x0
  end.

(** The record [r] is what one pass of the method computes from the
    variables [w]; the cached values are those of [f] at the endpoints or
    points they stand for.  A denominator that the source tests before it
    divides is not zero; Regula Falsi divides without a test, and nothing
    is said of its denominator. *)
Definition step_from (m : method) (w : vars) (r : IterationRecord) : Prop :=
  match m, w with
  | Bisection f _ _, BracketVars a b fa fb =>
      f a = Ok fa /\ f b = Ok fb /\
      estimate r = (a + b) / 2 /\
      f (estimate r) = Ok (function_value r) /\
      error_metric r = abs (b - a) / 2 /\
      context r = Interval a b
  | RegulaFalsi f _ _, BracketVars a b fa fb =>
      f a = Ok fa /\ f b = Ok fb /\
      estimate r = (a * fb - b * fa) / (fb - fa) /\
      f (estimate r) = Ok (function_value r) /\
      error_metric r = abs (function_value r) /\
      context r = Interval a b
  | Secant f _ _, WindowVars x0 x1 f0 f1 =>
      f x0 = Ok f0 /\ f x1 = Ok f1 /\
      (f1 - f0 =? 0) = false /\
      estimate r = x1 - f1 * (x1 - x0) / (f1 - f0) /\
      f (estimate r) = Ok (function_value r) /\
      error_metric r = abs (estimate r - x1) /\
      context r = Points x0 x1
  | NewtonRaphson f df _, PointVars xi =>
      exists fxi dfxi,
        f xi = Ok fxi /\ df xi = Ok dfxi /\ (dfxi =? 0) = false /\
        estimate r = xi - fxi / dfxi /\
        f (estimate r) = Ok (function_value r) /\
        error_metric r = abs (estimate r - xi) /\
        context r = Derivative dfxi
  | FixedPoint g _, PointVars xi =>
      g xi = Ok (estimate r) /\
      error_metric r = abs (estimate r - xi) /\
      context r = GUsed
  | ModifiedSecant f x0 delta, PointVars xi =>
      secant_step_from f (perturbation x0 delta) xi (estimate r) /\
      f (estimate r) = Ok (function_value r) /\
      error_metric r = abs (estimate r - xi) /\
      context r = Delta delta
  | _, _ => False
  end.

(** The variables of the next pass, after a pass that recorded [r] and did
    not return: the endpoint replaced is chosen by the sign of
    [fa * f(c)], the window slides, the point moves to the estimate. *)
Definition vars_next (w : vars) (r : IterationRecord) : vars :=
  match w with
  | BracketVars a b fa fb =>
      if fa * function_value r <? 0
      then BracketVars a (estimate r) fa (function_value r)
      else BracketVars (estimate r) b (function_value r) fb
  | WindowVars _ x1 _ f1 => WindowVars x1 (estimate r) f1 (function_value r)
  | PointVars _ => PointVars (estimate r)
  end.

(** The records [l] are the successive passes of the method from [w]. *)
Fixpoint trace_from (m : method) (w : vars) (l : list IterationRecord)
    : Prop :=
  match l with
  | [] => True
  | r :: l' => step_from m w r /\ trace_from m (vars_next w r) l'
  end.

(** The cached values are those of [f] where they stand for it. *)
Definition coherent (m : method) (w : vars) : Prop :=
  match m, w with
  | Bisection f _ _, BracketVars a b fa fb
  | RegulaFalsi f _ _, BracketVars a b fa fb => f a = Ok fa /\ f b = Ok fb
  | Secant f _ _, WindowVars x0 x1 f0 f1 => f x0 = Ok f0 /\ f x1 = Ok f1
  | _, _ => True
  end.

(** The loop variables are those that the recorded steps lead to. *)
Definition recurrence_inv (v : frontend) (m : method) (tol : float)
    (maxit : Z) (out : list line) (s : St (scheme_of v m tol maxit)) : Prop :=
  let sc := scheme_of v m tol maxit in
  exists w0,
    starts m w0 /\ trace_from m w0 (steps sc out s) /\
    vars_of v m tol maxit s = fold_left vars_next (steps sc out s) w0 /\
    coherent m (vars_of v m tol maxit s).

Definition recurrence_post (v : frontend) (m : method) (tol : float)
    (maxit : Z) (out : list line) (x : returned_of v) : Prop :=
  let sc := scheme_of v m tol maxit in
  exists w0, starts m w0 /\ trace_from m w0 (trace (finish sc out x)).

(** ** What is printed *)

(** The header, its rule, and one row for each record. *)
Definition table (rs : list IterationRecord) : list line :=
  HeaderLine :: RuleLine :: map Row rs.

(** The output so far is the table of some records. *)
Definition is_table (out : list line) : Prop := exists rs, out = table rs.

(** The methods that test their inputs before they print the header. *)
Definition tests_bracket (m : method) : bool :=
  match m with
  | Bisection _ _ _ | RegulaFalsi _ _ _ => true
  | _ => false
  end.

(** ** A tolerance that is not positive *)

(** NaN, or a number that is not negative, on the specification of
    floats. *)
Definition SFnot_negative (x : spec_float) : bool :=
  match x with
  | S754_nan => true
  | S754_zero s | S754_infinity s | S754_finite s _ _ => negb s
  end.

(** The run went on to the end of its budget. *)
Definition used_budget (maxit : Z) (res : RunResult) : Prop :=
  iterations_used res = maxit.

(** Bisection stopped on a value of [f] that is exactly zero. *)
Definition bisection_hit_zero (m : method) (res : RunResult) : Prop :=
  (exists f a b, m = Bisection f a b) /\
  (abs (function_value_at_root res) =? 0) = true.

(** ** The failures of a run *)

(** The evaluators a method calls. *)
Definition evaluators (m : method) : list evaluator :=
  match m with
  | Bisection f _ _ | RegulaFalsi f _ _ | Secant f _ _
  | ModifiedSecant f _ _ => [f]
  | NewtonRaphson f df _ => [f; df]
  | FixedPoint g _ => [g]
  end.

(** The exception is one that an evaluator of the method raised. *)
Definition raised_by_evaluator (m : method) (e : exn) : Prop :=
  exists g x, In g (evaluators m) /\ g x = Raise e.

(** ** What the callers take from Python and SymPy

    [main] and [index] turn text into expressions, functions and numbers
    with [sympify], [lambdify], [diff], [str.strip], [float] and [int].
    These are not part of the programs: they are the fields of a [host],
    and every property below holds whatever they do.  [sympify] and
    [float] are also applied to [None], the value of a missing form
    field. *)
Record host : Type := mkHost {
  Expr : Type;
  sympify : option string -> result Expr;
  lambdify : Expr -> result evaluator;
  diff : Expr -> result Expr;
  strip : string -> string;
  float_of : option string -> result float;
  int_of : string -> result Z
}.

(** [int(x)] on a float: the integer part, and an error on NaN and on the
    infinities. *)
Definition int_of_float (x : float) : result Z :=
  match Prim2SF x with
  | S754_nan => Raise (Exn ValueError "cannot convert float NaN to integer")
  | S754_infinity _ =>
      Raise (Exn (OtherException "OverflowError")
               "cannot convert float infinity to integer")
  | S754_zero _ => Ok 0%Z
  | S754_finite s m e => Ok (cond_Zopp s (Z.shiftl (Zpos m) e))
  end.

(** The decimal literals of the sources, as the floats they denote. *)
Definition default_tolerance : float := 0x1.5798ee2308c3ap-27.

Definition default_delta : float := 0x1.0624dd2f1a9fcp-10.

Definition default_maxit : Z := 50.

(** ** The console of [ZOF_CLI.py] *)

(** What appears on the terminal: printed text, the prompt of an [input],
    [print(what, e)] for an exception, a line printed by a method, and the
    three formatted lines of the final result. *)
Inductive console : Type :=
| Say (s : string)
| Ask (prompt : string)
| SayError (what : string) (e : exn)
| Shown (l : line)
| SayRoot (root : float)
| SayValue (froot : float)
| SayCount (iterations : Z).

(** The lines still to be read from standard input, up to its end, and
    what was written so far. *)
Record world : Type := mkWorld {
  stdin : list string;
  stdout : list console
}.

Definition IO (A : Type) : Type := world -> world * result A.

Definition io_ret {A} (a : A) : IO A := fun w => (w, Ok a).

Definition io_bind {A B} (c : IO A) (k : A -> IO B) : IO B :=
  fun w =>
    match c w with
    | (w', Ok a) => k a w'
    | (w', Raise e) => (w', Raise e)
    end.

Declare Scope io_scope.

Delimit Scope io_scope with io.

Notation "x <- c1 ;; c2" := (io_bind c1 (fun x => c2))
  (at level 61, c1 at next level, right associativity) : io_scope.

Notation "c1 ;; c2" := (io_bind c1 (fun _ => c2))
  (at level 61, right associativity) : io_scope.

(** The outcome of a call of the host. *)
Definition lift {A} (r : result A) : IO A := fun w => (w, r).

(** [try: c except Exception as e: handler e]. *)
Definition io_try {A} (c : IO A) (handler : exn -> IO A) : IO A :=
  fun w =>
    match c w with
    | (w', Ok a) => (w', Ok a)
    | (w', Raise e) => handler e w'
    end.

Definition say (c : console) : IO unit :=
  fun w => (mkWorld (stdin w) (stdout w ++ [c]), Ok tt).

Definition eof_error : exn :=
  Exn (OtherException "EOFError") "EOF when reading a line".

(** [input(prompt)]: writes the prompt, then takes the next line or raises
    at the end of the input. *)
Definition input (prompt : string) : IO string :=
  fun w =>
    match stdin w with
    | [] => (mkWorld [] (stdout w ++ [Ask prompt]), Raise eof_error)
    | l :: rest => (mkWorld rest (stdout w ++ [Ask prompt]), Ok l)
    end.

(** A method called from [main]: its lines go to the terminal. *)
Definition call_method (m : method) (tol : float) (maxit : Z)
    : IO CLI.returned :=
  fun w =>
    let '(out, r) := run_cli m tol maxit in
    (mkWorld (stdin w) (stdout w ++ map Shown out), r).

Definition newline : string := String (Ascii.ascii_of_nat 10) EmptyString.

Module Script.

Section Host.

Variable h : host.

Local Open Scope io_scope.

Local Open Scope string_scope.

(** [parse_function]: [None] stands for the pair [(None, None)]. *)
Definition parse_function (expr_str : string)
    : IO (option (Expr h * evaluator)) :=
  io_try
    (expr <- lift (sympify h (Some expr_str)) ;;
     f <- lift (lambdify h expr) ;;
     io_ret (Some (expr, f)))
    (fun e => say (SayError "Error parsing function:" e) ;; io_ret None).

(** [get_float]: the loop goes round once for each line it reads. *)
Fixpoint get_float_loop (prompt : string) (default : option float)
    (lines : list string) (out : list console) : world * result float :=
  match lines with
  | [] => (mkWorld [] (out ++ [Ask prompt])%list, Raise eof_error)
  | l :: rest =>
      let s := strip h l in
      let out := (out ++ [Ask prompt])%list in
      match (if s =? "" then default else None) with
      | Some d => (mkWorld rest out, Ok d)
      | None =>
          match float_of h (Some s) with
          | Ok x => (mkWorld rest out, Ok x)
          | Raise _ =>
              get_float_loop prompt default rest
                (out ++ [Say "Enter a valid number."])%list
          end
      end
  end.

Definition get_float (prompt : string) (default : option float) : IO float :=
  fun w => get_float_loop prompt default (stdin w) (stdout w).

(** The body of the [try] of [main]; [None] when it leaves [main] by a
    [return]. *)
Definition dispatch (f df : evaluator) (choice : Z) (tol : float)
    (maxit : Z) : IO (option CLI.returned) :=
  if (choice =? 1)%Z then
    a <- get_float "a = " None ;;
    b <- get_float "b = " None ;;
    r <- call_method (Bisection f a b) tol maxit ;;
    io_ret (Some r)
  else if (choice =? 2)%Z then
    a <- get_float "a = " None ;;
    b <- get_float "b = " None ;;
    r <- call_method (RegulaFalsi f a b) tol maxit ;;
    io_ret (Some r)
  else if (choice =? 3)%Z then
    x0 <- get_float "x0 = " None ;;
    x1 <- get_float "x1 = " None ;;
    r <- call_method (Secant f x0 x1) tol maxit ;;
    io_ret (Some r)
  else if (choice =? 4)%Z then
    x0 <- get_float "initial x0 = " None ;;
    r <- call_method (NewtonRaphson f df x0) tol maxit ;;
    io_ret (Some r)
  else if (choice =? 5)%Z then
    say (Say "Enter g(x) for Fixed Point iteration (x_{n+1} = g(x_n)).") ;;
    g_str <- input "g(x) = " ;;
    parsed <- parse_function (strip h g_str) ;;
    match parsed with
    | None => io_ret None
    | Some (_, g_func) =>
        x0 <- get_float "initial x0 = " None ;;
        r <- call_method (FixedPoint g_func x0) tol maxit ;;
        io_ret (Some r)
    end
  else if (choice =? 6)%Z then
    x0 <- get_float "initial x0 = " None ;;
    delta <- get_float "delta (perturbation fraction, e.g. 1e-3): "
               (Some default_delta) ;;
    r <- call_method (ModifiedSecant f x0 delta) tol maxit ;;
    io_ret (Some r)
  else
    say (Say "Invalid choice.") ;; io_ret None.

Definition main : IO unit :=
  say (Say "ZOF_CLI - Zero of Functions Solver") ;;
  say (Say "Enter function in variable x (example: x**3 - 2*x - 5). Use Python syntax.") ;;
  func_str <- input "f(x) = " ;;
  parsed <- parse_function (strip h func_str) ;;
  match parsed with
  | None => io_ret tt
  | Some (expr, f) =>
      df_expr <- lift (diff h expr) ;;
      df <- lift (lambdify h df_expr) ;;
      say (Say (newline ++ "Choose method:")) ;;
      say (Say "1) Bisection") ;;
      say (Say "2) Regula Falsi (False Position)") ;;
      say (Say "3) Secant") ;;
      say (Say "4) Newton-Raphson") ;;
      say (Say "5) Fixed Point Iteration (requires g(x))") ;;
      say (Say "6) Modified Secant") ;;
      choice <- input "Choice (1-6): " ;;
      match int_of h (strip h choice) with
      | Raise _ => say (Say "Invalid choice.")
      | Ok choice =>
          tol <- get_float "Tolerance (default 1e-8): "
                   (Some default_tolerance) ;;
          maxit_given <- get_float "Max iterations (default 50): "
                           (Some 50%float) ;;
          maxit <- lift (int_of_float maxit_given) ;;
          tried <- io_try (dispatch f df choice tol maxit)
                     (fun e => say (SayError "Method failed:" e) ;;
                               io_ret None) ;;
          match tried with
          | None => io_ret tt
          | Some (root, froot, iterations) =>
              say (Say (newline ++ "Final result:")) ;;
              say (SayRoot root) ;;
              say (SayValue froot) ;;
              say (SayCount iterations)
          end
      end
  end.

End Host.

End Script.

(** ** The request handler of [app.py] *)

Definition res_bind {A B} (r : result A) (k : A -> result B) : result B :=
  match r with
  | Ok a => k a
  | Raise e => Raise e
  end.

Declare Scope res_scope.

Delimit Scope res_scope with res.

Notation "x <- c1 ;; c2" := (res_bind c1 (fun x => c2))
  (at level 61, c1 at next level, right associativity) : res_scope.

Module Flask.

(** [request.method] and [request.form], the fields in the order they were
    sent. *)
Record request : Type := mkRequest {
  http_method : string;
  form : list (string * string)
}.

(** The dictionary [result] given to the template. *)
Record shown : Type := mkShown {
  shown_iters : list IterationRecord;
  shown_root : float;
  shown_froot : float;
  shown_its : Z;
  shown_function : option string;
  shown_method : option string
}.

(** The arguments of [render_template]. *)
Record page : Type := mkPage {
  page_result : option shown;
  page_error : option string
}.

(** [request.form.get(key)]: the first value sent for the key, or [None]. *)
Fixpoint form_get (fields : list (string * string)) (key : string)
    : option string :=
  match fields with
  | [] => None
  | (k, v) :: rest => if (k =? key)%string then Some v else form_get rest key
  end.

(** The left operand of [v or default] when it is taken: a string that is
    not empty. *)
Definition truthy (v : option string) : option string :=
  match v with
  | Some s => if (s =? "")%string then None else Some s
  | None => None
  end.

(** [method == name], where [method] may be [None]. *)
Definition is_method (method : option string) (name : string) : bool :=
  match method with
  | Some s => (s =? name)%string
  | None => false
  end.

Section Host.

Variable h : host.

Local Open Scope res_scope.

Local Open Scope string_scope.

Definition parse_function (expr_str : option string)
    : result (Expr h * evaluator) :=
  expr <- sympify h expr_str ;;
  f <- lambdify h expr ;;
  Ok (expr, f).

(** A method called from [index]; the functions of [app.py] print
    nothing. *)
Definition call_list (m : method) (tol : float) (maxit : Z)
    : result Web.returned :=
  snd (run_web m tol maxit).

(** The body of the [try] of [index]. *)
Definition solve (req : request) (func_str method : option string)
    (tol : float) (maxit : Z) : result shown :=
  parsed <- parse_function func_str ;;
  let '(expr, f) := parsed in
  r <- (if is_method method "bisection" || is_method method "regulafalsi"
        then
          a <- float_of h (form_get (form req) "a") ;;
          b <- float_of h (form_get (form req) "b") ;;
          if is_method method "bisection"
          then call_list (Bisection f a b) tol maxit
          else call_list (RegulaFalsi f a b) tol maxit
        else if is_method method "secant" then
          x0 <- float_of h (form_get (form req) "x0") ;;
          x1 <- float_of h (form_get (form req) "x1") ;;
          call_list (Secant f x0 x1) tol maxit
        else if is_method method "newton" then
          x0 <- float_of h (form_get (form req) "x0") ;;
          df_expr <- diff h expr ;;
          df <- lambdify h df_expr ;;
          call_list (NewtonRaphson f df x0) tol maxit
        else if is_method method "fixed" then
          let g_str := form_get (form req) "gfunction" in
          parsed_g <- parse_function g_str ;;
          let '(g_expr, g) := parsed_g in
          x0 <- float_of h (form_get (form req) "x0") ;;
          call_list (FixedPoint g x0) tol maxit
        else if is_method method "modified_secant" then
          x0 <- float_of h (form_get (form req) "x0") ;;
          delta <- match truthy (form_get (form req) "delta") with
                   | Some s => float_of h (Some s)
                   | None => Ok default_delta
                   end ;;
          call_list (ModifiedSecant f x0 delta) tol maxit
        else Raise (Exn ValueError "Unknown method")) ;;
  let '(iters, root, froot, its) := r in
  Ok (mkShown iters root froot its func_str method).

(** [render_template('index.html', result=..., error=...)]: the page it
    makes of its arguments, or the exception it raises. *)
Variable Html : Type.

Variable render_template : page -> result Html.

(** [index]: the rendered page, or the exception that leaves it. *)
Definition index (req : request) : result Html :=
  if http_method req =? "POST" then
    let func_str := form_get (form req) "function" in
    let method := form_get (form req) "method" in
    tol <- match truthy (form_get (form req) "tolerance") with
           | Some s => float_of h (Some s)
           | None => Ok default_tolerance
           end ;;
    maxit <- match truthy (form_get (form req) "maxit") with
             | Some s => int_of h s
             | None => Ok default_maxit
             end ;;
    render_template
      match solve req func_str method tol maxit with
      | Ok r => mkPage (Some r) None
      | Raise e => mkPage None (Some (exn_msg e))
      end
  else render_template (mkPage None None).

End Host.

End Flask.

(** ** Notions used in the properties of the callers *)

(** What [get_float] makes of a line: the default on a blank line when
    there is one, the number the line reads as, or nothing. *)
Definition accepted (h : host) (default : option float) (l : string)
    : option float :=
  let s := strip h l in
  match (if (s =? "")%string then default else None) with
  | Some d => Some d
  | None =>
      match float_of h (Some s) with
      | Ok x => Some x
      | Raise _ => None
      end
  end.

(** The prompt and the complaint, once for each line refused. *)
Definition complaints (prompt : string) (refused : list string)
    : list console :=
  flat_map (fun _ => [Ask prompt; Say "Enter a valid number."]) refused.

(** The last lines of [main] after a method returned. *)
Definition final_result (r : CLI.returned) : list console :=
  let '(root, froot, iterations) := r in
  [Say (newline ++ "Final result:"); SayRoot root; SayValue froot;
   SayCount iterations].

(** The number that [get_float] makes of the lines to come - the first
    one that it accepts - with the lines after it; nothing when the input
    ends first. *)
Fixpoint next_number (h : host) (default : option float)
    (lines : list string) : option (float * list string) :=
  match lines with
  | [] => None
  | l :: rest =>
      match accepted h default l with
      | Some x => Some (x, rest)
      | None => next_number h default rest
      end
  end.

(** The method that the lines after the iterations stand for, for the
    choice made, with the lines after them: two numbers for Bisection,
    Regula Falsi and Secant, one for Newton-Raphson, the text of [g] and
    a number for the fixed-point iteration, a number and the perturbation
    fraction (0.001 on a blank line) for Modified Secant. *)
Definition chosen_method (h : host) (f df : evaluator) (choice : Z)
    (lines : list string) : option (method * list string) :=
  let number := next_number h None in
  let two (make : float -> float -> method) :=
    match number lines with
    | Some (a, l1) =>
        match number l1 with
        | Some (b, l2) => Some (make a b, l2)
        | None => None
        end
    | None => None
    end in
  if (choice =? 1)%Z then two (Bisection f)
  else if (choice =? 2)%Z then two (RegulaFalsi f)
  else if (choice =? 3)%Z then two (Secant f)
  else if (choice =? 4)%Z then
    match number lines with
    | Some (x0, l1) => Some (NewtonRaphson f df x0, l1)
    | None => None
    end
  else if (choice =? 5)%Z then
    match lines with
    | [] => None
    | g_str :: l1 =>
        match sympify h (Some (strip h g_str)) with
        | Ok g_expr =>
            match lambdify h g_expr, number l1 with
            | Ok g, Some (x0, l2) => Some (FixedPoint g x0, l2)
            | _, _ => None
            end
        | Raise _ => None
        end
    end
  else if (choice =? 6)%Z then
    match number lines with
    | Some (x0, l1) =>
        match next_number h (Some default_delta) l1 with
        | Some (delta, l2) => Some (ModifiedSecant f x0 delta, l2)
        | None => None
        end
    | None => None
    end
  else None.

(** What a whole input stands for: the function on the first line and its
    derivative, the choice on the second, then the tolerance ([1e-8] on a
    blank line), the iterations (50 on a blank line, the integer part of
    the number otherwise) and the arguments of the method; with the lines
    that are left.  Nothing when the input does not get as far as the call
    of a method. *)
Definition session (h : host) (lines : list string)
    : option (method * float * Z * list string) :=
  match lines with
  | func_str :: choice :: l0 =>
      match sympify h (Some (strip h func_str)) with
      | Ok expr =>
          match lambdify h expr, diff h expr with
          | Ok f, Ok df_expr =>
              match lambdify h df_expr, int_of h (strip h choice) with
              | Ok df, Ok n =>
                  match next_number h (Some default_tolerance) l0 with
                  | Some (tol, l1) =>
                      match next_number h (Some 50) l1 with
                      | Some (given, l2) =>
                          match int_of_float given with
                          | Ok maxit =>
                              match chosen_method h f df n l2 with
                              | Some (m, l3) => Some (m, tol, maxit, l3)
                              | None => None
                              end
                          | Raise _ => None
                          end
                      | None => None
                      end
                  | None => None
                  end
              | _, _ => None
              end
          | _, _ => None
          end
      | Raise _ => None
      end
  | _ => None
  end.

(** What [main] prints after the lines of a method. *)
Definition report (r : result CLI.returned) : list console :=
  match r with
  | Ok x => final_result x
  | Raise e => [SayError "Method failed:" e]
  end.

(** The name of a method in the form of [app.py]. *)
Definition method_name (m : method) : string :=
  match m with
  | Bisection _ _ _ => "bisection"
  | RegulaFalsi _ _ _ => "regulafalsi"
  | Secant _ _ _ => "secant"
  | NewtonRaphson _ _ _ => "newton"
  | FixedPoint _ _ => "fixed"
  | ModifiedSecant _ _ _ => "modified_secant"
  end.

(** The value of a form field that stands for a number, when the field is
    optional: the default when it is missing or empty. *)
Definition field_or (h : host) (fields : list (string * string))
    (key : string) (default : float) : result float :=
  match Flask.truthy (Flask.form_get fields key) with
  | Some s => float_of h (Some s)
  | None => Ok default
  end.

(** The same for a field that stands for an integer. *)
Definition count_or (h : host) (fields : list (string * string))
    (key : string) (default : Z) : result Z :=
  match Flask.truthy (Flask.form_get fields key) with
  | Some s => int_of h s
  | None => Ok default
  end.

(** The text is read as an expression whose function is [f]. *)
Definition parsed (h : host) (text : option string) (f : evaluator) : Prop :=
  exists expr, sympify h text = Ok expr /\ lambdify h expr = Ok f.

(** The form asks for the method [m]: its name is in the field [method],
    its function is the field [function] parsed (the field [gfunction]
    for the fixed-point iteration, the derivative of [function] for
    Newton-Raphson), and its numbers are the fields read as floats. *)
Definition asks_for (h : host) (fields : list (string * string))
    (m : method) : Prop :=
  let get := Flask.form_get fields in
  get "method"%string = Some (method_name m) /\
  match m with
  | Bisection f a b | RegulaFalsi f a b =>
      parsed h (get "function"%string) f /\
      float_of h (get "a"%string) = Ok a /\
      float_of h (get "b"%string) = Ok b
  | Secant f x0 x1 =>
      parsed h (get "function"%string) f /\
      float_of h (get "x0"%string) = Ok x0 /\
      float_of h (get "x1"%string) = Ok x1
  | NewtonRaphson f df x0 =>
      (exists expr df_expr,
         sympify h (get "function"%string) = Ok expr /\
         lambdify h expr = Ok f /\
         diff h expr = Ok df_expr /\ lambdify h df_expr = Ok df) /\
      float_of h (get "x0"%string) = Ok x0
  | FixedPoint g x0 =>
      (exists f, parsed h (get "function"%string) f) /\
      parsed h (get "gfunction"%string) g /\
      float_of h (get "x0"%string) = Ok x0
  | ModifiedSecant f x0 delta =>
      parsed h (get "function"%string) f /\
      float_of h (get "x0"%string) = Ok x0 /\
      field_or h fields "delta" default_delta = Ok delta
  end.


(** The exception was raised before the [try] of [index]: by [float] on a
    tolerance field or by [int] on an iterations field, the field being
    there and not empty. *)
Definition refused_before_try (h : host) (fields : list (string * string))
    (e : exn) : Prop :=
  (exists s,
     Flask.truthy (Flask.form_get fields "tolerance") = Some s /\
     float_of h (Some s) = Raise e) \/
  (exists s,
     Flask.truthy (Flask.form_get fields "maxit") = Some s /\
     int_of h s = Raise e).

(** What [index] shows of a run that returned. *)
Definition shown_of (fields : list (string * string)) (res : RunResult)
    : Flask.shown :=
  Flask.mkShown (trace res) (root_estimate res) (function_value_at_root res)
    (iterations_used res) (Flask.form_get fields "function")
    (Flask.form_get fields "method").

(** ** A sample host

    A host that reads a few expressions and numerals, for the examples. *)
Inductive sample_expr : Type :=
| SampleX
| SampleSquareMinusTwo
| SampleDouble
| SampleConst (c : float).

Definition sample_sympify (s : option string) : result sample_expr :=
  match s with
  | Some t =>
      if (t =? "x")%string then Ok SampleX
      else if (t =? "x**2 - 2")%string then Ok SampleSquareMinusTwo
      else if (t =? "2*x")%string then Ok SampleDouble
      else Raise (Exn (OtherException "SympifyError") "could not parse")
  | None => Raise (Exn (OtherException "SympifyError") "could not parse")
  end.

Definition sample_lambdify (e : sample_expr) : result evaluator :=
  Ok match e with
     | SampleX => f_identity
     | SampleSquareMinusTwo => f_square_minus_two
     | SampleDouble => f_double
     | SampleConst c => fun _ => Ok c
     end.

Definition sample_diff (e : sample_expr) : result sample_expr :=
  Ok match e with
     | SampleX => SampleConst 1
     | SampleSquareMinusTwo => SampleDouble
     | SampleDouble => SampleConst 2
     | SampleConst _ => SampleConst 0
     end.

Definition sample_float_of (s : option string) : result float :=
  match s with
  | Some t =>
      if (t =? "1")%string then Ok 1
      else if (t =? "2")%string then Ok 2
      else if (t =? "0.25")%string then Ok 0.25
      else if (t =? "nan")%string then Ok nan
      else Raise (Exn ValueError "could not convert string to float")
  | None =>
      Raise (Exn (OtherException "TypeError")
               "float() argument must be a string or a real number")
  end.

Definition sample_int_of (s : string) : result Z :=
  if (s =? "1")%string then Ok 1%Z
  else if (s =? "3")%string then Ok 3%Z
  else if (s =? "4")%string then Ok 4%Z
  else if (s =? "7")%string then Ok 7%Z
  else Raise (Exn ValueError "invalid literal for int() with base 10").

Definition sample_host : host :=
  mkHost sample_sympify sample_lambdify sample_diff (fun s => s)
    sample_float_of sample_int_of.

(** * Properties *)

(** ** Basic facts *)

(** A comparison of a number with itself, NaN apart. *)
Lemma SFcompare_refl (x : spec_float) :
  x <> S754_nan -> SFcompare x x = Some Eq.
Proof.
  destruct x as [s|s| |s m e]; intro H; try congruence.
  - reflexivity.
  - destruct s; reflexivity.
  - simpl. destruct s; rewrite Z.compare_refl;
      fold (Pos.compare m m); rewrite Pos.compare_refl; reflexivity.
Qed.

(** A product that compares greater than zero has no NaN factor. *)
Lemma positive_product_not_nan (x y : float) :
  (0 <? x * y) = true -> is_nan x = false /\ is_nan y = false.
Proof.
  rewrite ltb_spec, mul_spec. unfold is_nan. rewrite !FloatAxioms.eqb_spec.
  unfold SF64mul, SFltb, SFeqb.
  destruct (Prim2SF x) as [s|s| |s m e] eqn:Ex;
    destruct (Prim2SF y) as [s'|s'| |s' m' e'] eqn:Ey;
    try (simpl; destruct (Prim2SF 0); simpl; discriminate);
    intros _; rewrite !SFcompare_refl by discriminate; auto.
Qed.

Lemma rows_app (o1 o2 : list line) : rows (o1 ++ o2) = rows o1 ++ rows o2.
Proof.
  induction o1 as [|l o1 IH]; simpl; [reflexivity|].
  destruct l; simpl; rewrite ?IH; reflexivity.
Qed.

Lemma zrange_snoc (k : Z) (n : nat) :
  zrange k (Datatypes.S n) = (zrange k n ++ [(k + Z.of_nat n)%Z])%list.
Proof.
  revert k; induction n as [|n IH]; intro k.
  - simpl. f_equal. f_equal. lia.
  - change (zrange k (Datatypes.S (Datatypes.S n)))
      with (k :: zrange (Z.succ k) (Datatypes.S n)).
    rewrite IH. simpl. do 3 f_equal. lia.
Qed.


(** Case analysis on the scrutinee of the innermost [match] of the goal. *)
Ltac case_inner :=
  match goal with
  | |- context [match ?x with _ => _ end] =>
      lazymatch x with
      | context [match _ with _ => _ end] => fail
      | _ => destruct x eqn:?
      end
  end.

Ltac unfold_monad :=
  unfold truediv, try_except, local in *;
  unfold bind, call, ret, raise, print in *.

(** The scheme of a method is the function of the source, cut in three. *)
Lemma run_is_scheme (v : frontend) (m : method) (tol : float) (maxit : Z) :
  run v m tol maxit = run_scheme (scheme_of v m tol maxit) maxit.
Proof.
  destruct v, m; unfold run, run_scheme, run_cli, run_web; simpl;
    unfold CLI.bisection, CLI.regula_falsi, CLI.secant, CLI.newton_raphson,
      CLI.fixed_point, CLI.modified_secant, Web.bisection_list,
      Web.regula_falsi_list, Web.secant_list, Web.newton_list,
      Web.fixed_point_list, Web.modified_secant_list,
      bracket_epilogue, window_epilogue, point_epilogue, with_list,
      CLI.print_iter_header, Web.with_iters, Web.returned, CLI.returned;
    unfold_monad; repeat (case_inner; simpl in * ); congruence.
Qed.

(** ** Reasoning on the loop *)

Section Loop.

Context {S R : Type} (body : Z -> S -> M (flow S R)).

(** An invariant of the loop variables and the output, kept by every pass
    that falls to the next one; [Q] is what a pass that returns
    establishes. *)
Variable I : Z -> list line -> S -> Prop.

Variable Q : Z -> list line -> R -> Prop.

Hypothesis pass :
  forall k s out out' fl,
    I k out s -> body k s out = (out', Ok fl) ->
    match fl with
    | Next s' => I (Z.succ k) out' s'
    | Return r => Q k out' r
    end.

Lemma for_loop_inv (n : nat) :
  forall k s out out' fl,
    I k out s -> for_loop n k body s out = (out', Ok fl) ->
    match fl with
    | Next s' => I (k + Z.of_nat n) out' s'
    | Return r => exists k', (k <= k' < k + Z.of_nat n)%Z /\ Q k' out' r
    end.
Proof.
  induction n as [|n IH]; intros k s out out' fl Hi Hrun.
  - simpl in Hrun. unfold ret in Hrun. inversion Hrun; subst.
    replace (k + Z.of_nat 0)%Z with k by lia. exact Hi.
  - simpl in Hrun. unfold bind in Hrun.
    destruct (body k s out) as [out1 [fl1|e]] eqn:Hb; [|discriminate].
    pose proof (pass Hi Hb) as Hp.
    destruct fl1 as [s1|r1].
    + specialize (IH _ _ _ _ _ Hp Hrun).
      destruct fl as [s'|r].
      * replace (k + Z.of_nat (Datatypes.S n))%Z
          with (Z.succ k + Z.of_nat n)%Z by lia. exact IH.
      * destruct IH as [k' [Hk HQ]]. exists k'. split; [lia|exact HQ].
    + unfold ret in Hrun. inversion Hrun; subst.
      exists k. split; [lia|exact Hp].
Qed.

(** A loop that raises does so in one of its passes, reached with the
    invariant. *)
Lemma for_loop_raise (n : nat) :
  forall k s out out' e,
    I k out s -> for_loop n k body s out = (out', Raise e) ->
    exists k' s' out0,
      (k <= k' < k + Z.of_nat n)%Z /\ I k' out0 s' /\
      body k' s' out0 = (out', Raise e).
Proof.
  induction n as [|n IH]; intros k s out out' e Hi Hrun.
  - simpl in Hrun. discriminate.
  - simpl in Hrun. unfold bind in Hrun.
    destruct (body k s out) as [out1 [fl1|e1]] eqn:Hb.
    + pose proof (pass Hi Hb) as Hp.
      destruct fl1 as [s1|r1]; [|discriminate].
      destruct (IH _ _ _ _ _ Hp Hrun) as (k' & s' & out0 & Hk & Hi' & Hb').
      exists k', s', out0. split; [lia|]. split; assumption.
    + inversion Hrun; subst. exists k, s, out. split; [lia|]. split; assumption.
Qed.

End Loop.

(** A loop of at least one pass that falls through leaves the variables as
    its last pass set them. *)
Lemma for_loop_last {S R} (body : Z -> S -> M (flow S R)) (n : nat) :
  forall k s out out' s',
    for_loop (Datatypes.S n) k body s out = (out', Ok (Next s')) ->
    exists k0 s0 out0, body k0 s0 out0 = (out', Ok (Next s')).
Proof.
  induction n as [|n IH]; intros k s out out' s' Hrun.
  - simpl in Hrun. unfold bind, ret in Hrun.
    destruct (body k s out) as [out1 [[s1|r1]|e]] eqn:Hb; try discriminate.
    inversion Hrun; subst. exists k, s, out. exact Hb.
  - change (for_loop (Datatypes.S (Datatypes.S n)) k body s out)
      with ((fl <- body k s ;;
             match fl with
             | Next s' => for_loop (Datatypes.S n) (Z.succ k) body s'
             | Return r => ret (Return r)
             end) out) in Hrun.
    unfold bind in Hrun.
    destruct (body k s out) as [out1 [[s1|r1]|e]] eqn:Hb; try discriminate.
    eapply IH. exact Hrun.
Qed.

(** ** What every method keeps, pass after pass *)

Lemma steps_pass {Res} (sc : scheme Res) (conv : IterationRecord -> bool)
    (maxit : Z) :
  scheme_ok sc conv maxit ->
  forall k s out out' fl,
    steps_inv sc conv k out s -> body sc k s out = (out', Ok fl) ->
    match fl with
    | Next s' => steps_inv sc conv (Z.succ k) out' s'
    | Return r => steps_post sc conv k out' r
    end.
Proof.
  intros Hok k s out out' fl (Hk & Hidx & _) Hb.
  destruct (body_ok Hok _ _ _ Hb) as (r & Hr & Hfl).
  assert (Hnext : zrange 1 (Z.to_nat k) =
                  (zrange 1 (Z.to_nat (k - 1)) ++ [k])%list).
  { replace (Z.to_nat k) with (Datatypes.S (Z.to_nat (k - 1))) by lia.
    rewrite zrange_snoc. do 2 f_equal. lia. }
  destruct fl as [s'|x].
  - destruct Hfl as (Ht & He & Hc).
    split; [lia|]. split.
    + rewrite Ht, map_app, Hidx. simpl. rewrite Hr.
      replace (Z.succ k - 1)%Z with k by lia. symmetry. exact Hnext.
    + right. eauto.
  - destruct Hfl as (Ht & He & Hi & Hc).
    split; [lia|]. split.
    + rewrite Ht, map_app, Hidx. simpl. rewrite Hr. symmetry. exact Hnext.
    + eauto 10.
Qed.

Lemma zrange_last (init : list IterationRecord) (r : IterationRecord) (n : nat) :
  map index (init ++ [r]) = zrange 1 n ->
  index r = Z.of_nat n /\ (1 <= n)%nat.
Proof.
  intro H. destruct n as [|n].
  - destruct init; discriminate.
  - rewrite zrange_snoc, map_app in H. cbn [map] in H.
    apply app_inj_tail in H. destruct H as [_ H]. split; lia.
Qed.

Ltac case_inner_in H :=
  match type of H with
  | context [match ?x with _ => _ end] =>
      lazymatch x with
      | context [match _ with _ => _ end] => fail
      | _ => destruct x eqn:?
      end
  end.

Ltac unfold_bodies :=
  unfold CLI.bisection_body, CLI.regula_falsi_body, CLI.secant_body,
    CLI.newton_raphson_body, CLI.fixed_point_body, CLI.modified_secant_body,
    Web.bisection_list_body, Web.regula_falsi_list_body, Web.secant_list_body,
    Web.newton_list_body, Web.fixed_point_list_body,
    Web.modified_secant_list_body, bracket_epilogue, window_epilogue,
    point_epilogue, with_list, CLI.print_iter_header in *.

(** Runs a statement of the source to its end, case by case. *)
Ltac run_in H :=
  unfold_bodies; unfold_monad;
  repeat (case_inner_in H; simpl in H; try discriminate H);
  inversion H; subst; clear H.

Ltac split_state :=
  repeat match goal with
    | p : (_ * _)%type |- _ => destruct p
    | p : bracket |- _ => destruct p
    | p : window |- _ => destruct p
    end.

Ltac use_tests :=
  repeat match goal with
    | H : _ = true |- _ => rewrite H
    | H : _ = false |- _ => rewrite H
    end;
  simpl; auto using orb_true_r.

Lemma scheme_of_ok (v : frontend) (m : method) (tol : float) (maxit : Z) :
  scheme_ok (scheme_of v m tol maxit) (converged m tol) maxit.
Proof.
  destruct v, m;
    (constructor;
     [ simpl; intros out s0 H; run_in H; simpl; rewrite ?rows_app; reflexivity
     | simpl; intros k s out out' fl H; split_state; simpl in *; run_in H;
       eexists (mkRecord _ _ _ _ _); (split; [reflexivity|]); simpl;
       rewrite ?rows_app; simpl;
       repeat split; try reflexivity; use_tests
     | simpl; intros s out out' x H; split_state; simpl in *; run_in H; simpl;
       auto ]).
Qed.

Lemma run_scheme_post {Res} (sc : scheme Res) (conv : IterationRecord -> bool)
    (maxit : Z) (out : list line) (res : RunResult) :
  scheme_ok sc conv maxit ->
  run_scheme sc maxit = (out, Ok res) ->
  run_post conv maxit res.
Proof.
  intros Hok Hrun. unfold run_scheme, bind, for_range in Hrun.
  destruct (prologue sc []) as [out0 [s0|e0]] eqn:Hpro; [|discriminate].
  set (n := Z.to_nat (maxit + 1 - 1)) in Hrun.
  destruct (for_loop n 1 (body sc) s0 out0) as [out1 [fl|e1]] eqn:Hloop;
    [|discriminate].
  assert (Hinit : steps_inv sc conv 1 out0 s0).
  { split; [lia|]. split; [|left; reflexivity].
    rewrite (prologue_ok Hok Hpro). reflexivity. }
  pose proof (@for_loop_inv _ _ (body sc) (steps_inv sc conv)
                (steps_post sc conv) (@steps_pass _ sc conv maxit Hok)
                n _ _ _ _ _ Hinit Hloop) as Hend.
  destruct fl as [s1|x].
  - destruct (epilogue sc s1 out1) as [out2 [x|e2]] eqn:Hepi; [|discriminate].
    inversion Hrun; subst out res; clear Hrun.
    destruct (epilogue_ok Hok _ _ Hepi) as (Ht & He & Hi).
    destruct Hend as (_ & Hidx & Hlast).
    rewrite <- Ht in Hidx.
    replace (1 + Z.of_nat n - 1)%Z with (Z.of_nat n) in Hidx by lia.
    rewrite Nat2Z.id in Hidx.
    destruct (Z_lt_le_dec maxit 1) as [Hsmall|Hbig].
    + assert (n = 0%nat) by (subst n; lia).
      split.
      * rewrite Hidx, Hi. f_equal. lia.
      * left. split; [exact Hsmall|]. split; [|exact Hi].
        rewrite H in Hidx. simpl in Hidx. eapply map_eq_nil. exact Hidx.
    + assert (Hn : Z.of_nat n = maxit) by (subst n; lia).
      split.
      * rewrite Hidx, Hi. f_equal. lia.
      * right. destruct Hlast as [Hk|(init & r & Hs & Hl & Hc)]; [lia|].
        exists init, r. rewrite Ht, Hi.
        rewrite Ht, Hs in Hidx. apply zrange_last in Hidx.
        rewrite Hl in He. injection He as He.
        repeat split; try assumption; try lia.
  - inversion Hrun; subst out res; clear Hrun.
    destruct Hend as (k & Hk & _ & Hidx & init & r & Ht & Hr & He & Hi & Hc).
    assert (Hn : Z.of_nat n = maxit) by (subst n; lia).
    split; [rewrite Hi; exact Hidx|].
    right. exists init, r. rewrite Hi.
    repeat split; try assumption; try lia; try congruence.
Qed.

Lemma run_post_holds (v : frontend) (m : method) (tol : float) (maxit : Z)
    (out : list line) (res : RunResult) :
  run v m tol maxit = (out, Ok res) ->
  run_post (converged m tol) maxit res.
Proof.
  rewrite run_is_scheme. apply run_scheme_post, scheme_of_ok.
Qed.

(** ** Returned values and recorded steps *)






(** ** Running out of iterations *)

(** After a pass that fell to the next one, the [return] that follows the
    loop succeeds.  The fixed-point iteration of [ZOF_CLI.py] evaluates [g]
    once more there, at a point where its guarded evaluation in the loop
    may have failed. *)
Lemma epilogue_returns (v : frontend) (m : method) (tol : float) (maxit k : Z)
    (s0 s : St (scheme_of v m tol maxit)) (out0 out : list line) :
  body (scheme_of v m tol maxit) k s0 out0 = (out, Ok (Next s)) ->
  (forall g x0 x,
     v = CommandLine -> m = FixedPoint g x0 ->
     last_estimate (scheme_of v m tol maxit) s = Some x ->
     exists y, g x = Ok y) ->
  exists r, epilogue (scheme_of v m tol maxit) s out = (out, Ok r).
Proof.
  destruct v, m; simpl in *; intros H Hg; split_state; simpl in *;
    try (destruct (Hg _ _ _ eq_refl eq_refl eq_refl) as [y Hy]; clear Hg);
    run_in H; simpl; rewrite ?Hy;
    try (eexists; reflexivity);
    repeat match goal with
      | E : ?f ?x = Ok _ |- context [?f ?x] => rewrite E
      end;
    try (eexists; reflexivity); try congruence.
Qed.

(** C3, as the code has it: with [maxit >= 1], a run that returns has used
    at most [maxit] iterations, and if its last step did not meet the
    convergence test of the method then it used exactly [maxit] and
    returns the estimate of that step; and a run whose loop made all its
    passes without returning does not raise but returns the last estimate
    with [iterations_used = maxit] - for the fixed-point iteration of
    [ZOF_CLI.py], when [g] can be evaluated at that estimate.  (A run that
    converges in pass [maxit] returns [maxit] as well.) *)
Theorem exhaustion_returns_last_estimate
    (v : frontend) (m : method) (tol : float) (maxit : Z) :
  (1 <= maxit)%Z ->
  (forall out res,
     run v m tol maxit = (out, Ok res) ->
     (iterations_used res <= maxit)%Z /\
     exists init r,
       (trace res = init ++ [r])%list /\
       estimate r = root_estimate res /\
       (converged m tol r = false -> iterations_used res = maxit)) /\
  (forall out last,
     loop_outcome (scheme_of v m tol maxit) maxit = (out, Ok (FellThrough last)) ->
     exists x,
       last = Some x /\
       ((forall g x0, v = CommandLine -> m = FixedPoint g x0 ->
                      exists y, g x = Ok y) ->
        exists fx recorded,
          run v m tol maxit = (out, Ok (mkResult x fx maxit recorded)))).
Proof.
  intro Hmax. split.
  - intros out res Hrun.
    destruct (run_post_holds _ _ _ _ Hrun) as [_ [(Hlt & _)|Hlast]]; [lia|].
    destruct Hlast as (init & r & Ht & He & _ & Hi & Hc).
    split; [lia|]. exists init, r. auto.
  - intros out last Hloop.
    pose proof (scheme_of_ok v m tol maxit) as Hok.
    rewrite run_is_scheme.
    set (sc := scheme_of v m tol maxit) in *.
    unfold loop_outcome, run_scheme, bind, for_range in *.
    destruct (prologue sc []) as [out0 [s0|e0]] eqn:Hpro; [|discriminate].
    assert (Hn : Z.to_nat (maxit + 1 - 1) = Datatypes.S (Z.to_nat (maxit - 1)))
      by lia.
    rewrite Hn in *.
    destruct (for_loop (Datatypes.S (Z.to_nat (maxit - 1))) 1 (body sc) s0 out0)
      as [out1 [[s|r]|e1]] eqn:Hrun; try discriminate.
    inversion Hloop; subst out1 last; clear Hloop.
    assert (Hinit : steps_inv sc (converged m tol) 1 out0 s0).
    { split; [lia|]. split; [|left; reflexivity].
      rewrite (prologue_ok Hok Hpro). reflexivity. }
    pose proof (@for_loop_inv _ _ (body sc) (steps_inv sc (converged m tol))
                  (steps_post sc (converged m tol))
                  (@steps_pass _ sc (converged m tol) maxit Hok)
                  _ _ _ _ _ _ Hinit Hrun) as (_ & _ & Hlast).
    destruct Hlast as [Hk|(init & r & _ & Hl & _)]; [lia|].
    exists (estimate r). split; [exact Hl|]. intro Hg.
    destruct (for_loop_last _ _ _ _ _ Hrun) as (k0 & sp & outp & Hb).
    destruct (@epilogue_returns v m tol maxit k0 sp s outp out Hb) as [x Hx].
    { intros g x0 x' -> -> Hx'. fold sc in Hx'. rewrite Hl in Hx'.
      injection Hx' as <-. apply (Hg g x0 eq_refl eq_refl). }
    fold sc in Hx. rewrite Hx.
    destruct (epilogue_ok Hok _ _ Hx) as (_ & He & Hi).
    rewrite Hl in He. injection He as He.
    destruct (finish sc out x) as [x' fx its tr]; simpl in *; subst.
    eauto.
Qed.

Lemma exhaustion_returns_last_estimate_witness :
  (1 <= 2)%Z /\
  (exists out res,
     run CommandLine (Bisection f_square_minus_two 1 2) 0.125 2 = (out, Ok res) /\
     (iterations_used res <= 2)%Z /\
     exists init r,
       (trace res = init ++ [r])%list /\
       estimate r = root_estimate res /\
       (converged (Bisection f_square_minus_two 1 2) 0.125 r = false ->
        iterations_used res = 2%Z)) /\
  (exists out last,
     loop_outcome (scheme_of CommandLine (Bisection f_square_minus_two 1 2) 0.125 2) 2
       = (out, Ok (FellThrough last)) /\
     exists x,
       last = Some x /\
       exists fx recorded,
         run CommandLine (Bisection f_square_minus_two 1 2) 0.125 2 =
           (out, Ok (mkResult x fx 2 recorded))).
Proof.
  split; [lia|].
  pose proof (@exhaustion_returns_last_estimate CommandLine
                (Bisection f_square_minus_two 1 2) 0.125 2 ltac:(lia))
    as [H1 H2].
  split.
  - eexists. eexists. split; [vm_compute; reflexivity|].
    eapply H1. reflexivity.
  - eexists. eexists. split; [vm_compute; reflexivity|].
    edestruct H2 as (x & Hx & Hret); [reflexivity|].
    exists x. split; [exact Hx|]. apply Hret. intros g x0 _ Hm. discriminate Hm.
Defined.

(** C3 as stated fails in two places.  A run that converges in pass
    [maxit] returns [iterations_used = maxit] like one that ran out of
    iterations, so the count does not tell them apart: bisection of
    [f(x) = x] on [[-1, 1]] with [maxit = 1] finds the root in its only
    pass.  And the fixed-point iteration of [ZOF_CLI.py] on
    [g(x) = 1/x - 1] from [x0 = 1] with [maxit = 1] makes its pass without
    converging, then raises in the [return] after the loop. *)
Lemma count_does_not_tell_exhaustion :
  (run CommandLine (Bisection f_identity (-1) 1) 0.125 1 =
     ([HeaderLine; RuleLine; Row (mkRecord 1 0 0 1 (Interval (-1) 1))],
      Ok (mkResult 0 0 1 [mkRecord 1 0 0 1 (Interval (-1) 1)])) /\
   converged (Bisection f_identity (-1) 1) 0.125
     (mkRecord 1 0 0 1 (Interval (-1) 1)) = true) /\
  (loop_outcome
     (scheme_of CommandLine (FixedPoint g_reciprocal_minus_one 1) 0.125 1) 1 =
     ([HeaderLine; RuleLine; Row (mkRecord 1 0 nan 1 GUsed)],
      Ok (FellThrough (Some 0))) /\
   converged (FixedPoint g_reciprocal_minus_one 1) 0.125
     (mkRecord 1 0 nan 1 GUsed) = false /\
   run CommandLine (FixedPoint g_reciprocal_minus_one 1) 0.125 1 =
     ([HeaderLine; RuleLine; Row (mkRecord 1 0 nan 1 GUsed)],
      Raise (Exn ZeroDivisionError "float division by zero"))).
Proof. repeat split; vm_compute; reflexivity. Qed.

(** ** The bracket test of bisection *)

(** In [ZOF_CLI.py] a NaN endpoint value and a product greater than zero
    are both refused before the header is printed: nothing is printed and
    no pass of the loop is made. *)
Lemma bisection_refuses_before_loop (f : evaluator) (a b tol : float)
    (maxit : Z) (fa fb : float) :
  f a = Ok fa -> f b = Ok fb ->
  ((is_nan fa || is_nan fb = true ->
    CLI.bisection f a b tol maxit [] =
      ([], Raise (Exn ValueError "Function returned NaN on interval endpoints."))) /\
   ((0 <? fa * fb) = true ->
    CLI.bisection f a b tol maxit [] =
      ([], Raise (Exn ValueError
                    "f(a) and f(b) must have opposite signs for bisection.")))).
Proof.
  intros Ha Hb. unfold CLI.bisection. unfold_monad. rewrite Ha, Hb. split.
  - intros ->. reflexivity.
  - intro Hpos. destruct (positive_product_not_nan Hpos) as [Hx Hy]; rewrite Hx, Hy.
    simpl. rewrite Hpos. reflexivity.
Qed.

(** In [app.py] the product test is there, with the same outcome. *)
Lemma bisection_list_refuses_same_sign (f : evaluator) (a b tol : float)
    (maxit : Z) (fa fb : float) :
  f a = Ok fa -> f b = Ok fb -> (0 <? fa * fb) = true ->
  Web.bisection_list f a b tol maxit [] =
    ([], Raise (Exn ValueError
                  "f(a) and f(b) must have opposite signs for bisection.")).
Proof.
  intros Ha Hb Hpos. unfold Web.bisection_list. unfold_monad.
  rewrite Ha, Hb, Hpos. reflexivity.
Qed.

(** C1 fails in [app.py]: [bisection_list] has no NaN test.  With
    [f(x) = sqrt(x)] on [[-1, 1]], [f(-1)] is NaN; [ZOF_CLI.py] refuses the
    bracket before the loop, [app.py] enters the loop, records a step and
    returns. *)
Theorem bisection_list_accepts_nan_endpoint :
  f_sqrt (-1) = Ok nan /\
  run CommandLine (Bisection f_sqrt (-1) 1) 0.125 3 =
    ([], Raise (Exn ValueError "Function returned NaN on interval endpoints.")) /\
  run WebApp (Bisection f_sqrt (-1) 1) 0.125 3 =
    ([], Ok (mkResult 0 0 1 [mkRecord 1 0 0 1 (Interval (-1) 1)])).
Proof. repeat split; vm_compute; reflexivity. Qed.

(** ** The bracket across updates *)

Lemma SFltb_SFleb (x y : spec_float) : SFltb x y = true -> SFleb x y = true.
Proof.
  unfold SFltb, SFleb. destruct (SFcompare x y) as [[ | | ]|]; congruence.
Qed.

(** Replacing [b] by [c] is done under [fa*fc < 0]: the bracket it leaves
    has a sign change. *)
Lemma sign_change_when_b_replaced (a c fa fc : float) (oc ofc : option float) :
  (fa * fc <? 0) = true -> sign_change (mkBracket a c fa fc oc ofc) = true.
Proof.
  unfold sign_change. simpl. rewrite ltb_spec, leb_spec. apply SFltb_SFleb.
Qed.

(** C2 fails when the left endpoint is a root: [fa*fc < 0] is then false
    whatever the sign of [fc], so [a] is replaced by [c] and the bracket
    may lose its sign change.  Bisection of [f(x) = x] on [[0, 2]]: the
    bracket at entry has [f(a)*f(b) = 0], after the first update it is
    [[1, 2]] with [f(a)*f(b) = 2 > 0], in both front ends; the run then
    moves to [b = 2] and away from the root at 0. *)
Theorem bisection_loses_bracket_at_zero_endpoint :
  sign_change (mkBracket 0 2 0 2 (Some 0) None) = true /\
  CLI.bisection_body f_identity 0.125 1 (mkBracket 0 2 0 2 (Some 0) None) [] =
    ([Row (mkRecord 1 1 1 1 (Interval 0 2))],
     Ok (Next (mkBracket 1 2 1 2 (Some 1) (Some 1)))) /\
  Web.bisection_list_body f_identity 0.125 1
    ([], mkBracket 0 2 0 2 None None) [] =
    ([], Ok (Next ([mkRecord 1 1 1 1 (Interval 0 2)],
                   mkBracket 1 2 1 2 (Some 1) (Some 1)))) /\
  sign_change (mkBracket 1 2 1 2 (Some 1) (Some 1)) = false /\
  run CommandLine (Bisection f_identity 0 2) 0.125 3 =
    ([HeaderLine; RuleLine;
      Row (mkRecord 1 1 1 1 (Interval 0 2));
      Row (mkRecord 2 1.5 1.5 0.5 (Interval 1 2));
      Row (mkRecord 3 1.75 1.75 0.25 (Interval 1.5 2))],
     Ok (mkResult 1.75 1.75 3
           [mkRecord 1 1 1 1 (Interval 0 2);
            mkRecord 2 1.5 1.5 0.5 (Interval 1 2);
            mkRecord 3 1.75 1.75 0.25 (Interval 1.5 2)])).
Proof. repeat split; vm_compute; reflexivity. Qed.

(** ** The guarded evaluation of the fixed-point iteration *)

(** In [ZOF_CLI.py] a pass whose evaluation of [g] at the next point raises
    prints NaN in its place and goes on to the convergence test. *)
Lemma fixed_point_guards_display (g : evaluator) (tol : float) (k : Z)
    (xi x_next : float) (e : exn) (out : list line) :
  g xi = Ok x_next -> g x_next = Raise e ->
  CLI.fixed_point_body g tol k xi out =
    ((out ++ [Row (mkRecord k x_next nan (abs (x_next - xi)) GUsed)])%list,
     Ok (if abs (x_next - xi) <? tol then Return (x_next, nan, k)
         else Next x_next)).
Proof.
  intros Hg He. unfold CLI.fixed_point_body. unfold_monad.
  rewrite Hg, He. destruct (abs (x_next - xi) <? tol); reflexivity.
Qed.

(** In [app.py] the same pass raises what [g] raised. *)
Lemma fixed_point_list_lets_display_raise (g : evaluator) (tol : float) (k : Z)
    (iters : list IterationRecord) (xi x_next : float) (e : exn)
    (out : list line) :
  g xi = Ok x_next -> g x_next = Raise e ->
  Web.fixed_point_list_body g tol k (iters, xi) out = (out, Raise e).
Proof.
  intros Hg He. unfold Web.fixed_point_list_body. unfold_monad.
  rewrite Hg, He. reflexivity.
Qed.

(** C6 fails in [app.py]: [fixed_point_list] evaluates [g] at the next point
    without a guard.  With [g(x) = 1/x - 1] from [x0 = 1] the next point is
    0, where [g] raises: [ZOF_CLI.py] records NaN and, the step being
    within tolerance 2, returns; [app.py] raises.  With tolerance 0.125 the
    run of [ZOF_CLI.py] records NaN too, and then raises when the next pass
    evaluates [g] at the same point. *)
Theorem fixed_point_list_aborts_on_display_failure :
  run CommandLine (FixedPoint g_reciprocal_minus_one 1) 2 5 =
    ([HeaderLine; RuleLine; Row (mkRecord 1 0 nan 1 GUsed)],
     Ok (mkResult 0 nan 1 [mkRecord 1 0 nan 1 GUsed])) /\
  run WebApp (FixedPoint g_reciprocal_minus_one 1) 2 5 =
    ([], Raise (Exn ZeroDivisionError "float division by zero")) /\
  run CommandLine (FixedPoint g_reciprocal_minus_one 1) 0.125 5 =
    ([HeaderLine; RuleLine; Row (mkRecord 1 0 nan 1 GUsed)],
     Raise (Exn ZeroDivisionError "float division by zero")).
Proof. repeat split; vm_compute; reflexivity. Qed.

(** ** The kinds of the arithmetic failures *)

(** C7, as the code has it: the failure of Newton-Raphson on a zero
    derivative and the failures of Secant and Modified Secant on a zero
    denominator are raised, in any pass and in both front ends, as the one
    built-in kind [ZeroDivisionError]; the three differ in their message
    only. *)
Theorem arithmetic_failures_share_kind :
  (forall f df tol k xi y d out iters,
     f xi = Ok y -> df xi = Ok d -> (d =? 0) = true ->
     CLI.newton_raphson_body f df tol k xi out =
       (out, Raise (zero_derivative_error CommandLine)) /\
     Web.newton_list_body f df tol k (iters, xi) out =
       (out, Raise (zero_derivative_error WebApp))) /\
  (forall f tol k x0 x1 f0 f1 x2 fx2 out iters,
     (f1 - f0 =? 0) = true ->
     CLI.secant_body f tol k (mkWindow x0 x1 f0 f1 x2 fx2) out =
       (out, Raise secant_error) /\
     Web.secant_list_body f tol k (iters, mkWindow x0 x1 f0 f1 x2 fx2) out =
       (out, Raise secant_error)) /\
  (forall f x0 delta tol k xi fp fx out iters,
     f (xi + perturbation x0 delta) = Ok fp -> f xi = Ok fx ->
     (fp - fx =? 0) = true ->
     CLI.modified_secant_body f x0 delta tol k xi out =
       (out, Raise modified_secant_error) /\
     Web.modified_secant_list_body f x0 delta tol k (iters, xi) out =
       (out, Raise modified_secant_error)) /\
  (forall v,
     exn_kind (zero_derivative_error v) = ZeroDivisionError /\
     exn_kind (zero_derivative_error v) = exn_kind secant_error /\
     exn_kind (zero_derivative_error v) = exn_kind modified_secant_error /\
     exn_msg (zero_derivative_error v) <> exn_msg secant_error /\
     exn_msg (zero_derivative_error v) <> exn_msg modified_secant_error).
Proof.
  split; [|split; [|split]].
  - intros f df tol k xi y d out iters Hf Hdf Hd.
    unfold CLI.newton_raphson_body, Web.newton_list_body. unfold_monad.
    rewrite Hf, Hdf, Hd. split; reflexivity.
  - intros f tol k x0 x1 f0 f1 x2 fx2 out iters Hd.
    unfold CLI.secant_body, Web.secant_list_body. unfold_monad.
    rewrite Hd. split; reflexivity.
  - intros f x0 delta tol k xi fp fx out iters Hp Hx Hd.
    unfold CLI.modified_secant_body, Web.modified_secant_list_body,
      perturbation in *. unfold_monad.
    destruct (x0 =? 0); simpl; rewrite Hp, Hx, Hd; split; reflexivity.
  - intro v. destruct v; repeat split; simpl; discriminate.
Qed.

Lemma arithmetic_failures_share_kind_witness :
  CLI.newton_raphson_body f_square_minus_two f_double 0.125 1 0 [] =
    ([], Raise (zero_derivative_error CommandLine)) /\
  CLI.secant_body f_square_minus_two 0.125 1
    (mkWindow (-1) 1 (-1) (-1) None None) [] = ([], Raise secant_error) /\
  exn_kind (zero_derivative_error CommandLine) = exn_kind secant_error.
Proof.
  destruct arithmetic_failures_share_kind as (Hn & Hs & _ & Hk).
  split; [|split].
  - apply (Hn f_square_minus_two f_double 0.125 1%Z 0 (-2) 0 [] []);
      reflexivity.
  - apply (Hs f_square_minus_two 0.125 1%Z (-1) 1 (-1) (-1) None None [] []).
    reflexivity.
  - apply (Hk CommandLine).
Defined.

(** C7 as stated fails: a Newton-Raphson run stopped by a zero derivative
    and a Secant run stopped by a zero denominator raise exceptions of the
    same kind, which only the message tells apart. *)
Lemma zero_derivative_kind_not_distinct :
  run CommandLine (NewtonRaphson f_square_minus_two f_double 0) 0.125 5 =
    ([HeaderLine; RuleLine],
     Raise (Exn ZeroDivisionError
              "Zero derivative encountered in Newton-Raphson.")) /\
  run CommandLine (Secant f_square_minus_two (-1) 1) 0.125 5 =
    ([HeaderLine; RuleLine],
     Raise (Exn ZeroDivisionError "Division by zero in Secant method.")) /\
  exn_kind (Exn ZeroDivisionError
              "Zero derivative encountered in Newton-Raphson.") =
  exn_kind (Exn ZeroDivisionError "Division by zero in Secant method.").
Proof. repeat split; vm_compute; reflexivity. Qed.

(** ** The steps of the modified secant method *)

Lemma last_cons {A} (l : list A) : forall y d : A, last (y :: l) d = last l y.
Proof.
  induction l as [|z l IH]; intros y d; [reflexivity|].
  change (last (y :: z :: l) d) with (last (z :: l) d).
  rewrite (IH z d), (IH z y). reflexivity.
Qed.

Lemma chained_snoc (step : float -> float -> Prop) (l : list float) :
  forall prev x,
    chained step prev l -> step (last l prev) x ->
    chained step prev (l ++ [x]).
Proof.
  induction l as [|y l IH]; intros prev x Hc Hs.
  - simpl in *. auto.
  - destruct Hc as [Hy Hc]. split; [exact Hy|].
    apply IH; [exact Hc|]. rewrite <- (last_cons l y prev). exact Hs.
Qed.

Lemma last_snoc {A} (l : list A) (x d : A) : last (l ++ [x]) d = x.
Proof.
  induction l as [|y l IH]; simpl; [reflexivity|].
  rewrite IH. destruct (l ++ [x])%list eqn:E; [|reflexivity].
  destruct l; discriminate.
Qed.

Lemma modified_secant_pass (v : frontend) (f : evaluator)
    (x0 delta tol : float) (maxit : Z) :
  forall k s out out' fl,
    modified_secant_inv v f x0 delta tol maxit k out s ->
    body (scheme_of v (ModifiedSecant f x0 delta) tol maxit) k s out =
      (out', Ok fl) ->
    match fl with
    | Next s' => modified_secant_inv v f x0 delta tol maxit (Z.succ k) out' s'
    | Return r => modified_secant_post v f x0 delta tol maxit k out' r
    end.
Proof.
  unfold modified_secant_inv, modified_secant_post, perturbation.
  destruct v; simpl; intros k s out out' fl [Hc Hl] H; split_state;
    simpl in *; injection Hl as Hl; run_in H; simpl;
    rewrite ?rows_app; simpl; rewrite ?map_app; simpl; rewrite ?last_snoc;
    repeat split; try reflexivity; try discriminate;
    apply chained_snoc; try assumption;
    unfold secant_step_from;
    repeat match goal with
      | E : negb _ = true |- _ => apply negb_true_iff in E
      | E : negb _ = false |- _ => apply negb_false_iff in E
      end;
    repeat match goal with E : (x0 =? 0) = _ |- _ => rewrite E end;
    eauto 10.
Qed.

Lemma modified_secant_raise (v : frontend) (f : evaluator)
    (x0 delta tol : float) (maxit : Z) :
  forall k s out out' e,
    body (scheme_of v (ModifiedSecant f x0 delta) tol maxit) k s out =
      (out', Raise e) ->
    out' = out /\
    ((exists x, f x = Raise e) \/
     e = modified_secant_error /\
     exists xi fp fx,
       last_estimate (scheme_of v (ModifiedSecant f x0 delta) tol maxit) s =
         Some xi /\
       f (xi + perturbation x0 delta) = Ok fp /\ f xi = Ok fx /\
       (fp - fx =? 0) = true).
Proof.
  unfold perturbation.
  destruct v; simpl; intros k s out out' e H; split_state; simpl in *;
    unfold_bodies; unfold_monad;
    repeat (case_inner_in H; simpl in H; try discriminate H);
    inversion H; subst; clear H; (split; [reflexivity|]);
    repeat match goal with
      | E : negb _ = true |- _ => apply negb_true_iff in E
      | E : negb _ = false |- _ => apply negb_false_iff in E
      end;
    repeat match goal with E : (x0 =? 0) = _ |- _ => rewrite E end;
    try (left; eexists; eassumption);
    try (right; split; [reflexivity|]; eauto 10).
Qed.

(** A zero denominator stops the pass, in both front ends, before anything
    is recorded. *)
Lemma modified_secant_zero_denominator (f : evaluator) (x0 delta tol : float)
    (k : Z) (xi fp fx : float) (out : list line) (iters : list IterationRecord) :
  f (xi + perturbation x0 delta) = Ok fp -> f xi = Ok fx ->
  (fp - fx =? 0) = true ->
  CLI.modified_secant_body f x0 delta tol k xi out =
    (out, Raise modified_secant_error) /\
  Web.modified_secant_list_body f x0 delta tol k (iters, xi) out =
    (out, Raise modified_secant_error).
Proof.
  intros Hp Hx Hd.
  unfold CLI.modified_secant_body, Web.modified_secant_list_body,
    perturbation in *. unfold_monad.
  destruct (x0 =? 0); simpl; rewrite Hp, Hx, Hd; split; reflexivity.
Qed.

(** In a run of the modified secant method, in either front end, every
    recorded estimate is obtained from the one before it (the first from
    the seed [x0]) with the one perturbation fixed by the seed; a pass
    whose denominator is zero raises the zero-division error and records
    nothing; and a run raises only that error, at an iterate with a zero
    denominator, or what [f] raised. *)
Lemma modified_secant_runs (v : frontend) (f : evaluator)
    (x0 delta tol : float) (maxit : Z) (out : list line)
    (outcome : result RunResult) :
  run v (ModifiedSecant f x0 delta) tol maxit = (out, outcome) ->
  (forall res,
     outcome = Ok res ->
     chained (secant_step_from f (perturbation x0 delta)) x0
       (map estimate (trace res))) /\
  (v = CommandLine ->
   chained (secant_step_from f (perturbation x0 delta)) x0
     (map estimate (rows out))) /\
  (forall e,
     outcome = Raise e ->
     (exists x, f x = Raise e) \/
     e = modified_secant_error /\
     exists xi fp fx,
       (v = CommandLine -> xi = last (map estimate (rows out)) x0) /\
       f (xi + perturbation x0 delta) = Ok fp /\ f xi = Ok fx /\
       (fp - fx =? 0) = true) /\
  (forall k xi fp fx o iters,
     f (xi + perturbation x0 delta) = Ok fp -> f xi = Ok fx ->
     (fp - fx =? 0) = true ->
     CLI.modified_secant_body f x0 delta tol k xi o =
       (o, Raise modified_secant_error) /\
     Web.modified_secant_list_body f x0 delta tol k (iters, xi) o =
       (o, Raise modified_secant_error)).
Proof.
  intro Hrun.
  assert (Hbody : forall k xi fp fx o iters,
     f (xi + perturbation x0 delta) = Ok fp -> f xi = Ok fx ->
     (fp - fx =? 0) = true ->
     CLI.modified_secant_body f x0 delta tol k xi o =
       (o, Raise modified_secant_error) /\
     Web.modified_secant_list_body f x0 delta tol k (iters, xi) o =
       (o, Raise modified_secant_error))
    by (intros; apply modified_secant_zero_denominator with (fp := fp) (fx := fx);
        assumption).
  rewrite run_is_scheme in Hrun.
  unfold run_scheme, bind, for_range in Hrun.
  set (sc := scheme_of v (ModifiedSecant f x0 delta) tol maxit) in *.
  destruct (prologue sc []) as [out0 [s0|e0]] eqn:Hpro;
    [|destruct v; simpl in Hpro; run_in Hpro].
  assert (Hinit : modified_secant_inv v f x0 delta tol maxit 1 out0 s0).
  { unfold modified_secant_inv. fold sc.
    destruct v; simpl in *; run_in Hpro; simpl; auto. }
  destruct (for_loop (Z.to_nat (maxit + 1 - 1)) 1 (body sc) s0 out0)
    as [out1 [fl|e1]] eqn:Hloop.
  - pose proof (@for_loop_inv _ _ (body sc)
                  (modified_secant_inv v f x0 delta tol maxit)
                  (modified_secant_post v f x0 delta tol maxit)
                  (@modified_secant_pass v f x0 delta tol maxit)
                  _ _ _ _ _ _ Hinit Hloop) as Hend.
    destruct fl as [s1|r].
    + destruct Hend as [Hc Hl]. fold sc in Hc, Hl.
      destruct v; simpl in *; split_state; simpl in *; unfold point_epilogue,
        with_list in Hrun; unfold_monad;
        repeat (case_inner_in Hrun; simpl in Hrun);
        inversion Hrun; subst; clear Hrun;
        (split; [intros res Hres; inversion Hres; subst; simpl; assumption|]);
        (split; [intro Hv; try discriminate Hv; assumption|]);
        (split; [|exact Hbody]);
        intros e' He; inversion He; subst; left; eexists; eassumption.
    + destruct Hend as (k & _ & Hc & Ht). fold sc in Hc, Ht.
      unfold ret in Hrun. inversion Hrun; subst; clear Hrun.
      split; [intros res Hres; inversion Hres; subst; assumption|].
      split; [intro Hv; rewrite <- (Ht Hv); assumption|].
      split; [|exact Hbody].
      intros e' He; discriminate He.
  - inversion Hrun; subst; clear Hrun.
    destruct (@for_loop_raise _ _ (body sc)
                (modified_secant_inv v f x0 delta tol maxit)
                (modified_secant_post v f x0 delta tol maxit)
                (@modified_secant_pass v f x0 delta tol maxit)
                _ _ _ _ _ _ Hinit Hloop)
      as (k & s & o & _ & [Hc Hl] & Hb).
    fold sc in Hc, Hl.
    destruct (modified_secant_raise _ _ _ _ _ _ _ _ _ Hb) as [-> Hwhy].
    split; [intros res Hres; discriminate Hres|].
    split; [intros ->; simpl in Hc; exact Hc|].
    split; [|exact Hbody].
    intros e' He. inversion He; subst e'; clear He.
    destruct Hwhy as [Hf|(-> & xi & fp & fx & Hx & Hp & Hfx & Hd)];
      [left; exact Hf|].
    right. split; [reflexivity|]. exists xi, fp, fx.
    repeat split; try assumption.
    intros ->. fold sc in Hx. rewrite Hl in Hx. simpl in Hx.
    injection Hx as <-. reflexivity.
Qed.

(** ** The zero test of the secant method *)

Lemma SFcompare_finite_eq (s1 s2 : bool) (m1 m2 : positive) (e1 e2 : Z) :
  SFcompare (S754_finite s1 m1 e1) (S754_finite s2 m2 e2) = Some Eq ->
  s1 = s2 /\ m1 = m2 /\ e1 = e2.
Proof.
  simpl. destruct s1, s2; try discriminate;
    destruct (Z.compare e1 e2) eqn:He; try discriminate;
    apply Z.compare_eq in He; fold (Pos.compare m1 m2);
    destruct (Pos.compare m1 m2) eqn:Hm; try discriminate;
    apply Pos.compare_eq in Hm; auto.
Qed.

(** A right shift by one of a mantissa of at least two digits leaves a
    mantissa with one digit less. *)
Lemma shr_1_pos (mrs : shr_record) (m : positive) :
  shr_m mrs = Zpos m -> (1 < Zpos (digits2_pos m))%Z ->
  exists m', shr_m (shr_1 mrs) = Zpos m' /\
             Zpos (digits2_pos m') = (Zpos (digits2_pos m) - 1)%Z.
Proof.
  destruct mrs as [mm r s]. cbn [shr_m]. intros -> H.
  destruct m as [q|q|]; cbn [digits2_pos] in *.
  - exists q. split; [reflexivity|lia].
  - exists q. split; [reflexivity|lia].
  - lia.
Qed.

Lemma iter_shr_1_pos (p : positive) :
  forall (mrs : shr_record) (m : positive),
    shr_m mrs = Zpos m -> (Zpos p < Zpos (digits2_pos m))%Z ->
    exists m', shr_m (SpecFloat.iter_pos shr_1 p mrs) = Zpos m' /\
               Zpos (digits2_pos m') = (Zpos (digits2_pos m) - Zpos p)%Z.
Proof.
  induction p as [p IH|p IH|]; intros mrs m Hm Hlt;
    cbn [SpecFloat.iter_pos];
    try rewrite Pos2Z.inj_xI in Hlt; try rewrite Pos2Z.inj_xO in Hlt;
    try rewrite Pos2Z.inj_xI; try rewrite Pos2Z.inj_xO.
  - destruct (@shr_1_pos mrs m Hm) as (m1 & H1 & D1); [lia|].
    destruct (IH _ _ H1) as (m2 & H2 & D2); [lia|].
    destruct (IH _ _ H2) as (m3 & H3 & D3); [lia|].
    exists m3. split; [exact H3|lia].
  - destruct (IH _ _ Hm) as (m2 & H2 & D2); [lia|].
    destruct (IH _ _ H2) as (m3 & H3 & D3); [lia|].
    exists m3. split; [exact H3|lia].
  - apply shr_1_pos; assumption.
Qed.

(** Rounding to the format never shifts all the digits out: the exponent
    stays at or above [emin]. *)
Lemma shr_fexp_pos (m : positive) (e : Z) (l : location) :
  (emin64 <= e)%Z ->
  exists m', shr_m (fst (shr_fexp prec emax (Zpos m) e l)) = Zpos m' /\
             (emin64 <= snd (shr_fexp prec emax (Zpos m) e l))%Z.
Proof.
  intro He. unfold shr_fexp, shr, fexp. fold emin64. simpl Zdigits2.
  assert (Hrec : shr_m (shr_record_of_loc (Zpos m) l) = Zpos m).
  { destruct l as [|[ | | ]]; reflexivity. }
  destruct (Z.max (Zpos (digits2_pos m) + e - prec) emin64 - e)%Z as [|n|n] eqn:Hn;
    simpl; try (exists m; split; [exact Hrec|exact He]).
  destruct (@iter_shr_1_pos n _ m Hrec) as (m' & H' & _).
  { unfold prec in *. lia. }
  exists m'. split; [exact H'|lia].
Qed.

Lemma binary_round_aux_not_zero (s s' : bool) (m : positive) (e : Z) (l : location) :
  (emin64 <= e)%Z ->
  binary_round_aux prec emax s (Zpos m) e l <> S754_zero s'.
Proof.
  intro He. unfold binary_round_aux.
  destruct (@shr_fexp_pos m e l He) as (m1 & H1 & E1).
  destruct (shr_fexp prec emax (Zpos m) e l) as [mrs1 e1]. simpl in H1, E1.
  assert (Hr : exists m2, round_nearest_even (shr_m mrs1) (loc_of_shr_record mrs1) = Zpos m2).
  { rewrite H1. unfold round_nearest_even.
    destruct (loc_of_shr_record mrs1) as [|[ | | ]]; try (eexists; reflexivity).
    destruct (Z.even (Zpos m1)); eexists; reflexivity. }
  destruct Hr as [m2 ->].
  destruct (@shr_fexp_pos m2 e1 loc_Exact E1) as (m3 & H3 & E3).
  destruct (shr_fexp prec emax (Zpos m2) e1 loc_Exact) as [mrs3 e3]. simpl in H3, E3.
  rewrite H3. destruct (Z.leb e3 (emax - prec)); discriminate.
Qed.

Lemma binary_round_not_zero (s s' : bool) (m : positive) (e : Z) :
  (emin64 <= e)%Z -> binary_round prec emax s m e <> S754_zero s'.
Proof.
  intro He. unfold binary_round, shl_align.
  set (t := fexp prec emax (Zpos (digits2_pos m) + e)).
  assert (Ht : (emin64 <= t)%Z) by (unfold t, fexp; fold emin64; lia).
  destruct (t - e)%Z; apply binary_round_aux_not_zero; assumption.
Qed.

Lemma is_infinity_spec (x : float) : is_infinity x = SFis_infinity (Prim2SF x).
Proof.
  unfold is_infinity. rewrite FloatAxioms.eqb_spec, abs_spec.
  change (Prim2SF infinity) with (S754_infinity false).
  destruct (Prim2SF x) as [s|s| |s m e]; reflexivity.
Qed.

Lemma digits2_pos_shl (m d : positive) :
  Zpos (digits2_pos (Pos.iter xO m d)) = (Zpos (digits2_pos m) + Zpos d)%Z.
Proof.
  induction d as [|d IH] using Pos.peano_ind.
  - cbn [Pos.iter digits2_pos]. lia.
  - rewrite Pos.iter_succ. cbn [digits2_pos]. lia.
Qed.

(** Aligning a mantissa to a lower exponent keeps digits plus exponent. *)
Lemma shl_align_digits (m : positive) (e ez : Z) :
  (ez <= e)%Z ->
  (Zpos (digits2_pos (fst (shl_align m e ez))) + ez =
   Zpos (digits2_pos m) + e)%Z /\
  (ez = e -> fst (shl_align m e ez) = m).
Proof.
  intro H. unfold shl_align.
  destruct (ez - e)%Z as [|d|d] eqn:Hd; cbn [fst].
  - split; [lia|reflexivity].
  - lia.
  - rewrite digits2_pos_shl. split; lia.
Qed.

Lemma SFcompare_not_zero (x : spec_float) :
  (forall s, x <> S754_zero s) -> SFeqb x (S754_zero false) = false.
Proof.
  unfold SFeqb. destruct x as [s|s| |s m e]; intro H.
  - exfalso. apply (H s). reflexivity.
  - destruct s; reflexivity.
  - reflexivity.
  - destruct s; reflexivity.
Qed.

Lemma canonical_emin (m : positive) (e : Z) :
  canonical_mantissa prec emax m e = true ->
  e = fexp prec emax (Zpos (digits2_pos m) + e) /\ (emin64 <= e)%Z.
Proof.
  unfold canonical_mantissa. intro H. apply Z.eqb_eq in H.
  split; [congruence|]. rewrite <- H. unfold fexp. fold emin64. lia.
Qed.

Lemma cond_Zopp_sub_zero (sx sy : bool) (a b : positive) :
  (cond_Zopp sx (Zpos a) - cond_Zopp sy (Zpos b))%Z = 0%Z ->
  sx = sy /\ a = b.
Proof.
  destruct sx, sy; unfold cond_Zopp; intro H; split; try reflexivity; lia.
Qed.

Lemma SFsub_zero_iff (x y : spec_float) :
  valid_binary x = true -> valid_binary y = true ->
  SFeqb (SF64sub x y) (S754_zero false) = SFeqb x y && negb (SFis_infinity x).
Proof.
  intros Vx Vy. unfold SF64sub.
  destruct x as [sx|sx| |sx mx ex]; destruct y as [sy|sy| |sy my ey];
    try (destruct sx; destruct sy; reflexivity);
    try (destruct sx; reflexivity); try (destruct sy; reflexivity);
    try reflexivity.
  cbn [valid_binary] in Vx, Vy. unfold bounded in Vx, Vy.
  apply andb_prop in Vx, Vy. destruct Vx as [Cx _], Vy as [Cy _].
  apply canonical_emin in Cx, Cy. destruct Cx as [Ex Mx], Cy as [Ey My].
  cbn [SFsub SFis_infinity negb]. rewrite andb_true_r.
  set (ez := Z.min ex ey).
  destruct (@shl_align_digits mx ex ez ltac:(lia)) as [Dx Ax].
  destruct (@shl_align_digits my ey ez ltac:(lia)) as [Dy Ay].
  set (a := fst (shl_align mx ex ez)) in *.
  set (b := fst (shl_align my ey ez)) in *.
  destruct (cond_Zopp sx (Zpos a) - cond_Zopp sy (Zpos b))%Z as [|d|d] eqn:Hd.
  - apply cond_Zopp_sub_zero in Hd. destruct Hd as [-> Hab].
    assert (He : ex = ey).
    { rewrite Ex, Ey. f_equal. rewrite <- Dx, <- Dy, Hab. reflexivity. }
    subst ey. assert (ez = ex) by (unfold ez; lia).
    rewrite <- (Ax H), <- (Ay H). fold a b. rewrite Hab.
    unfold binary_normalize, SFeqb. rewrite !SFcompare_refl by discriminate.
    reflexivity.
  - unfold binary_normalize. rewrite SFcompare_not_zero.
    + unfold SFeqb.
      destruct (SFcompare (S754_finite sx mx ex) (S754_finite sy my ey))
        as [[ | | ]|] eqn:Hc; try reflexivity.
      apply SFcompare_finite_eq in Hc. destruct Hc as (-> & -> & ->).
      subst a b. lia.
    + intro s. apply binary_round_not_zero. unfold ez. lia.
  - unfold binary_normalize. rewrite SFcompare_not_zero.
    + unfold SFeqb.
      destruct (SFcompare (S754_finite sx mx ex) (S754_finite sy my ey))
        as [[ | | ]|] eqn:Hc; try reflexivity.
      apply SFcompare_finite_eq in Hc. destruct Hc as (-> & -> & ->).
      subst a b. lia.
    + intro s. apply binary_round_not_zero. unfold ez. lia.
Qed.

(** The difference of two floats is zero exactly when they are equal and
    not infinite. *)
Lemma sub_eqb_zero (x y : float) :
  (x - y =? 0) = (x =? y) && negb (is_infinity x).
Proof.
  rewrite !FloatAxioms.eqb_spec, sub_spec, is_infinity_spec.
  change (Prim2SF 0) with (S754_zero false).
  apply SFsub_zero_iff; apply Prim2SF_valid.
Qed.

(** C4, as the code has it: a pass of the secant method raises the
    zero-division error, recording nothing, exactly when the values of [f]
    at the two window points are equal and not infinite - which is when
    their difference [f1 - f0], the denominator, compares equal to zero;
    otherwise the pass raises only what [f] raises at the new point, and
    else records its step.  Seeds with equal values that are not infinite
    stop the run in its first pass, no step recorded. *)
Theorem secant_fails_on_equal_finite_values :
  (forall f tol k x0 x1 f0 f1 x2 fx2 out iters,
     (f1 =? f0) = true -> is_infinity f1 = false ->
     CLI.secant_body f tol k (mkWindow x0 x1 f0 f1 x2 fx2) out =
       (out, Raise secant_error) /\
     Web.secant_list_body f tol k (iters, mkWindow x0 x1 f0 f1 x2 fx2) out =
       (out, Raise secant_error)) /\
  (forall f tol k x0 x1 f0 f1 x2 fx2 out iters,
     (f1 =? f0) && negb (is_infinity f1) = false ->
     let next := x1 - f1 * (x1 - x0) / (f1 - f0) in
     match f next with
     | Raise e =>
         CLI.secant_body f tol k (mkWindow x0 x1 f0 f1 x2 fx2) out =
           (out, Raise e) /\
         Web.secant_list_body f tol k (iters, mkWindow x0 x1 f0 f1 x2 fx2) out =
           (out, Raise e)
     | Ok fnext =>
         let r := mkRecord k next fnext (abs (next - x1)) (Points x0 x1) in
         (exists fl,
            CLI.secant_body f tol k (mkWindow x0 x1 f0 f1 x2 fx2) out =
              ((out ++ [Row r])%list, Ok fl)) /\
         (exists fl,
            Web.secant_list_body f tol k
              (iters, mkWindow x0 x1 f0 f1 x2 fx2) out = (out, Ok fl))
     end) /\
  (forall v f x0 x1 tol maxit y0 y1,
     (1 <= maxit)%Z -> f x0 = Ok y0 -> f x1 = Ok y1 ->
     (y1 =? y0) = true -> is_infinity y1 = false ->
     exists out,
       run v (Secant f x0 x1) tol maxit = (out, Raise secant_error) /\
       rows out = []) /\
  (forall y0 y1,
     (y1 - y0 =? 0) = (y1 =? y0) && negb (is_infinity y1)).
Proof.
  split; [|split; [|split]].
  - intros f tol k x0 x1 f0 f1 x2 fx2 out iters He Hi.
    assert (Hd : (f1 - f0 =? 0) = true)
      by (rewrite sub_eqb_zero, He, Hi; reflexivity).
    unfold CLI.secant_body, Web.secant_list_body. unfold_monad.
    rewrite Hd. split; reflexivity.
  - intros f tol k x0 x1 f0 f1 x2 fx2 out iters Hd next.
    rewrite <- sub_eqb_zero in Hd.
    unfold CLI.secant_body, Web.secant_list_body. unfold_monad.
    rewrite Hd. fold next. destruct (f next) as [fnext|e].
    + split; (case_inner; eexists; reflexivity).
    + split; reflexivity.
  - intros v f x0 x1 tol maxit y0 y1 Hmax H0 H1 He Hi.
    assert (Hd : (y1 - y0 =? 0) = true)
      by (rewrite sub_eqb_zero, He, Hi; reflexivity).
    assert (Hn : exists n, Z.to_nat (maxit + 1 - 1) = Datatypes.S n).
    { exists (Z.to_nat (maxit - 1)). lia. }
    destruct Hn as [n Hn].
    destruct v; unfold run, run_cli, run_web, CLI.secant, Web.secant_list,
      for_range; rewrite Hn; simpl;
      unfold CLI.secant_body, Web.secant_list_body, CLI.print_iter_header;
      unfold_monad; rewrite H0, H1, Hd; simpl;
      eexists; split; reflexivity.
  - intros y0 y1. apply sub_eqb_zero.
Qed.

Lemma secant_fails_on_equal_finite_values_witness :
  (1 <= 5)%Z /\
  f_square_minus_two (-1) = Ok (-1) /\ f_square_minus_two 1 = Ok (-1) /\
  ((-1) =? (-1)) = true /\ is_infinity (-1) = false /\
  exists out,
    run CommandLine (Secant f_square_minus_two (-1) 1) 0.125 5 =
      (out, Raise secant_error) /\
    rows out = [].
Proof.
  destruct secant_fails_on_equal_finite_values as (_ & _ & Hrun & _).
  split; [lia|]. split; [reflexivity|]. split; [reflexivity|].
  split; [reflexivity|]. split; [reflexivity|].
  apply (Hrun CommandLine f_square_minus_two (-1) 1 0.125 5%Z (-1) (-1));
    [lia | reflexivity | reflexivity | reflexivity | reflexivity].
Defined.

(** C4 as stated fails on equal infinite values: [f(x) = 1e308*x] is
    infinite at both seeds 10 and 100, the two values compare equal, their
    difference is NaN and not zero, and the run makes its pass and returns
    NaN instead of raising. *)
Lemma secant_equal_infinite_values_pass :
  f_scaled 10 = Ok infinity /\ f_scaled 100 = Ok infinity /\
  (infinity =? infinity) = true /\
  (infinity - infinity =? 0) = false /\
  run CommandLine (Secant f_scaled 10 100) 0.125 1 =
    ([HeaderLine; RuleLine; Row (mkRecord 1 nan nan nan (Points 10 100))],
     Ok (mkResult nan nan 1 [mkRecord 1 nan nan nan (Points 10 100)])) /\
  run WebApp (Secant f_scaled 10 100) 0.125 1 =
    ([], Ok (mkResult nan nan 1 [mkRecord 1 nan nan nan (Points 10 100)])).
Proof. repeat split; vm_compute; reflexivity. Qed.

(** ** The two front ends side by side *)

Section Simulation.

Context {S1 S2 : Type}.

Variable b1 : Z -> S1 -> M (flow S1 CLI.returned).

Variable b2 : Z -> S2 -> M (flow S2 Web.returned).

Variable RS : list line -> S1 -> S2 -> Prop.

Hypothesis pass_sim :
  forall k s1 o1 s2, RS o1 s1 s2 -> in_step RS (b1 k s1 o1) (b2 k s2 []).

Lemma for_loop_sim (n : nat) :
  forall k s1 o1 s2,
    RS o1 s1 s2 ->
    in_step RS (for_loop n k b1 s1 o1) (for_loop n k b2 s2 []).
Proof.
  induction n as [|n IH]; intros k s1 o1 s2 Hs.
  - simpl. unfold ret. simpl. auto.
  - simpl. unfold bind. pose proof (pass_sim k Hs) as Hp.
    unfold in_step in Hp.
    destruct (b1 k s1 o1) as [o1' [[s1'|r1]|e1]];
      destruct (b2 k s2 []) as [o2' [[s2'|r2]|e2]]; try contradiction.
    + destruct Hp as [-> Hs']. apply IH. exact Hs'.
    + unfold ret. simpl. exact Hp.
    + simpl. exact Hp.
Qed.

End Simulation.

Ltac never_raises H :=
  try match goal with
      | E : _ = Raise _ |- _ => exfalso; exact (H _ _ E)
      end.

Lemma bodies_in_step (m : method) (tol : float) (maxit : Z) :
  comparable m ->
  forall k s1 o1 s2,
    state_sim m tol maxit o1 s1 s2 ->
    in_step (state_sim m tol maxit)
      (body (cli_scheme m tol maxit) k s1 o1)
      (body (web_scheme m tol maxit) k s2 []).
Proof.
  destruct m; simpl; intros Hcmp k s1 o1 [iters s2] [Hrows Hs];
    unfold bracket_sim in *; simpl in *; subst; split_state; simpl in *;
    repeat match goal with H : _ /\ _ |- _ => destruct H end;
    subst; unfold_bodies; unfold_monad; unfold in_step, result_sim;
    repeat (case_inner; simpl); never_raises Hcmp;
    rewrite ?rows_app; simpl; try reflexivity;
    repeat split; try reflexivity; try congruence;
    try (right; split; [discriminate|reflexivity]).
Qed.

Lemma prologues_in_step (m : method) (tol : float) (maxit : Z) :
  comparable m ->
  match prologue (cli_scheme m tol maxit) [],
        prologue (web_scheme m tol maxit) [] with
  | (o1, Ok s1), (o2, Ok s2) => o2 = [] /\ state_sim m tol maxit o1 s1 s2
  | (_, Raise e1), (_, Raise e2) => exn_kind e1 = exn_kind e2
  | _, _ => False
  end.
Proof.
  destruct m; simpl; intro Hcmp; unfold_bodies; unfold_monad;
    unfold bracket_sim.
  all: repeat (case_inner; simpl); simpl; auto 10.
  all: try (rewrite (Hcmp _ _ eq_refl eq_refl) in *; discriminate).
Qed.

Lemma epilogues_in_step (m : method) (tol : float) (maxit : Z) :
  forall s1 o1 s2,
    state_sim m tol maxit o1 s1 s2 ->
    match epilogue (cli_scheme m tol maxit) s1 o1,
          epilogue (web_scheme m tol maxit) s2 [] with
    | (o1', Ok r1), (_, Ok r2) => result_sim o1' r1 r2
    | (_, Raise e1), (_, Raise e2) => exn_kind e1 = exn_kind e2
    | _, _ => False
    end.
Proof.
  destruct m; simpl; intros s1 o1 [iters s2] [Hrows Hs];
    unfold bracket_sim in *; simpl in *; subst; split_state; simpl in *;
    repeat match goal with H : _ /\ _ |- _ => destruct H end;
    subst; unfold_bodies; unfold_monad; unfold result_sim;
    repeat match goal with
      | H : _ \/ _ |- _ => destruct H as [[? ?]|[? ?]]
      end; subst;
    repeat (case_inner; simpl); simpl; try reflexivity; try congruence.
Qed.

(** X15: where the two versions of a method are the same algorithm they
    return the same [RunResult], steps included, or fail with the same kind of
    error: always for Regula Falsi, Secant, Newton-Raphson and Modified
    Secant, for Bisection when no endpoint value is NaN, and for the
    fixed-point iteration when [g] does not raise. *)
Theorem front_ends_agree (m : method) (tol : float) (maxit : Z) :
  comparable m ->
  outcomes_agree (run CommandLine m tol maxit) (run WebApp m tol maxit).
Proof.
  intro Hcmp. rewrite !run_is_scheme. simpl.
  unfold outcomes_agree, run_scheme, bind, for_range.
  pose proof (prologues_in_step m tol maxit Hcmp) as Hpro.
  destruct (prologue (cli_scheme m tol maxit) []) as [o1 [s1|e1]];
    destruct (prologue (web_scheme m tol maxit) []) as [o2 [s2|e2]];
    try contradiction; [|exact Hpro].
  destruct Hpro as [-> Hs].
  pose proof (@for_loop_sim _ _ (body (cli_scheme m tol maxit))
                (body (web_scheme m tol maxit)) (state_sim m tol maxit)
                (bodies_in_step m tol maxit Hcmp)
                (Z.to_nat (maxit + 1 - 1)) 1 _ _ _ Hs) as Hloop.
  unfold in_step in Hloop.
  destruct (for_loop (Z.to_nat (maxit + 1 - 1)) 1
              (body (cli_scheme m tol maxit)) s1 o1) as [o1' [[s1'|r1]|e1]];
    destruct (for_loop (Z.to_nat (maxit + 1 - 1)) 1
                (body (web_scheme m tol maxit)) s2 []) as [o2' [[s2'|r2]|e2]];
    try contradiction.
  - destruct Hloop as [-> Hs'].
    pose proof (epilogues_in_step m tol maxit _ _ _ Hs') as Hepi.
    destruct (epilogue (cli_scheme m tol maxit) s1' o1') as [o1'' [r1|e1]];
      destruct (epilogue (web_scheme m tol maxit) s2' []) as [o2'' [r2|e2]];
      try contradiction; simpl.
    + destruct m; exact Hepi.
    + exact Hepi.
  - unfold ret. simpl. destruct m; exact Hloop.
  - simpl. exact Hloop.
Qed.

Lemma front_ends_agree_witness :
  comparable (NewtonRaphson f_square_minus_two f_double 1) /\
  outcomes_agree
    (run CommandLine (NewtonRaphson f_square_minus_two f_double 1) 0.125 4)
    (run WebApp (NewtonRaphson f_square_minus_two f_double 1) 0.125 4).
Proof.
  split; [exact I|].
  apply (@front_ends_agree (NewtonRaphson f_square_minus_two f_double 1)
           0.125 4 I).
Defined.

(** C8 fails for two of the six methods.  Bisection of [f(x) = sqrt(x)] on
    [[-4, 4]], where [f(-4)] is NaN: [bisection] raises, [bisection_list]
    returns the root 0 after one step.  Fixed-point iteration of
    [g(x) = 1/x - 1] from 1 with tolerance 2: [fixed_point] returns 0 with
    NaN for the value, [fixed_point_list] raises. *)
Theorem front_ends_differ :
  (run CommandLine (Bisection f_sqrt (-4) 4) 0.125 2 =
     ([], Raise (Exn ValueError "Function returned NaN on interval endpoints.")) /\
   run WebApp (Bisection f_sqrt (-4) 4) 0.125 2 =
     ([], Ok (mkResult 0 0 1 [mkRecord 1 0 0 4 (Interval (-4) 4)])) /\
   ~ outcomes_agree (run CommandLine (Bisection f_sqrt (-4) 4) 0.125 2)
       (run WebApp (Bisection f_sqrt (-4) 4) 0.125 2)) /\
  (run CommandLine (FixedPoint g_reciprocal_minus_one 1) 2 1 =
     ([HeaderLine; RuleLine; Row (mkRecord 1 0 nan 1 GUsed)],
      Ok (mkResult 0 nan 1 [mkRecord 1 0 nan 1 GUsed])) /\
   run WebApp (FixedPoint g_reciprocal_minus_one 1) 2 1 =
     ([], Raise (Exn ZeroDivisionError "float division by zero")) /\
   ~ outcomes_agree (run CommandLine (FixedPoint g_reciprocal_minus_one 1) 2 1)
       (run WebApp (FixedPoint g_reciprocal_minus_one 1) 2 1)).
Proof.
  repeat split; try (vm_compute; reflexivity);
    intro H; vm_compute in H; exact H.
Qed.

(** * Further properties of the methods *)

(** ** Whole runs *)

(** A property of the loop variables and the output that the statements
    before the loop establish and every pass keeps holds when the run
    returns, from inside the loop or after it. *)
Lemma run_scheme_inv {Res} (sc : scheme Res) (maxit : Z)
    (I : list line -> St sc -> Prop) (Q : list line -> Res -> Prop) :
  (forall out s0, prologue sc [] = (out, Ok s0) -> I out s0) ->
  (forall k s out out' fl,
     I out s -> body sc k s out = (out', Ok fl) ->
     match fl with
     | Next s' => I out' s'
     | Return x => Q out' x
     end) ->
  (forall s out out' x,
     I out s -> epilogue sc s out = (out', Ok x) -> Q out' x) ->
  forall out res,
    run_scheme sc maxit = (out, Ok res) ->
    exists x, res = finish sc out x /\ Q out x.
Proof.
  intros Hpro Hpass Hepi out res Hrun.
  unfold run_scheme, bind, for_range in Hrun.
  remember (prologue sc []) as p eqn:Ep in Hrun.
  destruct p as [out0 [s0|e0]]; [|discriminate]. symmetry in Ep.
  destruct (for_loop (Z.to_nat (maxit + 1 - 1)) 1 (body sc) s0 out0)
    as [out1 [fl|e1]] eqn:Hloop; [|discriminate].
  pose proof (@for_loop_inv _ _ (body sc) (fun _ => I) (fun _ => Q)
                Hpass _ _ _ _ _ _ (Hpro _ _ Ep) Hloop) as Hend.
  destruct fl as [s1|x].
  - destruct (epilogue sc s1 out1) as [out2 [x|e2]] eqn:Ee; [|discriminate].
    inversion Hrun; subst. exists x. split; [reflexivity|].
    eapply Hepi; eassumption.
  - destruct Hend as (k & _ & HQ). unfold ret in Hrun.
    inversion Hrun; subst. exists x. split; [reflexivity|exact HQ].
Qed.

(** X1.  A run that returns stopped at the first step that met the
    convergence test of its method: every recorded step before the last
    one failed it.  For the six methods in both front ends. *)
Theorem stops_at_first_converged_step (v : frontend) (m : method)
    (tol : float) (maxit : Z) (out : list line) (res : RunResult) :
  run v m tol maxit = (out, Ok res) ->
  forall init r,
    (trace res = init ++ [r])%list -> Forall (not_converged m tol) init.
Proof.
  intro Hrun. rewrite run_is_scheme in Hrun.
  pose proof (scheme_of_ok v m tol maxit) as Hok.
  set (sc := scheme_of v m tol maxit) in *.
  destruct (@run_scheme_inv _ sc maxit
              (fun out s => Forall (not_converged m tol) (steps sc out s))
              (fun out x => forall init r,
                   (trace (finish sc out x) = init ++ [r])%list ->
                   Forall (not_converged m tol) init)) with (4 := Hrun)
    as (x & -> & HQ).
  - intros o s0 Hp. rewrite (prologue_ok Hok Hp). constructor.
  - intros k s o o' fl Hi Hb.
    destruct (body_ok Hok _ _ _ Hb) as (r & _ & Hfl).
    destruct fl as [s'|x].
    + destruct Hfl as (-> & _ & Hc). apply Forall_app. split; [exact Hi|].
      constructor; [exact Hc|constructor].
    + destruct Hfl as (Ht & _). intros init r' Hinit.
      rewrite Ht in Hinit. apply app_inj_tail in Hinit.
      destruct Hinit as [<- _]. exact Hi.
  - intros s o o' x Hi He. destruct (epilogue_ok Hok _ _ He) as (Ht & _).
    intros init r' Hinit. rewrite Ht in Hinit. rewrite Hinit in Hi.
    apply Forall_app in Hi. apply Hi.
  - exact HQ.
Qed.

Lemma stops_at_first_converged_step_witness :
  exists out res,
    run CommandLine (Bisection f_square_minus_two 1 2) 0.25 5 = (out, Ok res) /\
    exists init r,
      (trace res = init ++ [r])%list /\
      List.length init = 2%nat /\
      Forall (not_converged (Bisection f_square_minus_two 1 2) 0.25) init.
Proof.
  eexists. eexists. split; [vm_compute; reflexivity|].
  exists [mkRecord 1 1.5 0.25 0.5 (Interval 1 2);
          mkRecord 2 1.25 (-0.4375) 0.25 (Interval 1 1.5)],
    (mkRecord 3 1.375 (-0.109375) 0.125 (Interval 1.25 1.5)).
  split; [reflexivity|]. split; [reflexivity|].
  eapply (@stops_at_first_converged_step CommandLine
            (Bisection f_square_minus_two 1 2) 0.25 5 _ _)
    with (r := mkRecord 3 1.375 (-0.109375) 0.125 (Interval 1.25 1.5));
    [vm_compute; reflexivity | reflexivity].
Defined.


(** A loop that returns from one of its passes returns the same when it is
    allowed more passes. *)
Lemma early_return_stable {S R} (body : Z -> S -> M (flow S R)) (n : nat) :
  forall n' k s out out' x,
    (n <= n')%nat ->
    for_loop n k body s out = (out', Ok (Return x)) ->
    for_loop n' k body s out = (out', Ok (Return x)).
Proof.
  induction n as [|n IH]; intros n' k s out out' x Hle Hrun.
  - simpl in Hrun. discriminate.
  - destruct n' as [|n']; [lia|].
    simpl in *. unfold bind in *.
    destruct (body k s out) as [out1 [[s1|r1]|e]]; try discriminate.
    + apply IH; [lia|exact Hrun].
    + exact Hrun.
Qed.

(** A run whose last step met the convergence test returned from inside
    the loop. *)
Lemma converged_run_returned_in_loop {Res} (sc : scheme Res)
    (conv : IterationRecord -> bool) (maxit : Z) (out : list line)
    (res : RunResult) (init : list IterationRecord) (r : IterationRecord) :
  scheme_ok sc conv maxit ->
  run_scheme sc maxit = (out, Ok res) ->
  (trace res = init ++ [r])%list -> conv r = true ->
  exists out0 s0 x,
    prologue sc [] = (out0, Ok s0) /\
    for_loop (Z.to_nat (maxit + 1 - 1)) 1 (body sc) s0 out0 =
      (out, Ok (Return x)) /\
    res = finish sc out x.
Proof.
  intros Hok Hrun Ht Hc. unfold run_scheme, bind, for_range in Hrun.
  destruct (prologue sc []) as [out0 [s0|e0]] eqn:Hpro; [|discriminate].
  destruct (for_loop (Z.to_nat (maxit + 1 - 1)) 1 (body sc) s0 out0)
    as [out1 [fl|e1]] eqn:Hloop; [|discriminate].
  assert (Hinit : steps_inv sc conv 1 out0 s0).
  { split; [lia|]. split; [|left; reflexivity].
    rewrite (prologue_ok Hok Hpro). reflexivity. }
  pose proof (@for_loop_inv _ _ (body sc) (steps_inv sc conv)
                (steps_post sc conv) (@steps_pass _ sc conv maxit Hok)
                _ _ _ _ _ _ Hinit Hloop) as Hend.
  destruct fl as [s1|x].
  - exfalso.
    destruct (epilogue sc s1 out1) as [out2 [x|e2]] eqn:Hepi; [|discriminate].
    inversion Hrun; subst out res; clear Hrun.
    destruct (epilogue_ok Hok _ _ Hepi) as (Hts & _).
    destruct Hend as (_ & Hidx & [Hk|(init' & r' & Hs & _ & Hc')]).
    + rewrite Hk in Hidx. simpl in Hidx. apply map_eq_nil in Hidx.
      rewrite Hts, Hidx in Ht. destruct init; discriminate.
    + rewrite Hts, Hs in Ht. apply app_inj_tail in Ht.
      destruct Ht as [_ <-]. congruence.
  - unfold ret in Hrun. inversion Hrun; subst.
    exists out0, s0, x. auto.
Qed.

(** X2.  An answer that met the convergence test does not depend on the
    iteration budget: a run whose last step converged returns the same
    values, steps and output with any larger [maxit]. *)
Theorem converged_answer_is_stable (v : frontend) (m : method) (tol : float)
    (maxit maxit' : Z) (out : list line) (res : RunResult)
    (init : list IterationRecord) (r : IterationRecord) :
  run v m tol maxit = (out, Ok res) ->
  (trace res = init ++ [r])%list -> converged m tol r = true ->
  (maxit <= maxit')%Z ->
  run v m tol maxit' = (out, Ok res).
Proof.
  intros Hrun Ht Hc Hle. rewrite run_is_scheme in *.
  destruct (@converged_run_returned_in_loop _ _ _ _ _ _ _ _
              (scheme_of_ok v m tol maxit) Hrun Ht Hc)
    as (out0 & s0 & x & Hpro & Hloop & ->).
  apply early_return_stable with (n' := Z.to_nat (maxit' + 1 - 1)) in Hloop;
    [|lia].
  unfold run_scheme, bind, for_range.
  destruct v, m;
    cbn [scheme_of cli_scheme web_scheme prologue body finish St] in *;
    rewrite Hpro, Hloop; reflexivity.
Qed.

Lemma converged_answer_is_stable_witness :
  exists out res init r,
    run CommandLine (Bisection f_square_minus_two 1 2) 0.25 3 = (out, Ok res) /\
    (trace res = init ++ [r])%list /\
    converged (Bisection f_square_minus_two 1 2) 0.25 r = true /\
    (3 <= 50)%Z /\
    run CommandLine (Bisection f_square_minus_two 1 2) 0.25 50 = (out, Ok res).
Proof.
  eexists. eexists.
  exists [mkRecord 1 1.5 0.25 0.5 (Interval 1 2);
          mkRecord 2 1.25 (-0.4375) 0.25 (Interval 1 1.5)],
    (mkRecord 3 1.375 (-0.109375) 0.125 (Interval 1.25 1.5)).
  split; [vm_compute; reflexivity|].
  split; [reflexivity|]. split; [reflexivity|]. split; [lia|].
  eapply (@converged_answer_is_stable CommandLine
            (Bisection f_square_minus_two 1 2) 0.25 3 50 _ _
            [mkRecord 1 1.5 0.25 0.5 (Interval 1 2);
             mkRecord 2 1.25 (-0.4375) 0.25 (Interval 1 1.5)]
            (mkRecord 3 1.375 (-0.109375) 0.125 (Interval 1.25 1.5)));
    [vm_compute; reflexivity | reflexivity | reflexivity | lia].
Defined.


(** ** Recorded values *)

Ltac value_ok :=
  unfold step_value_recorded, answer_value_recorded, value_recorded; simpl;
  first [ left; assumption
        | left; reflexivity
        | right; repeat split; eauto ].

Lemma values_pass (v : frontend) (m : method) (tol : float) (maxit : Z) :
  forall k s out out' fl,
    values_inv v m tol maxit out s ->
    body (scheme_of v m tol maxit) k s out = (out', Ok fl) ->
    match fl with
    | Next s' => values_inv v m tol maxit out' s'
    | Return x => values_post v m tol maxit out' x
    end.
Proof.
  unfold values_inv, values_post.
  destruct v, m; simpl; intros k s out out' fl [HF _] H; split_state;
    simpl in *; run_in H; simpl; rewrite ?rows_app; simpl;
    (split;
     [ apply Forall_app; split; [exact HF|];
       constructor; [value_ok|constructor]
     | try (intros o o' x Hx; split_state; run_in Hx; simpl);
       try value_ok ]).
Qed.

(** X3.  In a run that returns, every recorded step holds the value of the
    evaluator at its estimate, and the returned value is the value of the
    evaluator at the returned root ([g] for the fixed-point iteration, [f]
    for the others).  The one exception is the fixed-point iteration of
    [ZOF_CLI.py], which holds NaN where [g] raises. *)
Theorem recorded_values_are_evaluations (v : frontend) (m : method)
    (tol : float) (maxit : Z) (out : list line) (res : RunResult) :
  run v m tol maxit = (out, Ok res) ->
  Forall (step_value_recorded v m) (trace res) /\
  answer_value_recorded v m res.
Proof.
  intro Hrun. rewrite run_is_scheme in Hrun.
  destruct (@run_scheme_inv _ (scheme_of v m tol maxit) maxit
              (values_inv v m tol maxit) (values_post v m tol maxit))
    with (4 := Hrun) as (x & -> & HQ).
  - unfold values_inv.
    destruct v, m; simpl; intros o s0 H; run_in H; simpl;
      (split; [constructor|]);
      intros o1 o2 x Hx; split_state; run_in Hx; value_ok.
  - apply values_pass.
  - unfold values_inv, values_post. intros s o o' x [HF Hans] Hx.
    split; [|exact (Hans _ _ _ Hx)].
    destruct (epilogue_ok (scheme_of_ok v m tol maxit) _ _ Hx) as (-> & _).
    destruct v, m; simpl in *; split_state; run_in Hx; exact HF.
  - exact HQ.
Qed.

Lemma recorded_values_are_evaluations_witness :
  exists out res,
    run CommandLine (FixedPoint g_reciprocal_minus_one 0.5) 0.125 1 =
      (out, Ok res) /\
    Forall (step_value_recorded CommandLine
              (FixedPoint g_reciprocal_minus_one 0.5)) (trace res) /\
    answer_value_recorded CommandLine (FixedPoint g_reciprocal_minus_one 0.5)
      res.
Proof.
  eexists. eexists. split; [vm_compute; reflexivity|].
  eapply (@recorded_values_are_evaluations CommandLine
            (FixedPoint g_reciprocal_minus_one 0.5) 0.125 1 _ _).
  vm_compute. reflexivity.
Defined.


(** ** No iteration allowed *)

Ltac unfold_runs :=
  unfold run, run_cli, run_web, CLI.bisection, CLI.regula_falsi, CLI.secant,
    CLI.newton_raphson, CLI.fixed_point, CLI.modified_secant,
    Web.bisection_list, Web.regula_falsi_list, Web.secant_list,
    Web.newton_list, Web.fixed_point_list, Web.modified_secant_list,
    for_range, CLI.print_iter_header in *.

(** X4.  With [maxit <= 0] no pass is made.  Newton-Raphson, the
    fixed-point iteration and Modified Secant then return their seed with
    the value of the evaluator there, no step, and [iterations_used =
    maxit] as given, negative or not.  Bisection, Regula Falsi and Secant
    never return: the variables of their [return] were not assigned, and
    what they raise is [UnboundLocalError], unless the bracket was refused
    or the evaluator raised at an endpoint or seed. *)
Theorem no_pass_without_budget (v : frontend) (tol : float) (maxit : Z) :
  (maxit <= 0)%Z ->
  (forall m out res,
     run v m tol maxit = (out, Ok res) ->
     seed m = Some (root_estimate res) /\
     recorded_evaluator m (root_estimate res) =
       Ok (function_value_at_root res) /\
     trace res = [] /\ iterations_used res = maxit) /\
  (forall m x0 y,
     seed m = Some x0 -> recorded_evaluator m x0 = Ok y ->
     exists out, run v m tol maxit = (out, Ok (mkResult x0 y maxit []))) /\
  (forall m out e,
     seed m = None -> run v m tol maxit = (out, Raise e) ->
     exn_kind e = UnboundLocalError \/ exn_kind e = ValueError \/
     exists x, recorded_evaluator m x = Raise e).
Proof.
  intro Hmax.
  assert (Hn : Z.to_nat (maxit + 1 - 1) = O) by lia.
  split; [|split].
  - intros m out res H.
    destruct v, m; unfold_runs; rewrite Hn in H; simpl in H;
      unfold_monad; repeat (case_inner_in H; simpl in H; try discriminate H);
      inversion H; subst; simpl; auto.
  - intros m x0 y Hs Hy.
    destruct v, m; try discriminate Hs; injection Hs as ->; simpl in Hy;
      unfold_runs; rewrite Hn; simpl; unfold_monad; rewrite Hy;
      eexists; reflexivity.
  - intros m out e Hs H.
    destruct v, m; try discriminate Hs; unfold_runs; rewrite Hn in H;
      simpl in H; unfold_monad;
      repeat (case_inner_in H; simpl in H; try discriminate H);
      inversion H; subst; simpl; auto;
      right; right; eexists; eassumption.
Qed.

Lemma no_pass_without_budget_witness :
  (-3 <= 0)%Z /\
  run WebApp (NewtonRaphson f_square_minus_two f_double 1) 0.125 (-3) =
    ([], Ok (mkResult 1 (-1) (-3) [])) /\
  (forall out e,
     run CommandLine (Secant f_square_minus_two 1 2) 0.125 (-3) =
       (out, Raise e) ->
     exn_kind e = UnboundLocalError \/ exn_kind e = ValueError \/
     exists x, f_square_minus_two x = Raise e).
Proof.
  destruct (@no_pass_without_budget WebApp 0.125 (-3) ltac:(lia))
    as (_ & Hret & _).
  destruct (@no_pass_without_budget CommandLine 0.125 (-3) ltac:(lia))
    as (_ & _ & Hraise).
  split; [lia|]. split.
  - destruct (Hret (NewtonRaphson f_square_minus_two f_double 1) 1 (-1)
                eq_refl eq_refl) as [out H].
    rewrite H. vm_compute in H. injection H as <-. reflexivity.
  - intros out e. apply (Hraise (Secant f_square_minus_two 1 2)). reflexivity.
Defined.

(** ** The recurrence of each method *)

Lemma trace_from_snoc (m : method) (l : list IterationRecord) :
  forall w r,
    trace_from m w l -> step_from m (fold_left vars_next l w) r ->
    trace_from m w (l ++ [r]).
Proof.
  induction l as [|r0 l IH]; intros w r Hl Hr.
  - simpl in *. auto.
  - destruct Hl as [H0 Hl]. split; [exact H0|]. apply IH; assumption.
Qed.

Ltac fold_tests :=
  repeat match goal with
    | E : negb _ = true |- _ => apply negb_true_iff in E
    | E : negb _ = false |- _ => apply negb_false_iff in E
    end;
  repeat match goal with
    | E : _ = true |- _ => rewrite E
    | E : _ = false |- _ => rewrite E
    end.

Lemma recurrence_pass (v : frontend) (m : method) (tol : float) (maxit : Z) :
  forall k s out out' fl,
    recurrence_inv v m tol maxit out s ->
    body (scheme_of v m tol maxit) k s out = (out', Ok fl) ->
    match fl with
    | Next s' => recurrence_inv v m tol maxit out' s'
    | Return x => recurrence_post v m tol maxit out' x
    end.
Proof.
  unfold recurrence_inv, recurrence_post.
  destruct v, m; simpl; intros k s out out' fl (w0 & Hs & Ht & Hv & Hc) H;
    split_state; simpl in *;
    try match type of Hc with _ /\ _ => destruct Hc as [Hca Hcb] end;
    run_in H; simpl; rewrite ?rows_app; simpl;
    (eexists; (split; [first [eassumption | reflexivity]|]));
    rewrite ?fold_left_app; simpl; repeat split;
    try assumption;
    try (apply trace_from_snoc; [exact Ht|]);
    rewrite <- Hv; simpl; unfold secant_step_from, perturbation;
    fold_tests; try reflexivity; eauto 12.
Qed.

(** X5.  The steps of a run that returns are the recurrence of its method,
    from the inputs: each record is computed from the variables that the
    records before it lead to, by the formula of the method - the midpoint
    and half-width of the bracket, the intersection of the chord with the
    axis, the secant through the window, the Newton step, [g(xi)], the
    perturbed difference quotient - and the variables move as the method
    says: the endpoint replaced is chosen by the sign of [fa * f(c)], the
    window slides by one, the point moves to the estimate.  The cached
    values are always those of [f] at the current endpoints or points.
    The denominators that the secant, Newton and modified secant methods
    test before they divide are not zero; nothing is said of the one that
    Regula Falsi divides by without a test. *)
Theorem trace_is_the_recurrence (v : frontend) (m : method) (tol : float)
    (maxit : Z) (out : list line) (res : RunResult) :
  run v m tol maxit = (out, Ok res) ->
  exists w0, starts m w0 /\ trace_from m w0 (trace res).
Proof.
  intro Hrun. rewrite run_is_scheme in Hrun.
  destruct (@run_scheme_inv _ (scheme_of v m tol maxit) maxit
              (recurrence_inv v m tol maxit) (recurrence_post v m tol maxit))
    with (4 := Hrun) as (x & -> & HQ).
  - unfold recurrence_inv.
    destruct v, m; simpl; intros o s0 H; run_in H; simpl;
      eexists; repeat split; simpl; eauto.
  - apply recurrence_pass.
  - unfold recurrence_inv, recurrence_post.
    intros s o o' x (w0 & Hs & Ht & _) Hx.
    destruct (epilogue_ok (scheme_of_ok v m tol maxit) _ _ Hx) as (-> & _).
    exists w0. split; assumption.
  - exact HQ.
Qed.

Lemma trace_is_the_recurrence_witness :
  exists out res,
    run WebApp (RegulaFalsi f_square_minus_two 1 2) 0.125 3 = (out, Ok res) /\
    exists w0,
      starts (RegulaFalsi f_square_minus_two 1 2) w0 /\
      trace_from (RegulaFalsi f_square_minus_two 1 2) w0 (trace res).
Proof.
  eexists. eexists. split; [vm_compute; reflexivity|].
  eapply (@trace_is_the_recurrence WebApp
            (RegulaFalsi f_square_minus_two 1 2) 0.125 3 _ _).
  vm_compute. reflexivity.
Defined.

(** ** What is printed *)

Lemma for_loop_output {S R} (body : Z -> S -> M (flow S R))
    (P : list line -> Prop) :
  (forall k s out out' r, P out -> body k s out = (out', r) -> P out') ->
  forall n k s out out' r,
    P out -> for_loop n k body s out = (out', r) -> P out'.
Proof.
  intros Hb. induction n as [|n IH]; intros k s out out' r HP Hrun.
  - simpl in Hrun. unfold ret in Hrun. inversion Hrun; subst. exact HP.
  - simpl in Hrun. unfold bind in Hrun.
    destruct (body k s out) as [out1 [[s1|r1]|e]] eqn:Hbody.
    + eapply IH; [|exact Hrun]. eapply Hb; eassumption.
    + unfold ret in Hrun. inversion Hrun; subst. eapply Hb; eassumption.
    + inversion Hrun; subst. eapply Hb; eassumption.
Qed.

(** The output of a run has a property that the statements before the loop
    establish when they succeed, and that the passes and the [return] after
    the loop keep, whether they raise or not - unless the statements before
    the loop raised. *)
Lemma run_scheme_output {Res} (sc : scheme Res) (maxit : Z)
    (P : list line -> Prop) :
  (forall out s0, prologue sc [] = (out, Ok s0) -> P out) ->
  (forall k s out out' r, P out -> body sc k s out = (out', r) -> P out') ->
  (forall s out out' r, P out -> epilogue sc s out = (out', r) -> P out') ->
  forall out outcome,
    run_scheme sc maxit = (out, outcome) ->
    P out \/ exists e, prologue sc [] = (out, Raise e) /\ outcome = Raise e.
Proof.
  intros Hpro Hbody Hepi out outcome Hrun.
  unfold run_scheme, bind, for_range in Hrun.
  remember (prologue sc []) as p eqn:Ep in Hrun.
  destruct p as [out0 [s0|e0]]; symmetry in Ep.
  - left.
    destruct (for_loop (Z.to_nat (maxit + 1 - 1)) 1 (body sc) s0 out0)
      as [out1 fl] eqn:Hloop.
    pose proof (for_loop_output (body sc) P Hbody _ _ _ _ (Hpro _ _ Ep) Hloop)
      as H1.
    destruct fl as [[s1|x]|e1].
    + destruct (epilogue sc s1 out1) as [out2 r] eqn:He.
      pose proof (Hepi _ _ _ _ H1 He) as H2.
      destruct r; inversion Hrun; subst; exact H2.
    + unfold ret in Hrun. inversion Hrun; subst. exact H1.
    + inversion Hrun; subst. exact H1.
  - right. inversion Hrun; subst. exists e0. split; [exact Ep|reflexivity].
Qed.

Lemma rows_table (rs : list IterationRecord) : rows (table rs) = rs.
Proof.
  unfold table. simpl. induction rs as [|r rs IH]; simpl; congruence.
Qed.

Lemma table_snoc (rs : list IterationRecord) (r : IterationRecord) :
  (table rs ++ [Row r])%list = table (rs ++ [r]).
Proof. unfold table. simpl. rewrite map_app. reflexivity. Qed.

Ltac keep_table :=
  match goal with
  | H : is_table _ |- _ => destruct H as [rs ->]
  end;
  rewrite ?table_snoc; eexists; reflexivity.

(** X6.  What [ZOF_CLI.py] prints in a run of a method is the header, its
    rule and one row for each step, in this order and nothing else: for a
    run that returns, the rows of the steps it reports; for a run that
    raises, the rows of the steps made before - or nothing at all, which
    happens only when Bisection or Regula Falsi fail before the header,
    on the values at the endpoints.  The functions of [app.py] print
    nothing. *)
Theorem prints_header_then_rows (m : method) (tol : float) (maxit : Z) :
  (forall out res,
     run CommandLine m tol maxit = (out, Ok res) -> out = table (trace res)) /\
  (forall out e,
     run CommandLine m tol maxit = (out, Raise e) ->
     is_table out \/ out = [] /\ tests_bracket m = true) /\
  (forall out outcome, run WebApp m tol maxit = (out, outcome) -> out = []).
Proof.
  assert (Hcli : forall out outcome,
             run CommandLine m tol maxit = (out, outcome) ->
             is_table out \/
             exists e, prologue (scheme_of CommandLine m tol maxit) [] =
                         (out, Raise e) /\ outcome = Raise e).
  { intros out outcome Hrun. rewrite run_is_scheme in Hrun.
    apply (@run_scheme_output _ (scheme_of CommandLine m tol maxit) maxit
             is_table) with (4 := Hrun).
    - destruct m; simpl; intros o s0 H; run_in H; exists []; reflexivity.
    - destruct m; simpl; intros k s o o' r HP H; split_state; simpl in *;
        run_in H; keep_table.
    - destruct m; simpl; intros s o o' r HP H; split_state; simpl in *;
        run_in H; keep_table. }
  split; [|split].
  - intros out res Hrun. destruct (Hcli _ _ Hrun) as [[rs Hrs]|(e & _ & He)];
      [|discriminate].
    unfold run in Hrun.
    destruct (run_cli m tol maxit) as [o [[[x fx] its]|e]]; [|discriminate].
    inversion Hrun; subst. cbn [trace]. rewrite rows_table. reflexivity.
  - intros out e Hrun. destruct (Hcli _ _ Hrun) as [Ht|(e' & Hp & _)];
      [left; exact Ht|].
    destruct m; simpl in Hp; run_in Hp; auto; left; exists []; reflexivity.
  - intros out outcome Hrun. rewrite run_is_scheme in Hrun.
    destruct (@run_scheme_output _ (scheme_of WebApp m tol maxit) maxit
                (fun o => o = [])) with (4 := Hrun) as [H|(e & Hp & _)].
    + destruct m; simpl; intros o s0 H; run_in H; reflexivity.
    + destruct m; simpl; intros k s o o' r HP H; split_state; simpl in *;
        run_in H; reflexivity.
    + destruct m; simpl; intros s o o' r HP H; split_state; simpl in *;
        run_in H; reflexivity.
    + exact H.
    + destruct m; simpl in Hp; run_in Hp; reflexivity.
Qed.

Lemma prints_header_then_rows_witness :
  exists out res,
    run CommandLine (Secant f_square_minus_two 1 2) 0.125 2 = (out, Ok res) /\
    out = table (trace res).
Proof.
  eexists. eexists. split; [vm_compute; reflexivity|].
  destruct (@prints_header_then_rows (Secant f_square_minus_two 1 2) 0.125 2)
    as (H & _).
  apply H. vm_compute. reflexivity.
Defined.

(** ** A larger budget *)

(** A loop that raises in one of its passes raises the same when it is
    allowed more passes. *)
Lemma raise_stable {S R} (body : Z -> S -> M (flow S R)) (n : nat) :
  forall n' k s out out' e,
    (n <= n')%nat ->
    for_loop n k body s out = (out', Raise e) ->
    for_loop n' k body s out = (out', Raise e).
Proof.
  induction n as [|n IH]; intros n' k s out out' e Hle Hrun.
  - simpl in Hrun. discriminate.
  - destruct n' as [|n']; [lia|].
    simpl in *. unfold bind in *.
    destruct (body k s out) as [out1 [[s1|r1]|e1]]; try discriminate.
    + apply IH; [lia|exact Hrun].
    + exact Hrun.
Qed.

(** A loop that fell through goes on from there when it is allowed more
    passes. *)
Lemma for_loop_more {S R} (body : Z -> S -> M (flow S R)) (n p : nat) :
  forall k s out out1 s1,
    for_loop n k body s out = (out1, Ok (Next s1)) ->
    for_loop (n + p) k body s out =
      for_loop p (k + Z.of_nat n) body s1 out1.
Proof.
  induction n as [|n IH]; intros k s out out1 s1 Hrun.
  - simpl in Hrun. unfold ret in Hrun. inversion Hrun; subst.
    replace (k + Z.of_nat 0)%Z with k by lia. reflexivity.
  - simpl in *. unfold bind in *.
    destruct (body k s out) as [out0 [[s0|r0]|e0]]; try discriminate.
    rewrite (IH _ _ _ _ _ Hrun). f_equal. lia.
Qed.

(** When the [return] after the loop raises, after a pass that fell to the
    next one, the next pass would have raised the same, with nothing more
    printed: this is the unguarded [g(xi)] of [fixed_point]. *)
Lemma epilogue_raise_is_next_pass (v : frontend) (m : method) (tol : float)
    (maxit k : Z) (s0 s : St (scheme_of v m tol maxit))
    (out0 out out' : list line) (e : exn) :
  body (scheme_of v m tol maxit) k s0 out0 = (out, Ok (Next s)) ->
  epilogue (scheme_of v m tol maxit) s out = (out', Raise e) ->
  forall k', body (scheme_of v m tol maxit) k' s out = (out', Raise e).
Proof.
  destruct v, m; simpl in *; intros H He k'; split_state; simpl in *;
    run_in H; simpl in He; run_in He; simpl in *; try congruence;
    reflexivity.
Qed.

(** X7.  A failure does not depend on the iteration budget either: with
    [maxit >= 1], a run that raises raises the same exception, after the
    same output, with any larger [maxit].  With the stability of converged
    answers, only a run that used its whole budget without converging can
    change when the budget grows. *)
Theorem failure_is_stable (v : frontend) (m : method) (tol : float)
    (maxit maxit' : Z) (out : list line) (e : exn) :
  (1 <= maxit <= maxit')%Z ->
  run v m tol maxit = (out, Raise e) ->
  run v m tol maxit' = (out, Raise e).
Proof.
  intros [Hmax Hle] Hrun.
  destruct (Z.eq_dec maxit maxit') as [<-|Hne]; [exact Hrun|].
  rewrite run_is_scheme in *. unfold run_scheme, bind, for_range in *.
  set (n := Z.to_nat (maxit + 1 - 1)) in *.
  assert (Hn : exists p, Z.to_nat (maxit' + 1 - 1) =
                         (n + Datatypes.S p)%nat /\ (1 <= n)%nat).
  { exists (Z.to_nat (maxit' - maxit - 1)). subst n. lia. }
  destruct Hn as (p & -> & Hn1).
  destruct (prologue (scheme_of v m tol maxit) []) as [out0 [s0|e0]] eqn:Hpro.
  - destruct (for_loop n 1 (body (scheme_of v m tol maxit)) s0 out0)
      as [out1 [[s1|x]|e1]] eqn:Hloop.
    + destruct (epilogue (scheme_of v m tol maxit) s1 out1)
        as [out2 [x|e2]] eqn:Hepi; [discriminate|].
      inversion Hrun; subst out2 e2; clear Hrun.
      destruct n as [|n']; [lia|].
      destruct (@for_loop_last _ _ _ _ _ _ _ _ _ Hloop)
        as (k0 & s2 & out3 & Hlast).
      pose proof (@epilogue_raise_is_next_pass v m tol maxit k0 s2 s1 out3
                    out1 out e Hlast Hepi (1 + Z.of_nat (Datatypes.S n'))%Z)
        as Hnext.
      pose proof (@for_loop_more _ _ _ _ (Datatypes.S p) _ _ _ _ _ Hloop)
        as Hmore.
      cbn [for_loop] in Hmore. unfold bind in Hmore.
      rewrite Hnext in Hmore.
      destruct v, m;
        cbn [scheme_of cli_scheme web_scheme prologue body finish St] in *;
        rewrite Hpro, Hmore; reflexivity.
    + discriminate.
    + inversion Hrun; subst out1 e1; clear Hrun.
      apply raise_stable with (n' := (n + Datatypes.S p)%nat) in Hloop;
        [|lia].
      destruct v, m;
        cbn [scheme_of cli_scheme web_scheme prologue body finish St] in *;
        rewrite Hpro, Hloop; reflexivity.
  - inversion Hrun; subst out0 e0; clear Hrun.
    destruct v, m;
      cbn [scheme_of cli_scheme web_scheme prologue body finish St] in *;
      rewrite Hpro; reflexivity.
Qed.

Lemma failure_is_stable_witness :
  (1 <= 1 <= 20)%Z /\
  exists out e,
    run CommandLine (FixedPoint g_reciprocal_minus_one 1) 0.125 1 =
      (out, Raise e) /\
    run CommandLine (FixedPoint g_reciprocal_minus_one 1) 0.125 20 =
      (out, Raise e).
Proof.
  split; [lia|]. eexists. eexists. split; [vm_compute; reflexivity|].
  apply (@failure_is_stable CommandLine
           (FixedPoint g_reciprocal_minus_one 1) 0.125 1 20);
    [lia | vm_compute; reflexivity].
Defined.

(** ** A tolerance that is not positive *)

Lemma SFltb_not_negative (x tol : spec_float) :
  SFnot_negative x = true -> SFltb (S754_zero false) tol = false ->
  SFltb x tol = false.
Proof.
  unfold SFltb.
  destruct x as [[|]| [|] | |[|] mx ex], tol as [[|]| [|] | |[|] mt et];
    simpl; congruence.
Qed.

Lemma binary_round_aux_not_negative (m e : Z) (l : location) :
  SFnot_negative (binary_round_aux prec emax false m e l) = true.
Proof.
  unfold binary_round_aux.
  destruct (shr_fexp prec emax m e l) as [mrs e1].
  destruct (shr_fexp prec emax _ e1 loc_Exact) as [mrs2 e2].
  destruct (shr_m mrs2); [reflexivity| |reflexivity].
  destruct (e2 <=? emax - prec)%Z; reflexivity.
Qed.

(** [abs x] is never below a tolerance that is not positive. *)
Lemma abs_not_below (x tol : float) :
  (0 <? tol) = false -> (abs x <? tol) = false.
Proof.
  rewrite !ltb_spec, abs_spec. intro H.
  apply SFltb_not_negative; [|exact H].
  destruct (Prim2SF x); reflexivity.
Qed.

(** Nor is its half. *)
Lemma half_abs_not_below (x tol : float) :
  (0 <? tol) = false -> (abs x / 2 <? tol) = false.
Proof.
  rewrite !ltb_spec, div_spec, abs_spec. intro H.
  apply SFltb_not_negative; [|exact H].
  unfold SF64div.
  change (Prim2SF 2) with (S754_finite false 4503599627370496 (-51)).
  destruct (Prim2SF x) as [[|]| [|] | |s mx ex]; try reflexivity.
  unfold SFdiv, SFabs.
  destruct (SFdiv_core_binary prec emax (Z.pos mx) ex
              (Z.pos 4503599627370496) (-51)) as [[mz ez] lz].
  apply binary_round_aux_not_negative.
Qed.

(** With a tolerance that is not positive no pass returns, except a pass
    of bisection that finds a value of [f] equal to zero. *)
Lemma no_early_return (v : frontend) (m : method) (tol : float) (maxit : Z) :
  (0 <? tol) = false ->
  forall k s out out' x,
    body (scheme_of v m tol maxit) k s out = (out', Ok (Return x)) ->
    bisection_hit_zero m (finish (scheme_of v m tol maxit) out' x).
Proof.
  intro Htol. unfold bisection_hit_zero.
  destruct v, m; simpl; intros k s out out' x H; split_state; simpl in *;
    run_in H; simpl;
    repeat match goal with
      | E : _ || _ = true |- _ => apply orb_true_iff in E; destruct E as [E|E]
      end;
    repeat match goal with
      | E : (abs _ / 2 <? tol) = true |- _ =>
          rewrite (half_abs_not_below _ Htol) in E; discriminate E
      | E : (abs _ <? tol) = true |- _ =>
          rewrite (abs_not_below _ Htol) in E; discriminate E
      end.
  all: split; [eauto|assumption].
Qed.

(** X8.  With a tolerance that is zero, negative or NaN ([0 < tol] is
    false) the convergence tests never succeed: a run that returns has
    gone to the end of its budget, [iterations_used = maxit] - unless it
    is a bisection that met a value of [f] exactly equal to zero, the one
    test that does not involve the tolerance. *)
Theorem nonpositive_tolerance_uses_budget (v : frontend) (m : method)
    (tol : float) (maxit : Z) (out : list line) (res : RunResult) :
  (0 <? tol) = false ->
  run v m tol maxit = (out, Ok res) ->
  used_budget maxit res \/ bisection_hit_zero m res.
Proof.
  intros Htol Hrun. rewrite run_is_scheme in Hrun.
  set (sc := scheme_of v m tol maxit) in *.
  destruct (@run_scheme_inv _ sc maxit (fun _ _ => True)
              (fun o x => used_budget maxit (finish sc o x) \/
                          bisection_hit_zero m (finish sc o x)))
    with (4 := Hrun) as (x & -> & HQ).
  - auto.
  - intros k s o o' fl _ Hb. destruct fl as [s'|x]; [exact I|].
    right. eapply no_early_return; eassumption.
  - intros s o o' x _ He. left.
    apply (epilogue_ok (scheme_of_ok v m tol maxit) _ _ He).
  - exact HQ.
Qed.

Lemma nonpositive_tolerance_uses_budget_witness :
  exists out res,
    (0 <? 0) = false /\
    run CommandLine (NewtonRaphson f_square_minus_two f_double 1) 0 4 =
      (out, Ok res) /\
    (used_budget 4 res \/
     bisection_hit_zero (NewtonRaphson f_square_minus_two f_double 1) res).
Proof.
  eexists. eexists. split; [reflexivity|].
  split; [vm_compute; reflexivity|].
  eapply (@nonpositive_tolerance_uses_budget CommandLine
           (NewtonRaphson f_square_minus_two f_double 1) 0 4 _ _);
    [reflexivity | vm_compute; reflexivity].
Defined.

(** ** The failures of a run *)

Ltac blame_evaluator :=
  left; unfold raised_by_evaluator; simpl;
  match goal with
  | E : ?g ?x = Raise ?e |- exists _ _, _ /\ _ = Raise ?e =>
      exists g, x; split; [tauto|exact E]
  end.

Lemma body_failures (v : frontend) (m : method) (tol : float) (maxit : Z) :
  forall k s out out' e,
    body (scheme_of v m tol maxit) k s out = (out', Raise e) ->
    raised_by_evaluator m e \/ exn_kind e = ZeroDivisionError.
Proof.
  destruct v, m; simpl; intros k s out out' e H; split_state; simpl in *;
    run_in H; first [blame_evaluator | right; reflexivity].
Qed.

Lemma prologue_failures (v : frontend) (m : method) (tol : float) (maxit : Z)
    (out : list line) (e : exn) :
  prologue (scheme_of v m tol maxit) [] = (out, Raise e) ->
  raised_by_evaluator m e \/
  exn_kind e = ValueError /\ tests_bracket m = true /\ out = [].
Proof.
  destruct v, m; simpl; intro H; run_in H;
    first [blame_evaluator | right; repeat split; reflexivity].
Qed.

Lemma failures_without_pass (v : frontend) (m : method) (tol : float)
    (maxit : Z) (out : list line) (e : exn) :
  bind (prologue (scheme_of v m tol maxit))
    (epilogue (scheme_of v m tol maxit)) [] = (out, Raise e) ->
  raised_by_evaluator m e \/
  exn_kind e = ValueError /\ tests_bracket m = true /\ out = [] \/
  exn_kind e = UnboundLocalError /\ seed m = None.
Proof.
  destruct v, m; simpl; intro H; run_in H;
    first [ blame_evaluator
          | right; left; repeat split; reflexivity
          | right; right; split; reflexivity ].
Qed.

(** X9.  The failures of a run are accounted for.  An exception that a
    run raises is one that an evaluator raised, or a [ZeroDivisionError]
    (of the method, or of a division by a float that is zero), or the
    [ValueError] of Bisection and Regula Falsi refusing their bracket,
    before anything is printed, or - only when [maxit <= 0], for
    Bisection, Regula Falsi and Secant - the [UnboundLocalError] of the
    [return] after a loop that made no pass. *)
Theorem failures_are_accounted_for (v : frontend) (m : method) (tol : float)
    (maxit : Z) (out : list line) (e : exn) :
  run v m tol maxit = (out, Raise e) ->
  raised_by_evaluator m e \/
  exn_kind e = ZeroDivisionError \/
  exn_kind e = ValueError /\ tests_bracket m = true /\ out = [] \/
  exn_kind e = UnboundLocalError /\ (maxit <= 0)%Z /\ seed m = None.
Proof.
  intro Hrun. rewrite run_is_scheme in Hrun.
  unfold run_scheme, bind, for_range in Hrun.
  set (sc := scheme_of v m tol maxit) in *.
  destruct (prologue sc []) as [out0 [s0|e0]] eqn:Hpro.
  - destruct (for_loop (Z.to_nat (maxit + 1 - 1)) 1 (body sc) s0 out0)
      as [out1 [[s1|x]|e1]] eqn:Hloop.
    + destruct (epilogue sc s1 out1) as [out2 [x|e2]] eqn:Hepi;
        [discriminate|].
      inversion Hrun; subst out2 e2; clear Hrun.
      destruct (Z.to_nat (maxit + 1 - 1)) as [|n] eqn:Hn.
      * simpl in Hloop. unfold ret in Hloop. inversion Hloop; subst out1 s1.
        assert (Hstart : bind (prologue sc) (epilogue sc) [] = (out, Raise e))
          by (unfold bind; rewrite Hpro; exact Hepi).
        destruct (failures_without_pass v m tol maxit Hstart)
          as [He|[He|[He Hs]]];
          [left; exact He|do 2 right; left; exact He|].
        do 3 right. repeat split; [exact He|lia|exact Hs].
      * destruct (@for_loop_last _ _ _ _ _ _ _ _ _ Hloop)
          as (k0 & s2 & out3 & Hlast).
        pose proof (@epilogue_raise_is_next_pass v m tol maxit k0 s2 s1 out3
                      out1 out e Hlast Hepi 1%Z) as Hnext.
        destruct (body_failures v m tol maxit _ _ _ Hnext) as [He|He];
          [left; exact He|right; left; exact He].
    + discriminate.
    + inversion Hrun; subst out1 e1; clear Hrun.
      destruct (@for_loop_raise _ _ (body sc) (fun _ _ _ => True)
                  (fun _ _ _ => True)) with (2 := I) (3 := Hloop)
        as (k' & s' & out' & _ & _ & Hbody).
      { intros k s o o' fl _ _. destruct fl; exact I. }
      destruct (body_failures v m tol maxit _ _ _ Hbody) as [He|He];
        [left; exact He|right; left; exact He].
  - inversion Hrun; subst out0 e0; clear Hrun.
    destruct (prologue_failures v m tol maxit Hpro) as [He|He];
      [left; exact He|do 2 right; left; exact He].
Qed.

Lemma failures_are_accounted_for_witness :
  exists out e,
    run WebApp (Secant f_identity 1 1) 0.125 5 = (out, Raise e) /\
    (raised_by_evaluator (Secant f_identity 1 1) e \/
     exn_kind e = ZeroDivisionError \/
     exn_kind e = ValueError /\ tests_bracket (Secant f_identity 1 1) = true /\
       out = [] \/
     exn_kind e = UnboundLocalError /\ (5 <= 0)%Z /\
       seed (Secant f_identity 1 1) = None).
Proof.
  eexists. eexists. split; [vm_compute; reflexivity|].
  apply (@failures_are_accounted_for WebApp (Secant f_identity 1 1) 0.125 5).
  vm_compute. reflexivity.
Defined.

(** ** The passes of the modified secant method, one after the other *)

(** A run that returns with none of its steps converged fell out of the
    loop: its budget was used up, or it had none. *)
Lemma unconverged_run_fell_through {Res} (sc : scheme Res)
    (conv : IterationRecord -> bool) (maxit : Z) (out : list line)
    (res : RunResult) :
  scheme_ok sc conv maxit ->
  run_scheme sc maxit = (out, Ok res) ->
  Forall (fun r => conv r = false) (trace res) ->
  exists out0 s0 out1 s x,
    prologue sc [] = (out0, Ok s0) /\
    for_loop (Z.to_nat (maxit + 1 - 1)) 1 (body sc) s0 out0 =
      (out1, Ok (Next s)) /\
    epilogue sc s out1 = (out, Ok x) /\
    res = finish sc out x.
Proof.
  intros Hok Hrun Hnc. unfold run_scheme, bind, for_range in Hrun.
  destruct (prologue sc []) as [out0 [s0|e0]] eqn:Hpro; [|discriminate].
  destruct (for_loop (Z.to_nat (maxit + 1 - 1)) 1 (body sc) s0 out0)
    as [out1 [fl|e1]] eqn:Hloop; [|discriminate].
  assert (Hinit : steps_inv sc conv 1 out0 s0).
  { split; [lia|]. split; [|left; reflexivity].
    rewrite (prologue_ok Hok Hpro). reflexivity. }
  pose proof (@for_loop_inv _ _ (body sc) (steps_inv sc conv)
                (steps_post sc conv) (@steps_pass _ sc conv maxit Hok)
                _ _ _ _ _ _ Hinit Hloop) as Hend.
  destruct fl as [s1|x].
  - destruct (epilogue sc s1 out1) as [out2 [x|e2]] eqn:Hepi; [|discriminate].
    inversion Hrun; subst out res; clear Hrun.
    exists out0, s0, out1, s1, x. auto.
  - exfalso. unfold ret in Hrun. inversion Hrun; subst out res; clear Hrun.
    destruct Hend as (k & _ & _ & _ & init & r & Ht & _ & _ & _ & Hc).
    rewrite Ht in Hnc. apply Forall_app in Hnc. destruct Hnc as [_ Hr].
    inversion Hr; subst. congruence.
Qed.

(** A pass from [xi] whose denominator is not zero records the step with
    the perturbation of the seed, then returns or goes on. *)
Lemma modified_secant_step (f : evaluator) (x0 delta tol : float) (k : Z)
    (xi fp fx y : float) (out : list line) (iters : list IterationRecord) :
  let p := perturbation x0 delta in
  let x_next := xi - fx * p / (fp - fx) in
  let r := mkRecord k x_next y (abs (x_next - xi)) (Delta delta) in
  f (xi + p) = Ok fp -> f xi = Ok fx -> (fp - fx =? 0) = false ->
  f x_next = Ok y ->
  CLI.modified_secant_body f x0 delta tol k xi out =
    ((out ++ [Row r])%list,
     Ok (if converged (ModifiedSecant f x0 delta) tol r
         then Return (x_next, y, k) else Next x_next)) /\
  Web.modified_secant_list_body f x0 delta tol k (iters, xi) out =
    (out,
     Ok (if converged (ModifiedSecant f x0 delta) tol r
         then Return ((iters ++ [r])%list, x_next, y, k)
         else Next ((iters ++ [r])%list, x_next))).
Proof.
  intros p x_next r Hp Hx Hd Hy. subst p x_next r.
  unfold CLI.modified_secant_body, Web.modified_secant_list_body,
    perturbation, converged in *. unfold_monad. simpl.
  destruct (x0 =? 0); simpl in *; rewrite Hp, Hx, Hd, Hy;
    match goal with
    | |- context [if ?c <? tol then _ else _] => destruct (c <? tol)
    end; simpl;
    try match goal with
      | |- context [abs y <? tol] => destruct (abs y <? tol)
      end; split; reflexivity.
Qed.

(** After [k] passes that did not converge, the run with a larger budget
    fails in pass [k + 1] when the denominator at the last estimate is
    zero, and the run with budget [k + 1] records the step from the last
    estimate when it is not. *)
Lemma modified_secant_next_pass (v : frontend) (f : evaluator)
    (x0 delta tol : float) (k : Z) (out : list line) (res : RunResult)
    (fp fx : float) :
  let m := ModifiedSecant f x0 delta in
  let p := perturbation x0 delta in
  let xi := root_estimate res in
  let x_next := xi - fx * p / (fp - fx) in
  (0 <= k)%Z ->
  run v m tol k = (out, Ok res) ->
  Forall (not_converged m tol) (trace res) ->
  f (xi + p) = Ok fp -> f xi = Ok fx ->
  ((fp - fx =? 0) = true ->
   forall maxit, (k < maxit)%Z ->
     run v m tol maxit = (out, Raise modified_secant_error)) /\
  ((fp - fx =? 0) = false ->
   forall y, f x_next = Ok y ->
     exists out',
       run v m tol (k + 1) =
         (out',
          Ok (mkResult x_next y (k + 1)
                (trace res ++
                 [mkRecord (k + 1) x_next y (abs (x_next - xi))
                    (Delta delta)])%list))).
Proof.
  intros m p xi x_next Hk Hrun Hnc Hp Hx.
  rewrite run_is_scheme in Hrun.
  destruct (unconverged_run_fell_through (scheme_of_ok v m tol k) Hrun Hnc)
    as (out0 & s0 & out1 & s & x & Hpro & Hloop & Hepi & Hres).
  assert (Hstate :
    exists (s1 : St (scheme_of v m tol k)),
      for_loop (Z.to_nat (k + 1 - 1)) 1 (body (scheme_of v m tol k)) s0 out0 =
        (out, Ok (Next s1)) /\
      last_estimate (scheme_of v m tol k) s1 = Some xi /\
      steps (scheme_of v m tol k) out s1 = trace res).
  { subst m p xi x_next.
    destruct v;
      cbn [scheme_of cli_scheme web_scheme prologue body epilogue finish St]
        in *; split_state;
      unfold point_epilogue, with_list, bind, call, ret in Hepi;
      repeat (case_inner_in Hepi; try discriminate Hepi);
      inversion Hepi; subst; eexists; (split; [exact Hloop|]);
      split; reflexivity. }
  clear Hloop Hepi. destruct Hstate as (s1 & Hloop & Hlast & Hsteps).
  split.
  - intros Hd maxit Hlt.
    assert (Hn : exists q, Z.to_nat (maxit + 1 - 1) =
                           (Z.to_nat (k + 1 - 1) + Datatypes.S q)%nat).
    { exists (Z.to_nat (maxit - k - 1)). lia. }
    destruct Hn as [q Hn].
    pose proof (@for_loop_more _ _ _ _ (Datatypes.S q) _ _ _ _ _ Hloop)
      as Hmore.
    set (k1 := (1 + Z.of_nat (Z.to_nat (k + 1 - 1)))%Z) in Hmore.
    cbn [for_loop] in Hmore. unfold bind in Hmore.
    rewrite run_is_scheme. unfold run_scheme, bind, for_range. rewrite Hn.
    subst m p xi x_next.
    destruct v;
      cbn [scheme_of cli_scheme web_scheme prologue body epilogue finish St
           last_estimate steps] in *; split_state;
      cbn [fst snd] in *; injection Hlast as Hlast; rewrite <- Hlast in *;
      match type of Hmore with
      | context [CLI.modified_secant_body _ _ _ _ ?k' ?xi ?o] =>
          destruct (@modified_secant_zero_denominator f x0 delta tol k' xi
                      fp fx o [] Hp Hx Hd) as [Hb _]
      | context [Web.modified_secant_list_body _ _ _ _ ?k' (?it, ?xi) ?o] =>
          destruct (@modified_secant_zero_denominator f x0 delta tol k' xi
                      fp fx o it Hp Hx Hd) as [_ Hb]
      end; rewrite Hb in Hmore; rewrite Hpro, Hmore; reflexivity.
  - intros Hd y Hy.
    assert (Hn : Z.to_nat (k + 1 + 1 - 1) = (Z.to_nat (k + 1 - 1) + 1)%nat)
      by lia.
    pose proof (@for_loop_more _ _ _ _ 1%nat _ _ _ _ _ Hloop) as Hmore.
    replace (1 + Z.of_nat (Z.to_nat (k + 1 - 1)))%Z with (k + 1)%Z in Hmore
      by lia.
    cbn [for_loop] in Hmore. unfold bind in Hmore.
    rewrite run_is_scheme. unfold run_scheme, bind, for_range. rewrite Hn.
    subst m p xi x_next.
    destruct v;
      cbn [scheme_of cli_scheme web_scheme prologue body epilogue finish St
           last_estimate steps] in *; split_state;
      cbn [fst snd] in *; injection Hlast as Hlast; rewrite <- Hlast in *;
      match type of Hmore with
      | context [CLI.modified_secant_body _ _ _ _ ?k' ?xi ?o] =>
          destruct (@modified_secant_step f x0 delta tol k' xi fp fx y o []
                      Hp Hx Hd Hy) as [Hb _]
      | context [Web.modified_secant_list_body _ _ _ _ ?k' (?it, ?xi) ?o] =>
          destruct (@modified_secant_step f x0 delta tol k' xi fp fx y o it
                      Hp Hx Hd Hy) as [_ Hb]
      end; rewrite Hb in Hmore; rewrite Hpro, Hmore;
      match goal with
      | |- context [if ?c then _ else _] => destruct c
      end;
      unfold point_epilogue, with_list, bind, call, ret; rewrite ?Hy;
      cbn [cli_finish web_finish]; rewrite ?rows_app, <- ?Hsteps;
      eexists; reflexivity.
Qed.

(** C5: in a run of the modified secant method, in either front end, every
    recorded estimate is obtained from the one before it (the first from
    the seed [x0]) as [xi - f(xi)*p / (f(xi+p) - f(xi))] with the one
    perturbation [p = x0*delta] if [x0 <> 0] and [p = delta] if [x0 = 0],
    fixed by the seed; a pass whose denominator [f(xi+p) - f(xi)] is zero
    raises the zero-division error and records nothing; a run raises only
    that error, at an iterate with a zero denominator, or what [f]
    raised.  And the passes are made: after [k >= 0] passes that did not
    converge, from the estimate [xi] they reached (the seed when
    [k = 0]), every run with a larger budget fails with the zero-division
    error, nothing more printed, when the denominator at [xi] is zero; and
    when it is not, the run with budget [k + 1] returns the estimate
    [xi - f(xi)*p / (f(xi+p) - f(xi))], its value, the count [k + 1] and
    the steps made so far followed by this one. *)
Theorem modified_secant_perturbation_fixed (v : frontend) (f : evaluator)
    (x0 delta tol : float) :
  (forall maxit out outcome,
     run v (ModifiedSecant f x0 delta) tol maxit = (out, outcome) ->
     (forall res,
        outcome = Ok res ->
        chained (secant_step_from f (perturbation x0 delta)) x0
          (map estimate (trace res))) /\
     (v = CommandLine ->
      chained (secant_step_from f (perturbation x0 delta)) x0
        (map estimate (rows out))) /\
     (forall e,
        outcome = Raise e ->
        (exists x, f x = Raise e) \/
        e = modified_secant_error /\
        exists xi fp fx,
          (v = CommandLine -> xi = last (map estimate (rows out)) x0) /\
          f (xi + perturbation x0 delta) = Ok fp /\ f xi = Ok fx /\
          (fp - fx =? 0) = true) /\
     (forall k xi fp fx o iters,
        f (xi + perturbation x0 delta) = Ok fp -> f xi = Ok fx ->
        (fp - fx =? 0) = true ->
        CLI.modified_secant_body f x0 delta tol k xi o =
          (o, Raise modified_secant_error) /\
        Web.modified_secant_list_body f x0 delta tol k (iters, xi) o =
          (o, Raise modified_secant_error))) /\
  (forall k out res fp fx,
     let m := ModifiedSecant f x0 delta in
     let p := perturbation x0 delta in
     let xi := root_estimate res in
     let x_next := xi - fx * p / (fp - fx) in
     (0 <= k)%Z ->
     run v m tol k = (out, Ok res) ->
     Forall (not_converged m tol) (trace res) ->
     f (xi + p) = Ok fp -> f xi = Ok fx ->
     ((fp - fx =? 0) = true ->
      forall maxit, (k < maxit)%Z ->
        run v m tol maxit = (out, Raise modified_secant_error)) /\
     ((fp - fx =? 0) = false ->
      forall y, f x_next = Ok y ->
        exists out',
          run v m tol (k + 1) =
            (out',
             Ok (mkResult x_next y (k + 1)
                   (trace res ++
                    [mkRecord (k + 1) x_next y (abs (x_next - xi))
                       (Delta delta)])%list)))).
Proof.
  split.
  - intros maxit out outcome. apply modified_secant_runs.
  - intros k out res fp fx. apply modified_secant_next_pass.
Qed.

Lemma modified_secant_perturbation_fixed_witness :
  let f := f_square_minus_two in
  let m := ModifiedSecant f 1 0.5 in
  let tol := 0x1p-13 in
  (exists out res,
     run WebApp m tol 3 = (out, Ok res) /\
     List.length (trace res) = 3%nat /\
     chained (secant_step_from f (perturbation 1 0.5)) 1
       (map estimate (trace res))) /\
  (exists out1 res1 out2 res2,
     run WebApp m tol 1 = (out1, Ok res1) /\
     Forall (not_converged m tol) (trace res1) /\
     run WebApp m tol (1 + 1) = (out2, Ok res2) /\
     List.length (trace res2) = Datatypes.S (List.length (trace res1)) /\
     let xi := root_estimate res1 in
     let p := perturbation 1 0.5 in
     root_estimate res2 =
       xi - (xi * xi - 2) * p / ((xi + p) * (xi + p) - 2 - (xi * xi - 2))).
Proof.
  intros f m tol.
  destruct (@modified_secant_perturbation_fixed WebApp f 1 0.5 tol)
    as [Hruns Hnext].
  split.
  - eexists. eexists. split; [vm_compute; reflexivity|].
    split; [reflexivity|].
    eapply (Hruns 3%Z); reflexivity.
  - destruct (run WebApp m tol 1) as [out1 [res1|e1]] eqn:H1;
      [|vm_compute in H1; discriminate H1].
    assert (Hnc : Forall (not_converged m tol) (trace res1)).
    { vm_compute in H1. injection H1 as <- <-. repeat constructor. }
    set (xi := root_estimate res1). set (p := perturbation 1 0.5).
    assert (Hd : ((xi + p) * (xi + p) - 2 - (xi * xi - 2) =? 0) = false).
    { subst xi. vm_compute in H1. injection H1 as <- <-.
      vm_compute. reflexivity. }
    destruct (Hnext 1%Z out1 res1 ((xi + p) * (xi + p) - 2) (xi * xi - 2)
                ltac:(lia) H1 Hnc eq_refl eq_refl) as [_ Hstep].
    destruct (Hstep Hd _ eq_refl) as [out2 H2].
    exists out1, res1, out2. eexists.
    split; [reflexivity|]. split; [exact Hnc|]. split; [exact H2|].
    split; [|reflexivity].
    cbn [trace]. rewrite length_app. simpl. lia.
Defined.

(** * The callers *)

(** ** [get_float] *)

Section Callers.

Variable h : host.

Lemma get_float_loop_refused (prompt : string) (default : option float)
    (refused : list string) :
  Forall (fun l => accepted h default l = None) refused ->
  forall lines out,
    Script.get_float_loop h prompt default (refused ++ lines) out =
    Script.get_float_loop h prompt default lines
      (out ++ complaints prompt refused).
Proof.
  induction 1 as [|l refused Hl _ IH]; intros lines out.
  - simpl. rewrite app_nil_r. reflexivity.
  - simpl. unfold accepted in Hl.
    destruct (if (strip h l =? "")%string then default else None);
      [discriminate|].
    destruct (float_of h (Some (strip h l))); [discriminate|].
    rewrite IH, <- !app_assoc. reflexivity.
Qed.

(** X10.  [get_float] returns what the first line that it accepts reads
    as - the default on a blank line when there is one - having written
    the prompt and the complaint once for every line before it, and leaves
    the lines after it unread; when it accepts no line up to the end of
    the input it raises [EOFError], which its own [except] does not see. *)
Theorem get_float_takes_first_number (prompt : string)
    (default : option float) (refused : list string) :
  Forall (fun l => accepted h default l = None) refused ->
  (forall l x rest out,
     accepted h default l = Some x ->
     Script.get_float h prompt default (mkWorld (refused ++ l :: rest) out) =
       (mkWorld rest (out ++ complaints prompt refused ++ [Ask prompt]),
        Ok x)) /\
  (forall out,
     Script.get_float h prompt default (mkWorld refused out) =
       (mkWorld [] (out ++ complaints prompt refused ++ [Ask prompt]),
        Raise eof_error)).
Proof.
  intro Hbad. unfold Script.get_float. simpl. split.
  - intros l x rest out Hl.
    rewrite (@get_float_loop_refused prompt default refused Hbad). simpl.
    unfold accepted in Hl. rewrite <- app_assoc.
    destruct (if (strip h l =? "")%string then default else None).
    + congruence.
    + destruct (float_of h (Some (strip h l))); congruence.
  - intro out. rewrite <- (app_nil_r refused) at 1.
    rewrite (@get_float_loop_refused prompt default refused Hbad). simpl.
    rewrite <- app_assoc. reflexivity.
Qed.

End Callers.

Lemma get_float_takes_first_number_witness :
  Forall (fun l => accepted sample_host (Some 0.25) l = None)
    ["one"; "1e"]%string /\
  Script.get_float sample_host "x0 = " (Some 0.25)
    (mkWorld ["one"; "1e"; ""; "2"]%string []) =
    (mkWorld ["2"%string]
       [Ask "x0 = "; Say "Enter a valid number.";
        Ask "x0 = "; Say "Enter a valid number."; Ask "x0 = "],
     Ok 0.25).
Proof.
  assert (H : Forall (fun l => accepted sample_host (Some 0.25) l = None)
                ["one"; "1e"]%string)
    by (repeat constructor).
  split; [exact H|].
  destruct (@get_float_takes_first_number sample_host "x0 = " (Some 0.25)
              _ H) as [Hfirst _].
  apply (Hfirst ""%string 0.25 ["2"%string] []). reflexivity.
Defined.

(** ** [main] *)

Ltac unfold_io :=
  unfold io_bind, io_try, io_ret, lift, say, input, call_method in *.

Ltac run_io H :=
  unfold_io;
  repeat (case_inner_in H; simpl in H; try discriminate H);
  inversion H; subst; clear H.

(** The method that [main] or [index] called. *)
Ltac name_method :=
  match goal with
  | E : CLI.bisection ?f ?a ?b _ _ [] = _ |- _ => exists (Bisection f a b)
  | E : CLI.regula_falsi ?f ?a ?b _ _ [] = _ |- _ =>
      exists (RegulaFalsi f a b)
  | E : CLI.secant ?f ?x0 ?x1 _ _ [] = _ |- _ => exists (Secant f x0 x1)
  | E : CLI.newton_raphson ?f ?df ?x0 _ _ [] = _ |- _ =>
      exists (NewtonRaphson f df x0)
  | E : CLI.fixed_point ?g ?x0 _ _ [] = _ |- _ => exists (FixedPoint g x0)
  | E : CLI.modified_secant ?f ?x0 ?delta _ _ [] = _ |- _ =>
      exists (ModifiedSecant f x0 delta)
  end.

(** What a term evaluates first: the scrutinee of its innermost [match] at
    the head. *)
Ltac head_scrutinee t :=
  lazymatch t with
  | match ?x with _ => _ end =>
      lazymatch x with
      | match _ with _ => _ end => head_scrutinee x
      | _ => x
      end
  end.

(** Case analysis on what the left-hand side of [H] evaluates first. *)
Ltac case_head_in H :=
  match type of H with
  | ?lhs = _ => let x := head_scrutinee lhs in destruct x eqn:?
  end.

Section Main.

Variable h : host.

Lemma get_float_raises_eof (prompt : string) (default : option float)
    (w w' : world) (e : exn) :
  Script.get_float h prompt default w = (w', Raise e) -> e = eof_error.
Proof.
  unfold Script.get_float. generalize (stdout w) as out.
  induction (stdin w) as [|l lines IH]; intros out H; simpl in H.
  - inversion H. reflexivity.
  - destruct (if (strip h l =? "")%string then default else None);
      [discriminate|].
    destruct (float_of h (Some (strip h l))); [discriminate|].
    eapply IH. exact H.
Qed.


(** [get_float] reads [next_number]. *)
Lemma get_float_loop_next (prompt : string) (default : option float)
    (lines : list string) :
  forall out,
    exists said,
      Script.get_float_loop h prompt default lines out =
        match next_number h default lines with
        | Some (x, rest) => (mkWorld rest (out ++ said), Ok x)
        | None => (mkWorld [] (out ++ said), Raise eof_error)
        end.
Proof.
  induction lines as [|l lines IH]; intro out; simpl.
  - exists [Ask prompt]. reflexivity.
  - unfold accepted.
    destruct (if (strip h l =? "")%string then default else None).
    + exists [Ask prompt]. reflexivity.
    + destruct (float_of h (Some (strip h l))).
      * exists [Ask prompt]. reflexivity.
      * destruct (IH ((out ++ [Ask prompt]) ++ [Say "Enter a valid number."])%list)
          as [said Hsaid].
        exists (Ask prompt :: Say "Enter a valid number." :: said).
        rewrite Hsaid.
        destruct (next_number h default lines) as [[x rest]|];
          rewrite <- !app_assoc; reflexivity.
Qed.

Lemma get_float_reads (prompt : string) (default : option float)
    (w w' : world) (r : result float) :
  Script.get_float h prompt default w = (w', r) ->
  match r with
  | Ok x => next_number h default (stdin w) = Some (x, stdin w')
  | Raise e => next_number h default (stdin w) = None
  end.
Proof.
  unfold Script.get_float. intro H.
  destruct (get_float_loop_next prompt default (stdin w) (stdout w))
    as [said Hsaid].
  rewrite Hsaid in H.
  destruct (next_number h default (stdin w)) as [[x rest]|];
    inversion H; subst; reflexivity.
Qed.

Lemma get_float_given (prompt : string) (default : option float)
    (lines rest : list string) (out : list console) (x : float) :
  next_number h default lines = Some (x, rest) ->
  exists said,
    Script.get_float h prompt default (mkWorld lines out) =
      (mkWorld rest (out ++ said), Ok x).
Proof.
  intro H. unfold Script.get_float. simpl.
  destruct (get_float_loop_next prompt default lines out) as [said Hsaid].
  exists said. rewrite Hsaid, H. reflexivity.
Qed.

(** What the lines read so far stand for. *)
Ltac read_lines :=
  repeat match goal with
    | E : Script.get_float _ _ _ _ = (_, _) |- _ =>
        apply get_float_reads in E; simpl in E
    end;
  cbv beta zeta delta [chosen_method];
  repeat match goal with
    | E : (_ =? _)%Z = _ |- _ => rewrite E
    | E : stdin _ = _ |- _ => rewrite E
    | E : next_number _ _ _ = _ |- _ => rewrite E
    | E : sympify _ _ = _ |- _ => rewrite E
    | E : lambdify _ _ = _ |- _ => rewrite E
    end.

(** The [try] of [main] reads the arguments of the method chosen and
    calls it. *)
Lemma dispatch_reads (f df : evaluator) (choice : Z) (tol : float)
    (maxit : Z) (w w' : world) (r : result (option CLI.returned)) :
  Script.dispatch h f df choice tol maxit w = (w', r) ->
  match r with
  | Ok (Some x) =>
      exists m out pre,
        chosen_method h f df choice (stdin w) = Some (m, stdin w') /\
        run_cli m tol maxit = (out, Ok x) /\
        stdout w' = (pre ++ map Shown out)%list
  | Raise e =>
      e = eof_error /\ chosen_method h f df choice (stdin w) = None \/
      exists m out pre,
        chosen_method h f df choice (stdin w) = Some (m, stdin w') /\
        run_cli m tol maxit = (out, Raise e) /\
        stdout w' = (pre ++ map Shown out)%list
  | Ok None =>
      chosen_method h f df choice (stdin w) = None /\
      exists pre c,
        stdout w' = (pre ++ [c])%list /\
        (c = Say "Invalid choice." \/
         exists e, c = SayError "Error parsing function:" e)
  end.
Proof.
  intro H. unfold Script.dispatch, Script.parse_function in H. run_io H;
    first
      [ try right; name_method; do 2 eexists;
        (split; [read_lines; reflexivity|]);
        (split; [eassumption|reflexivity])
      | left;
        (split;
         [ first [reflexivity | eapply get_float_raises_eof; eassumption]
         | read_lines; reflexivity ])
      | (split; [read_lines; reflexivity|]);
        do 2 eexists; (split; [reflexivity|]); eauto ].
Qed.

(** Lets [get_float] read the number that the lines give. *)
Ltac give_number_in H :=
  match type of H with
  | context [Script.get_float ?h ?p ?d (mkWorld ?l ?o)] =>
      match goal with
      | E : next_number h d l = Some _ |- _ =>
          let Hg := fresh "Hg" in
          destruct (@get_float_given p d _ _ o _ E) as [? Hg];
          rewrite Hg in H; clear Hg
      end
  end.

Ltac use_host_in H :=
  match goal with
  | E : sympify _ _ = _ |- _ => rewrite E in H
  | E : lambdify _ _ = _ |- _ => rewrite E in H
  | E : diff _ _ = _ |- _ => rewrite E in H
  | E : int_of _ _ = _ |- _ => rewrite E in H
  | E : int_of_float _ = _ |- _ => rewrite E in H
  | E : (_ =? _)%Z = _ |- _ => rewrite E in H
  end.

(** And the other way round: the method that the lines stand for is
    called with them. *)
Lemma dispatch_calls (f df : evaluator) (choice : Z) (tol : float)
    (maxit : Z) (lines rest : list string) (out : list console)
    (m : method) (o : list line) (r : result CLI.returned) :
  chosen_method h f df choice lines = Some (m, rest) ->
  run_cli m tol maxit = (o, r) ->
  exists pre,
    Script.dispatch h f df choice tol maxit (mkWorld lines out) =
      (mkWorld rest (pre ++ map Shown o),
       match r with
       | Ok x => Ok (Some x)
       | Raise e => Raise e
       end).
Proof.
  intros Hc Hr. cbv beta zeta delta [chosen_method] in Hc.
  remember (Script.dispatch h f df choice tol maxit (mkWorld lines out))
    as d eqn:Hd.
  unfold Script.dispatch, Script.parse_function in Hd. unfold_io.
  repeat (case_head_in Hc; try discriminate Hc; cbv beta iota in Hc).
  all: inversion Hc; subst m rest; clear Hc; simpl in Hr.
  all: simpl in Hd.
  all: repeat (first [give_number_in Hd | use_host_in Hd]; simpl in Hd).
  all: rewrite ?Hr in Hd; subst d; destruct r; eexists; reflexivity.
Qed.

(** [main] with an input that gets as far as a method: the method is
    called with what the input stands for, and [main] reports what it
    did. *)
Lemma main_runs_session (w : world) (m : method) (tol : float) (maxit : Z)
    (rest : list string) (o : list line) (r : result CLI.returned) :
  session h (stdin w) = Some (m, tol, maxit, rest) ->
  run_cli m tol maxit = (o, r) ->
  exists pre,
    Script.main h w =
      (mkWorld rest (pre ++ map Shown o ++ report r)%list, Ok tt).
Proof.
  destruct w as [lines out]. simpl. intros Hs Hr. unfold session in Hs.
  remember (Script.main h (mkWorld lines out)) as result0 eqn:Hd.
  unfold Script.main, Script.parse_function in Hd. unfold_io.
  repeat (case_head_in Hs; try discriminate Hs; cbv beta iota in Hs).
  inversion Hs; subst m tol maxit rest; clear Hs.
  simpl in Hd.
  repeat (first [give_number_in Hd | use_host_in Hd]; simpl in Hd).
  match type of Hd with
  | context [Script.dispatch _ _ _ _ _ _ (mkWorld _ ?out0)] =>
      destruct (@dispatch_calls _ _ _ _ _ _ _ out0 _ _ _ Heqo2 Hr)
        as [pre Hdisp]
  end.
  rewrite Hdisp in Hd. exists pre. subst result0.
  destruct r as [[[root froot] its]|e]; simpl; rewrite <- !app_assoc;
    reflexivity.
Qed.

(** What the lines read by [main] stand for. *)
Ltac session_read :=
  repeat match goal with
    | E : Script.get_float _ _ _ _ = (_, _) |- _ =>
        apply get_float_reads in E; simpl in E
    | E : stdin (mkWorld _ _) = _ |- _ => simpl in E
    end;
  unfold session; simpl stdin;
  repeat match goal with
    | E : stdin _ = _ |- _ => rewrite E
    | E : next_number _ _ _ = _ |- _ => rewrite E
    | E : sympify _ _ = _ |- _ => rewrite E
    | E : lambdify _ _ = _ |- _ => rewrite E
    | E : diff _ _ = _ |- _ => rewrite E
    | E : int_of _ _ = _ |- _ => rewrite E
    | E : int_of_float _ = _ |- _ => rewrite E
    | E : chosen_method _ _ _ _ _ = _ |- _ => rewrite E
    end;
  reflexivity.

Lemma main_read_session (w w' : world) :
  Script.main h w = (w', Ok tt) ->
  (forall pre iterations,
     stdout w' = (pre ++ [SayCount iterations])%list ->
     exists m tol maxit out root froot pre',
       session h (stdin w) = Some (m, tol, maxit, stdin w') /\
       run_cli m tol maxit = (out, Ok (root, froot, iterations)) /\
       stdout w' =
         (pre' ++ map Shown out ++ final_result (root, froot, iterations))%list)
  /\
  (forall pre e,
     stdout w' = (pre ++ [SayError "Method failed:" e])%list ->
     e = eof_error /\ session h (stdin w) = None \/
     exists m tol maxit out pre',
       session h (stdin w) = Some (m, tol, maxit, stdin w') /\
       run_cli m tol maxit = (out, Raise e) /\
       stdout w' =
         (pre' ++ map Shown out ++ [SayError "Method failed:" e])%list).
Proof.
  intro H. unfold Script.main, Script.parse_function in H. run_io H.
  all: split; intros pre x Hout; simpl in Hout.
  all: try match goal with
         | E : Script.dispatch _ _ _ _ _ _ _ = _ |- _ =>
             apply dispatch_reads in E; simpl in E
         end.
  all: try match goal with
         | E : _ /\ (exists pre c, _) |- _ =>
             destruct E as (Hnone & pre0 & c & Hstd & Hc);
             rewrite Hstd in Hout
         end.
  all: apply app_inj_tail in Hout; destruct Hout as [Hpre Hlast].
  all: try discriminate Hlast.
  all: try (destruct Hc as [->|[e0 ->]]; discriminate Hlast).
  - injection Hlast as ->.
    match goal with
    | E : exists m out pre, _ |- _ =>
        destruct E as (m & out & pre0 & Hm & Hrun & Hstd)
    end.
    match type of Hrun with
    | run_cli _ ?tol ?maxit = _ => exists m, tol, maxit, out
    end.
    eexists _, _, pre0. split; [session_read|]. split; [exact Hrun|].
    simpl. rewrite Hstd, <- !app_assoc. reflexivity.
  - injection Hlast as ->.
    match goal with
    | E : _ \/ _ |- _ =>
        destruct E as [[-> Hnone]|(m & out & pre0 & Hm & Hrun & Hstd)]
    end.
    + left. split; [reflexivity|session_read].
    + right.
      match type of Hrun with
      | run_cli _ ?tol ?maxit = _ => exists m, tol, maxit, out, pre0
      end.
      split; [session_read|]. split; [exact Hrun|].
      simpl. rewrite Hstd, <- !app_assoc. reflexivity.
Qed.

(** X12.  What [main] reports is what the method that its input stands
    for did.  When the input gets as far as a method - it stands for the
    method [m], made of the function read from the first line and of the
    numbers read for the choice, with the tolerance and the iterations
    read before them - [main] calls [m] with these, prints its lines and
    then the final result that [m] returned, or [Method failed:] with the
    exception that [m] raised, and leaves the lines that the method did
    not need.  And the other way round: when [main] ends with the line of
    the iteration count, the method that its input stands for returned
    that count with the root and the value printed above it, its lines
    just before; when [main] ends with [Method failed:] and an exception,
    that method raised it, after the lines it had printed - or the input
    ended while its arguments were being read, and stands for no
    method. *)
Theorem main_reports_the_method (w : world) :
  (forall m tol maxit rest out r,
     session h (stdin w) = Some (m, tol, maxit, rest) ->
     run_cli m tol maxit = (out, r) ->
     exists pre,
       Script.main h w =
         (mkWorld rest (pre ++ map Shown out ++ report r)%list, Ok tt)) /\
  (forall w',
     Script.main h w = (w', Ok tt) ->
     (forall pre iterations,
        stdout w' = (pre ++ [SayCount iterations])%list ->
        exists m tol maxit out root froot pre',
          session h (stdin w) = Some (m, tol, maxit, stdin w') /\
          run_cli m tol maxit = (out, Ok (root, froot, iterations)) /\
          stdout w' =
            (pre' ++ map Shown out ++
             final_result (root, froot, iterations))%list) /\
     (forall pre e,
        stdout w' = (pre ++ [SayError "Method failed:" e])%list ->
        e = eof_error /\ session h (stdin w) = None \/
        exists m tol maxit out pre',
          session h (stdin w) = Some (m, tol, maxit, stdin w') /\
          run_cli m tol maxit = (out, Raise e) /\
          stdout w' =
            (pre' ++ map Shown out ++ [SayError "Method failed:" e])%list)).
Proof.
  split.
  - intros m tol maxit rest out r. apply main_runs_session.
  - intro w'. apply main_read_session.
Qed.

End Main.


Lemma main_reports_the_method_witness :
  let lines := ["x**2 - 2"; "4"; "0.25"; ""; "1"; "left over"]%string in
  let m := NewtonRaphson f_square_minus_two f_double 1 in
  exists out root froot,
    session sample_host lines = Some (m, 0.25, 50%Z, ["left over"]%string) /\
    run_cli m 0.25 50 = (out, Ok (root, froot, 2%Z)) /\
    exists pre,
      Script.main sample_host (mkWorld lines []) =
        (mkWorld ["left over"]%string
           (pre ++ map Shown out ++ final_result (root, froot, 2%Z))%list,
         Ok tt).
Proof.
  intros lines m.
  destruct (run_cli m 0.25 50) as [out [[[root froot] its]|e]] eqn:Hrun;
    [|vm_compute in Hrun; discriminate Hrun].
  assert (Hits : its = 2%Z).
  { vm_compute in Hrun. injection Hrun as _ _ _ <-. reflexivity. }
  subst its. exists out, root, froot.
  split; [vm_compute; reflexivity|]. split; [reflexivity|].
  destruct (@main_reports_the_method sample_host (mkWorld lines []))
    as [Hcalled _].
  apply (Hcalled m 0.25 50%Z ["left over"]%string out
           (Ok (root, froot, 2%Z))).
  - vm_compute. reflexivity.
  - exact Hrun.
Defined.

(** ** [index] *)

Lemma is_method_true (method : option string) (name : string) :
  Flask.is_method method name = true -> method = Some name.
Proof.
  destruct method as [s|]; simpl; [|discriminate].
  intro H. apply String.eqb_eq in H. congruence.
Qed.

Lemma call_list_run (m : method) (tol : float) (maxit : Z)
    (r : result Web.returned) :
  snd (run_web m tol maxit) = r ->
  exists out,
    run WebApp m tol maxit =
      (out,
       match r with
       | Ok (iters, root, froot, its) => Ok (mkResult root froot its iters)
       | Raise e => Raise e
       end).
Proof.
  unfold run. destruct (run_web m tol maxit) as [out [[[[iters x] fx] its]|e]];
    simpl; intros <-; eexists; reflexivity.
Qed.

Lemma run_call_list (m : method) (tol : float) (maxit : Z) (out : list line) :
  (forall res,
     run WebApp m tol maxit = (out, Ok res) ->
     snd (run_web m tol maxit) =
       Ok (trace res, root_estimate res, function_value_at_root res,
           iterations_used res)) /\
  (forall e,
     run WebApp m tol maxit = (out, Raise e) ->
     snd (run_web m tol maxit) = Raise e).
Proof.
  unfold run. destruct (run_web m tol maxit) as [o [[[[iters x] fx] its]|e]];
    simpl; split; intros r H; inversion H; subst; reflexivity.
Qed.

(** Runs the body of the [try] of [index] to its end, case by case,
    leaving the calls of the methods as they are. *)
Ltac run_solve H :=
  unfold Flask.solve, Flask.parse_function, Flask.call_list, res_bind in H;
  repeat (case_head_in H; cbv beta iota in H; try discriminate H);
  inversion H; subst; clear H.

Ltac name_method_list :=
  match goal with
  | E : snd (run_web ?m _ _) = _ |- _ => exists m
  end.

Ltac name_of_method :=
  repeat match goal with
    | E : _ || _ = true |- _ =>
        apply orb_true_iff in E; destruct E as [E|E]
    | E : Flask.is_method _ _ = true |- _ => apply is_method_true in E
    end;
  simpl; congruence.

Section Index.

Variable h : host.

Lemma solve_returns (req : Flask.request) (tol : float) (maxit : Z)
    (r : Flask.shown) :
  Flask.solve h req (Flask.form_get (Flask.form req) "function")
    (Flask.form_get (Flask.form req) "method") tol maxit = Ok r ->
  exists m out res,
    asks_for h (Flask.form req) m /\
    run WebApp m tol maxit = (out, Ok res) /\
    r = shown_of (Flask.form req) res.
Proof.
  intro H. run_solve H;
    name_method_list;
    match goal with
    | E : snd (run_web _ _ _) = _ |- _ =>
        destruct (call_list_run _ _ _ E) as [out Hrun]; exists out
    end;
    eexists; (split; [|split; [exact Hrun|reflexivity]]);
    unfold asks_for, parsed, field_or;
    repeat match goal with
      | E : Flask.truthy _ = _ |- _ => rewrite E
      end;
    (split; [name_of_method|eauto 12]).
Qed.

Ltac use_form :=
  repeat match goal with
    | E : Flask.form_get _ _ = _ |- _ => rewrite E
    | E : sympify _ _ = _ |- _ => rewrite E
    | E : lambdify _ _ = _ |- _ => rewrite E
    | E : diff _ _ = _ |- _ => rewrite E
    | E : float_of _ _ = _ |- _ => rewrite E
    end.

Lemma solve_asked (req : Flask.request) (tol : float) (maxit : Z)
    (m : method) (r : result Web.returned) :
  asks_for h (Flask.form req) m ->
  snd (run_web m tol maxit) = r ->
  Flask.solve h req (Flask.form_get (Flask.form req) "function")
    (Flask.form_get (Flask.form req) "method") tol maxit =
    match r with
    | Ok (iters, root, froot, its) =>
        Ok (Flask.mkShown iters root froot its
              (Flask.form_get (Flask.form req) "function")
              (Flask.form_get (Flask.form req) "method"))
    | Raise e => Raise e
    end.
Proof.
  unfold asks_for, parsed, field_or, Flask.solve, Flask.parse_function,
    Flask.call_list, res_bind.
  intros [Hname Hargs]. generalize run_web. intros call Hrun.
  destruct m; cbn [method_name] in Hname;
    repeat match goal with
      | H : _ /\ _ |- _ => destruct H
      | H : exists _, _ |- _ => destruct H
      end;
    use_form; simpl; use_form; simpl; use_form; simpl;
    repeat match goal with
      | E : ?l = Ok _ |- context [?l] => rewrite E
      end;
    simpl; rewrite ?Hrun; destruct r as [[[[? ?] ?] ?]|?];
    reflexivity.
Qed.




(** [index] fails before its [try], or hands a page to the template: the
    empty page on a request that is not a POST, else the result or the
    message of what the [try] ended with. *)
Lemma index_hands_a_page (Html : Type)
    (render_template : Flask.page -> result Html) (req : Flask.request)
    (r : result Html) :
  Flask.index h render_template req = r ->
  (exists e, r = Raise e /\ refused_before_try h (Flask.form req) e) \/
  ((Flask.http_method req =? "POST")%string = false /\
   r = render_template (Flask.mkPage None None)) \/
  (exists tol maxit,
     (Flask.http_method req =? "POST")%string = true /\
     field_or h (Flask.form req) "tolerance" default_tolerance = Ok tol /\
     count_or h (Flask.form req) "maxit" default_maxit = Ok maxit /\
     r = render_template
           match
             Flask.solve h req (Flask.form_get (Flask.form req) "function")
               (Flask.form_get (Flask.form req) "method") tol maxit
           with
           | Ok s => Flask.mkPage (Some s) None
           | Raise e => Flask.mkPage None (Some (exn_msg e))
           end).
Proof.
  intros <-.
  unfold Flask.index, res_bind, field_or, count_or, refused_before_try.
  destruct (Flask.http_method req =? "POST")%string; [|right; left; auto].
  destruct (Flask.truthy (Flask.form_get (Flask.form req) "tolerance"))
    as [s|] eqn:Hs.
  - destruct (float_of h (Some s)) as [tol|e] eqn:Htol;
      [|left; exists e; split; [reflexivity|left; eauto]].
    destruct (Flask.truthy (Flask.form_get (Flask.form req) "maxit"))
      as [s'|] eqn:Hs'.
    + destruct (int_of h s') as [maxit|e] eqn:Hmaxit;
        [|left; exists e; split; [reflexivity|right; eauto]].
      right; right. exists tol, maxit. auto.
    + right; right. exists tol, default_maxit. auto.
  - destruct (Flask.truthy (Flask.form_get (Flask.form req) "maxit"))
      as [s'|] eqn:Hs'.
    + destruct (int_of h s') as [maxit|e] eqn:Hmaxit;
        [|left; exists e; split; [reflexivity|right; eauto]].
      right; right. exists default_tolerance, maxit. auto.
    + right; right. exists default_tolerance, default_maxit. auto.
Qed.

(** X13.  A result that [index] gives to the template is what the method
    that the form asks for returned, and the other way round.  When
    [index] hands a page with a result to [render_template], the form
    asks for a method - by its name, with the function parsed from the
    form and the numbers read from its fields - and that method, run with
    the tolerance and the budget of the form ([1e-8] and [50] when the
    field is missing or empty), returned the steps, root, value and count
    shown; the page has no error.  And when the form of a POST asks for a
    method whose run returns, [index] is [render_template] on the page
    with exactly that result. *)
Theorem index_shows_the_run (Html : Type)
    (render_template : Flask.page -> result Html) (req : Flask.request) :
  (forall r,
     Flask.index h render_template req = r ->
     (exists e, r = Raise e /\ refused_before_try h (Flask.form req) e) \/
     exists p,
       r = render_template p /\
       forall s,
         Flask.page_result p = Some s ->
         Flask.page_error p = None /\
         exists m tol maxit out res,
           asks_for h (Flask.form req) m /\
           field_or h (Flask.form req) "tolerance" default_tolerance =
             Ok tol /\
           count_or h (Flask.form req) "maxit" default_maxit = Ok maxit /\
           run WebApp m tol maxit = (out, Ok res) /\
           s = shown_of (Flask.form req) res) /\
  (forall m tol maxit out res,
     (Flask.http_method req =? "POST")%string = true ->
     asks_for h (Flask.form req) m ->
     field_or h (Flask.form req) "tolerance" default_tolerance = Ok tol ->
     count_or h (Flask.form req) "maxit" default_maxit = Ok maxit ->
     run WebApp m tol maxit = (out, Ok res) ->
     Flask.index h render_template req =
       render_template
         (Flask.mkPage (Some (shown_of (Flask.form req) res)) None)).
Proof.
  split.
  - intros r H.
    destruct (index_hands_a_page render_template req H)
      as [Hfail|[[_ ->]|(tol & maxit & _ & Htol & Hmaxit & ->)]].
    + left. exact Hfail.
    + right. eexists. split; [reflexivity|]. intros s Hs. discriminate Hs.
    + right. eexists. split; [reflexivity|]. intros s Hs.
      destruct (Flask.solve h req _ _ tol maxit) as [s'|e] eqn:Hsolve;
        simpl in Hs; [|discriminate Hs].
      injection Hs as <-. split; [reflexivity|].
      destruct (solve_returns _ _ _ Hsolve) as (m & out & res & Ha & Hr & ->).
      exists m, tol, maxit, out, res. auto.
  - intros m tol maxit out res Hpost Ha Htol Hmaxit Hrun.
    destruct (run_call_list m tol maxit out) as [Hcall _].
    pose proof (solve_asked req tol maxit Ha (Hcall _ Hrun)) as Hsolve.
    unfold Flask.index, res_bind. unfold field_or in Htol.
    unfold count_or in Hmaxit. rewrite Hpost, Htol, Hmaxit, Hsolve.
    reflexivity.
Qed.


End Index.

Lemma index_shows_the_run_witness :
  let fields :=
    [("function", "x**2 - 2"); ("method", "newton"); ("x0", "1");
     ("tolerance", "0.25")]%string in
  let m := NewtonRaphson f_square_minus_two f_double 1 in
  exists out res,
    (Flask.http_method (Flask.mkRequest "POST" fields) =? "POST")%string =
      true /\
    asks_for sample_host fields m /\
    field_or sample_host fields "tolerance" default_tolerance = Ok 0.25 /\
    count_or sample_host fields "maxit" default_maxit = Ok 50%Z /\
    run WebApp m 0.25 50 = (out, Ok res) /\
    Flask.index sample_host (fun p => Ok p) (Flask.mkRequest "POST" fields) =
      Ok (Flask.mkPage (Some (shown_of fields res)) None).
Proof.
  intros fields m.
  assert (Ha : asks_for sample_host fields m).
  { split; [reflexivity|]. split; [|reflexivity].
    exists SampleSquareMinusTwo, SampleDouble. repeat split. }
  destruct (run WebApp m 0.25 50) as [out [res|e]] eqn:Hrun;
    [|vm_compute in Hrun; discriminate Hrun].
  exists out, res.
  split; [reflexivity|]. split; [exact Ha|].
  split; [reflexivity|]. split; [reflexivity|]. split; [reflexivity|].
  destruct (@index_shows_the_run sample_host Flask.page (fun p => Ok p)
              (Flask.mkRequest "POST" fields)) as [_ Hshown].
  apply (Hshown m 0.25 50%Z out res); try reflexivity; assumption.
Defined.

